(** * multisource-downloader: the download service of package [download]

    A shallow embedding of [download/service.go], [download/helpers.go] and
    [download/models.go], and theorems about chunk planning, source probing,
    metadata reconciliation, source prioritisation, integrity verification
    and publishing.

    Conventions.
    - Go's [int64] and [int] are [Z] with the two's-complement wrap-around
      written out ([wrap64]); [uint] is a [Z] in [0, 2^64).
    - The outside world (HTTP servers, the clock, the scheduler of
      goroutines, failures of file-system calls, how many bytes a read
      delivers) is a record of oracles, [World].  Every theorem quantifies
      over it.
    - The file system is a finite map from paths to file contents.
    - A loop that the source does not bound runs on fuel; running out of
      fuel is the outcome [Diverges].
    - Closures capture the loop variables of their own iteration (the
      per-iteration semantics of Go 1.22 and later). *)

From Stdlib Require Import ZArith List Strings.String Strings.Ascii Strings.Byte Lia Permutation Sorted.
From stdpp Require Import gmap strings list sorting.

Local Open Scope Z_scope.

(** ** Machine integers *)

Module Int64.

Definition modulus : Z := 2 ^ 64.
Definition half : Z := 2 ^ 63.
Definition maxInt : Z := half - 1.
Definition minInt : Z := - half.

(** Reduction of a mathematical integer to the [int64] it is stored as. *)
Definition wrap64 (z : Z) : Z := (z + half) mod modulus - half.

Definition inRange (z : Z) : Prop := minInt <= z <= maxInt.

Definition add (a b : Z) : Z := wrap64 (a + b).

(** Go's [/] truncates toward zero; the caller checks the divisor. *)
Definition quo (a b : Z) : Z := wrap64 (Z.quot a b).

(** Go's [%] has the sign of the dividend. *)
Definition rem (a b : Z) : Z := Z.rem a b.

(** [int64(u)] for a [uint] value [u]. *)
Definition ofUint (u : Z) : Z := wrap64 u.

End Int64.

(** ** Errors, panics and outcomes *)

(** The package's error values ([service.go], the [var] block), the error
    built by [fmt.Errorf("received %d response from %s", ...)], and the
    errors of the libraries underneath ([net/http], [os]). *)
Inductive error : Type :=
| ErrNoSourceUrls
| ErrSourcesFileMismatch
| ErrETagMismatch
| ErrUnknownContentLength
| ErrPartialRequestUnsupported
| ErrFailedChunkDownloadAllSources
| ErrStatus (code : Z) (url : string)
| ErrTransport (msg : string)
| ErrIO (msg : string).

(** Run-time panics of Go that the service can reach. *)
Inductive panic : Type :=
| IntegerDivideByZero
| IndexOutOfRange.

(** How a piece of code ends: it returns, it panics, or it never ends. *)
Inductive run (A : Type) : Type :=
| Returns (a : A)
| Panics (p : panic)
| Diverges.
Arguments Returns {A} a.
Arguments Panics {A} p.
Arguments Diverges {A}.

(** ** models.go *)

Record Options : Type := {
  Connections : Z;    (* uint *)
  Timeout : Z;        (* uint *)
  CheckETag : bool;
  DestFilePath : string
}.

Record fileMetadata : Type := {
  size : Z;           (* int64 *)
  contentType : string;
  eTag : string
}.

Record sourceFileMetadata : Type := {
  meta : fileMetadata;   (* the embedded struct *)
  url : string;
  estLatency : Z         (* time.Duration, nanoseconds *)
}.

(** ** helpers.go: min *)

Definition min (a b : Z) : Z := if a <? b then a else b.

(** ** service.go: the chunk loop of downloadFileContents

    [for offset, i := int64(0), 0; offset < size; offset, i = offset+chunkSize, i+1]
    with, in the body, [srcIdxInitAttempt := i % len(sourceUrls)] and
    [limit := min(offset+chunkSize, size)].  One [chunk] is what one
    iteration hands to the goroutine it starts. *)

Record chunk : Type := {
  chunkIndex : Z;          (* i *)
  offset : Z;
  limit : Z;
  srcIdxInitAttempt : Z
}.

Fixpoint chunkLoop (fuel : nat) (fsize chunkSize nUrls : Z) (off i : Z)
  : run (list chunk) :=
  if off <? fsize then
    match fuel with
    | O => Diverges
    | S fuel' =>
        if nUrls =? 0 then Panics IntegerDivideByZero
        else
          let c := {| chunkIndex := i;
                      offset := off;
                      limit := min (Int64.add off chunkSize) fsize;
                      srcIdxInitAttempt := Int64.rem i nUrls |} in
          match chunkLoop fuel' fsize chunkSize nUrls
                          (Int64.add off chunkSize) (Int64.add i 1) with
          | Returns cs => Returns (c :: cs)
          | Panics p => Panics p
          | Diverges => Diverges
          end
    end
  else Returns [].

(** [chunkSize := fileMetadata.size / int64(s.opts.Connections)], then the
    loop. *)
Definition planChunks (fuel : nat) (connections fsize nUrls : Z) : run (list chunk) :=
  let n := Int64.ofUint connections in
  if n =? 0 then Panics IntegerDivideByZero
  else chunkLoop fuel fsize (Int64.quo fsize n) nUrls 0 0.

(** ** The outside world *)

(** What the service reads of an [*http.Response]. *)
Record Response : Type := {
  StatusCode : Z;
  ContentLength : Z;            (* int64; -1 when the length is unknown *)
  Header : string -> string;    (* Header.Get: the empty string when absent *)
  Body : string + list byte     (* io.ReadAll(resp.Body): its error, or the bytes *)
}.

(** File contents by path. *)
Abbreviation disk := (gmap string (list byte)).

(** The errors of [net/http] and [os] are known by their messages only;
    none of them is one of the package's own error values. *)
Record World : Type := {
  (** the answer to the HEAD request of the [k]-th source URL *)
  httpHead : nat -> string -> string + Response;
  (** [time.Since(start)] of the [k]-th probe *)
  probeElapsed : nat -> Z;
  (** when the [k]-th probe goroutine ends; earlier means smaller *)
  probeFinish : nat -> nat;
  (** the answer to the ranged GET that the goroutine of the [p]-th chunk
      sends to the source in slot [j]: URL, first and last byte of the
      Range header *)
  httpGet : nat -> nat -> string -> Z -> Z -> string + Response;
  (** when the goroutine of the [p]-th chunk ends *)
  taskFinish : nat -> nat;
  (** failures of the file-system calls *)
  osCreate : option string;
  fileWriteAt : nat -> option string;
  fileStat : option string;
  fileRead : option string;
  (** how many bytes the one [file.Read(b)] of [getMD5Hash] delivers into a
      buffer of the given length when it reports no error; see [readOnce] *)
  fileReadCount : nat -> nat;
  osRename : option string
}.

(** What the service does to the outside, in order. *)
Inductive event : Type :=
| EvHead (u : string)
| EvCreate (path : string)
| EvGet (u : string) (rangeStart rangeEnd : Z)
| EvPrintln (msg : string) (arg : string)
| EvWriteAt (path : string) (off : Z) (data : list byte)
| EvStat (path : string)
| EvRead (path : string)
| EvRename (oldpath newpath : string)
| EvClose (path : string).

(** ** Completion order of goroutines and sort.Slice

    [insertionSort] is [insertionSortLessFunc] of Go's package [sort]: each
    element in turn moves left while it is less than its left neighbour.
    [sort.Slice] runs it on slices of at most 12 elements.  The sorted
    prefix is kept reversed, so that the left neighbour is its head. *)

Section InsertionSort.
Context {A : Type} (less : A -> A -> bool).

Fixpoint moveLeft (x : A) (revPrefix : list A) : list A :=
  match revPrefix with
  | [] => [x]
  | y :: rest => if less x y then y :: moveLeft x rest else x :: y :: rest
  end.

Definition insertionSort (l : list A) : list A :=
  rev (fold_left (fun acc x => moveLeft x acc) l []).
End InsertionSort.

(** The goroutines started for [tasks], numbered in the order in which they
    start, listed in the order in which they end. *)
Definition inCompletionOrder {A : Type} (finish : nat -> nat) (tasks : list A)
  : list (nat * A) :=
  insertionSort (fun a b => (finish (fst a) <? finish (fst b))%nat) (imap pair tasks).

(** ** helpers.go *)

Definition sameMetadata (checkETag : bool) (sfmA sfmB : sourceFileMetadata) : bool :=
  if negb (size (meta sfmA) =? size (meta sfmB))
     || negb (String.eqb (contentType (meta sfmA)) (contentType (meta sfmB)))
  then false
  else if checkETag && negb (String.eqb (eTag (meta sfmA)) (eTag (meta sfmB)))
  then false
  else true.

(** The loop [for i := 1; i < len(srcFileMetas); i++] over the neighbours
    [srcFileMetas[i-1]], [srcFileMetas[i]]. *)
Fixpoint allSourcesMatchFileMetadata (srcFileMetas : list sourceFileMetadata)
    (checkETag : bool) : bool :=
  match srcFileMetas with
  | sfmA :: rest =>
      match rest with
      | sfmB :: _ =>
          if sameMetadata checkETag sfmA sfmB
          then allSourcesMatchFileMetadata rest checkETag
          else false
      | [] => true
      end
  | [] => true
  end.

(** The comparison handed to [sort.Slice]. *)
Definition lessEstLatency (a b : sourceFileMetadata) : bool :=
  estLatency a <? estLatency b.

(** What [sort.Slice] promises: the result is a rearrangement of the slice
    in which no element is less than an earlier one.  It does not promise
    to keep equal elements in their order. *)
Definition sortSliceContract (sortSlice : list sourceFileMetadata -> list sourceFileMetadata)
  : Prop :=
  forall l, Permutation (sortSlice l) l /\
            StronglySorted (fun a b => lessEstLatency b a = false) (sortSlice l).

Section Prioritizer.
Variable sortSlice : list sourceFileMetadata -> list sourceFileMetadata.

Definition sourceUrlsSortedByEstLatency (srcFileMetas : list sourceFileMetadata)
  : list string :=
  map url (sortSlice srcFileMetas).
End Prioritizer.

(** [sort.Slice] as it runs on up to 12 sources. *)
Definition sortSliceSmall : list sourceFileMetadata -> list sourceFileMetadata :=
  insertionSort lessEstLatency.

(** ** crypto/md5 and the [%x] verb of fmt

    [md5.Sum] after RFC 1321, on 32-bit words held in [Z]. *)

Module MD5.

Definition mask32 (x : Z) : Z := Z.land x 0xffffffff.
Definition not32 (x : Z) : Z := Z.lxor x 0xffffffff.
Definition rotl (x c : Z) : Z :=
  mask32 (Z.lor (Z.shiftl x c) (Z.shiftr x (32 - c))).

Definition K : list Z :=
  [ 0xd76aa478; 0xe8c7b756; 0x242070db; 0xc1bdceee;
    0xf57c0faf; 0x4787c62a; 0xa8304613; 0xfd469501;
    0x698098d8; 0x8b44f7af; 0xffff5bb1; 0x895cd7be;
    0x6b901122; 0xfd987193; 0xa679438e; 0x49b40821;
    0xf61e2562; 0xc040b340; 0x265e5a51; 0xe9b6c7aa;
    0xd62f105d; 0x02441453; 0xd8a1e681; 0xe7d3fbc8;
    0x21e1cde6; 0xc33707d6; 0xf4d50d87; 0x455a14ed;
    0xa9e3e905; 0xfcefa3f8; 0x676f02d9; 0x8d2a4c8a;
    0xfffa3942; 0x8771f681; 0x6d9d6122; 0xfde5380c;
    0xa4beea44; 0x4bdecfa9; 0xf6bb4b60; 0xbebfbc70;
    0x289b7ec6; 0xeaa127fa; 0xd4ef3085; 0x04881d05;
    0xd9d4d039; 0xe6db99e5; 0x1fa27cf8; 0xc4ac5665;
    0xf4292244; 0x432aff97; 0xab9423a7; 0xfc93a039;
    0x655b59c3; 0x8f0ccc92; 0xffeff47d; 0x85845dd1;
    0x6fa87e4f; 0xfe2ce6e0; 0xa3014314; 0x4e0811a1;
    0xf7537e82; 0xbd3af235; 0x2ad7d2bb; 0xeb86d391 ].

Definition shifts : list Z :=
  [ 7; 12; 17; 22; 7; 12; 17; 22; 7; 12; 17; 22; 7; 12; 17; 22;
    5; 9; 14; 20; 5; 9; 14; 20; 5; 9; 14; 20; 5; 9; 14; 20;
    4; 11; 16; 23; 4; 11; 16; 23; 4; 11; 16; 23; 4; 11; 16; 23;
    6; 10; 15; 21; 6; 10; 15; 21; 6; 10; 15; 21; 6; 10; 15; 21 ].

Definition byteZ (b : byte) : Z := Z.of_N (Byte.to_N b).

Definition zByte (z : Z) : byte :=
  match Byte.of_N (Z.to_N (z mod 256)) with
  | Some b => b
  | None => x00
  end.

(** [n] bytes of [z], least significant first. *)
Fixpoint littleEndian (n : nat) (z : Z) : list byte :=
  match n with
  | O => []
  | S n' => zByte z :: littleEndian n' (z / 256)
  end.

Definition pad (msg : list byte) : list byte :=
  let len := Z.of_nat (length msg) in
  msg ++ [x80] ++ repeat x00 (Z.to_nat ((55 - len) mod 64))
      ++ littleEndian 8 ((8 * len) mod 2 ^ 64).

(** The [g]-th little-endian word of a block. *)
Definition word (block : list byte) (g : nat) : Z :=
  let b k := byteZ (nth (4 * g + k) block x00) in
  b 0%nat + 2 ^ 8 * b 1%nat + 2 ^ 16 * b 2%nat + 2 ^ 24 * b 3%nat.

Definition step (block : list byte) (st : Z * Z * Z * Z) (i : nat) : Z * Z * Z * Z :=
  let '(a, b, c, d) := st in
  let '(f, g) :=
    if (i <? 16)%nat then (Z.lor (Z.land b c) (Z.land (not32 b) d), i)
    else if (i <? 32)%nat then
      (Z.lor (Z.land d b) (Z.land (not32 d) c), ((5 * i + 1) mod 16)%nat)
    else if (i <? 48)%nat then (Z.lxor (Z.lxor b c) d, ((3 * i + 5) mod 16)%nat)
    else (Z.lxor c (Z.lor b (not32 d)), ((7 * i) mod 16)%nat) in
  let f' := mask32 (f + a + nth i K 0 + word block g) in
  (d, mask32 (b + rotl f' (nth i shifts 0)), b, c).

Definition compress (st : Z * Z * Z * Z) (block : list byte) : Z * Z * Z * Z :=
  let '(a0, b0, c0, d0) := st in
  let '(a, b, c, d) := fold_left (step block) (seq 0 64) st in
  (mask32 (a0 + a), mask32 (b0 + b), mask32 (c0 + c), mask32 (d0 + d)).

Fixpoint blocks (n : nat) (st : Z * Z * Z * Z) (bytes : list byte) : Z * Z * Z * Z :=
  match n with
  | O => st
  | S n' => blocks n' (compress st (firstn 64 bytes)) (skipn 64 bytes)
  end.

Definition sum (msg : list byte) : list byte :=
  let padded := pad msg in
  let '(a, b, c, d) :=
    blocks (length padded / 64)%nat
           (0x67452301, 0xefcdab89, 0x98badcfe, 0x10325476) padded in
  littleEndian 4 a ++ littleEndian 4 b ++ littleEndian 4 c ++ littleEndian 4 d.

End MD5.

(** [fmt.Sprintf("%x", bytes)]: two lower-case hexadecimal digits a byte. *)
Definition hexDigit (n : Z) : ascii :=
  nth (Z.to_nat n) (list_ascii_of_string "0123456789abcdef") "0"%char.

Fixpoint hexEncode (bs : list byte) : string :=
  match bs with
  | [] => EmptyString
  | b :: bs' =>
      String (hexDigit (MD5.byteZ b / 16))
             (String (hexDigit (MD5.byteZ b mod 16)) (hexEncode bs'))
  end.

(** The bytes of a Go string. *)
Definition bytesOfString (s : string) : list byte :=
  map byte_of_ascii (list_ascii_of_string s).

(** ** service.go *)

Definition suffixOngoingDownload : string := ".download".

(** [strings.Trim(s, cutset)] for a cutset of one character. *)
Fixpoint trimLeft (c : ascii) (s : string) : string :=
  match s with
  | String a s' => if Ascii.eqb a c then trimLeft c s' else s
  | EmptyString => EmptyString
  end.

Fixpoint trimRight (c : ascii) (s : string) : string :=
  match s with
  | EmptyString => EmptyString
  | String a s' =>
      match trimRight c s' with
      | EmptyString => if Ascii.eqb a c then EmptyString else String a EmptyString
      | t => String a t
      end
  end.

Definition stringsTrim (s : string) (c : ascii) : string := trimRight c (trimLeft c s).

Definition doubleQuote : ascii := ascii_of_nat 34.

(** The body of the goroutine that [fetchFileMetadataFromSources] starts for
    the [k]-th URL: the error it returns, or the descriptor it sends on the
    channel.  The composite literal sets [url], [estLatency], [size] and
    [eTag]; [contentType] keeps its zero value. *)
Definition probe (w : World) (k : nat) (u : string) : error + sourceFileMetadata :=
  match httpHead w k u with
  | inl msg => inl (ErrTransport msg)
  | inr resp =>
      if negb (StatusCode resp =? 200) then inl (ErrStatus (StatusCode resp) u)
      else if ContentLength resp =? -1 then inl ErrUnknownContentLength
      else
        let acceptRanges := Header resp "Accept-Ranges" in
        if (String.length acceptRanges =? 0)%nat || String.eqb acceptRanges "none"
        then inl ErrPartialRequestUnsupported
        else inr {| url := u;
                    estLatency := probeElapsed w k;
                    meta := {| size := ContentLength resp;
                               contentType := EmptyString;
                               eTag := stringsTrim (Header resp "ETag") doubleQuote |} |}
  end.

Definition sentDescriptor (r : nat * (string * (error + sourceFileMetadata)))
  : option sourceFileMetadata :=
  match snd (snd r) with inr sfm => Some sfm | inl _ => None end.

Definition returnedError (r : nat * (string * (error + sourceFileMetadata)))
  : option error :=
  match snd (snd r) with inl err => Some err | inr _ => None end.

(** The probes run concurrently.  The descriptors are appended as they
    arrive on the channel, that is in the order in which the probes end;
    [eg.Wait()] gives the error of the first probe that failed. *)
Definition fetchFileMetadataFromSources (w : World) (sourceUrls : list string)
  : list event * list sourceFileMetadata * option error :=
  let ended :=
    inCompletionOrder (probeFinish w) (imap (fun k u => (u, probe w k u)) sourceUrls) in
  (map (fun r => EvHead (fst (snd r))) ended,
   omap sentDescriptor ended,
   head (omap returnedError ended)).

(** [fetchChunk]: a GET with the header [Range: bytes=start-end].  [p] and
    [j] only name the attempt for the oracle. *)
Definition fetchChunk (w : World) (p j : nat) (u : string) (start end_ : Z)
  : error + list byte :=
  match httpGet w p j u start end_ with
  | inl msg => inl (ErrTransport msg)
  | inr resp =>
      if negb (StatusCode resp =? 206) then inl (ErrStatus (StatusCode resp) u)
      else
        match Body resp with
        | inl msg => inl (ErrTransport msg)
        | inr data => inr data
        end
  end.

(** The retry loop of a chunk's goroutine,
    [for j := 0; j < len(sourceUrls) && err != nil; j++], entered with
    [err != nil]; [rest] is [sourceUrls[j:]].  It gives the GET requests
    sent and, when one succeeded, its URL and the bytes. *)
Fixpoint retryLoop (w : World) (p : nat) (c : chunk) (j : nat) (rest : list string)
  : list event * option (string * list byte) :=
  match rest with
  | [] => ([], None)
  | u :: rest' =>
      if Z.of_nat j =? srcIdxInitAttempt c then retryLoop w p c (S j) rest'
      else
        match fetchChunk w p j u (offset c) (limit c) with
        | inr data => ([EvGet u (offset c) (limit c)], Some (u, data))
        | inl _ =>
            let '(evs, r) := retryLoop w p c (S j) rest' in
            (EvGet u (offset c) (limit c) :: evs, r)
        end
  end.

(** [sourceUrls[i]] for an [int] index. *)
Definition index (sourceUrls : list string) (i : Z) : option string :=
  if i <? 0 then None else sourceUrls !! Z.to_nat i.

(** The fetching part of a chunk's goroutine: the primary attempt, then the
    retry loop.  [None] stands for [ErrFailedChunkDownloadAllSources]. *)
Definition fetchWithFailover (w : World) (sourceUrls : list string) (p : nat) (c : chunk)
  : panic + (list event * option (string * list byte)) :=
  match index sourceUrls (srcIdxInitAttempt c) with
  | None => inl IndexOutOfRange
  | Some u =>
      match fetchChunk w p (Z.to_nat (srcIdxInitAttempt c)) u (offset c) (limit c) with
      | inr data => inr ([EvGet u (offset c) (limit c)], Some (u, data))
      | inl _ =>
          let '(evs, r) := retryLoop w p c 0 sourceUrls in
          inr (EvGet u (offset c) (limit c) :: evs, r)
      end
  end.

(** [WriteAt]: the file grows with zero bytes up to [off] when shorter. *)
Definition writeAt (off : nat) (data : list byte) (content : list byte) : list byte :=
  firstn off (content ++ repeat x00 (off - length content))
    ++ data ++ skipn (off + length data) content.

(** The error of [destFile.WriteAt(data, off)] in the goroutine of the
    [p]-th chunk: [os] refuses a negative offset; otherwise the oracle. *)
Definition writeAtError (w : World) (p : nat) (off : Z) : option error :=
  if off <? 0 then Some (ErrIO "negative offset") else ErrIO <$> fileWriteAt w p.

(** [io.Copy(io.NewOffsetWriter(destFile, offset), bytes.NewReader(chunk))]:
    nothing is written for an empty chunk; a failed write is taken to
    leave the file as it was. *)
Definition copyAt (w : World) (path : string) (p : nat) (off : Z) (data : list byte)
    (d : disk) : list event * option error * disk :=
  match data with
  | [] => ([], None, d)
  | _ :: _ =>
      match writeAtError w p off with
      | Some err => ([EvWriteAt path off data], Some err, d)
      | None => ([EvWriteAt path off data], None,
                 alter (writeAt (Z.to_nat off) data) path d)
      end
  end.

(** The state of the errgroup while its goroutines end one after another. *)
Record group : Type := {
  gEvents : list event;
  gDisk : disk;
  gErr : option error;      (* the first error returned by a goroutine *)
  gPanic : option panic     (* a panic in a goroutine ends the program *)
}.

Definition firstError (first next : option error) : option error :=
  match first with Some _ => first | None => next end.

(** One goroutine of [downloadFileContents] runs to its end. *)
Definition chunkTask (w : World) (sourceUrls : list string) (path : string)
    (g : group) (t : nat * chunk) : group :=
  let '(p, c) := t in
  match gPanic g with
  | Some _ => g
  | None =>
      match fetchWithFailover w sourceUrls p c with
      | inl q =>
          {| gEvents := gEvents g; gDisk := gDisk g; gErr := gErr g; gPanic := Some q |}
      | inr (evs, None) =>
          {| gEvents := gEvents g ++ evs; gDisk := gDisk g;
             gErr := firstError (gErr g) (Some ErrFailedChunkDownloadAllSources);
             gPanic := None |}
      | inr (evs, Some (u, data)) =>
          let '(wevs, werr, d') := copyAt w path p (offset c) data (gDisk g) in
          {| gEvents := gEvents g ++ evs ++ [EvPrintln "chunk downloaded from" u] ++ wevs;
             gDisk := d';
             gErr := firstError (gErr g) werr;
             gPanic := None |}
      end
  end.

(** What a call leaves behind: how it ended, what it did, the files. *)
Record result : Type := {
  outcome : run (option error);
  events : list event;
  files : disk
}.

Definition downloadFileContents (w : World) (fuel : nat) (opts : Options)
    (sourceUrls : list string) (fm : fileMetadata) (path : string) (d : disk)
  : result :=
  match planChunks fuel (Connections opts) (size fm) (Z.of_nat (length sourceUrls)) with
  | Panics q => {| outcome := Panics q; events := []; files := d |}
  | Diverges => {| outcome := Diverges; events := []; files := d |}
  | Returns chunks =>
      let g := fold_left (chunkTask w sourceUrls path)
                 (inCompletionOrder (taskFinish w) chunks)
                 {| gEvents := []; gDisk := d; gErr := None; gPanic := None |} in
      {| outcome := match gPanic g with
                    | Some q => Panics q
                    | None => Returns (gErr g)
                    end;
         events := gEvents g;
         files := gDisk g |}
  end.

(** [b := make([]byte, fileInfo.Size())] after [_, err = file.Read(b)] with
    [err == nil], for a file that holds [content] and is read from its
    start (the writes of the chunks go through [WriteAt], which leaves the
    file offset at 0).  One [Read] delivers at most [len(b)] bytes and may
    deliver fewer; [os.File.Read] reports no error only if it delivered at
    least one byte or the buffer is empty, so the count of the oracle is
    taken into that interval.  [getMD5Hash] drops the count: what was not
    delivered stays zero in the buffer. *)
Definition readOnce (w : World) (content : list byte) : list byte :=
  let n := Nat.min (length content) (Nat.max 1 (fileReadCount w (length content))) in
  firstn n content ++ repeat x00 (length content - n).

(** [getMD5Hash] of helpers.go on the staging file. *)
Definition getMD5Hash (w : World) (path : string) (d : disk)
  : list event * (error + string) :=
  match fileStat w with
  | Some msg => ([EvStat path], inl (ErrIO msg))
  | None =>
      match fileRead w with
      | Some msg => ([EvStat path; EvRead path], inl (ErrIO msg))
      | None => ([EvStat path; EvRead path],
                 inr (hexEncode (MD5.sum (readOnce w (default [] (d !! path))))))
      end
  end.

Definition returns (evs : list event) (d : disk) (err : option error) : result :=
  {| outcome := Returns err; events := evs; files := d |}.

(** [defer ongoingDownloadFile.Close()]: the file is closed when [Download]
    returns or panics, after everything else the call did. *)
Definition deferClose (path : string) (r : result) : result :=
  match outcome r with
  | Diverges => r
  | _ => {| outcome := outcome r; events := events r ++ [EvClose path]; files := files r |}
  end.

(** The ETag check of [Download]: the error it returns, if any. *)
Definition checkETag (w : World) (opts : Options) (fm : fileMetadata)
    (path : string) (d : disk) : list event * option error :=
  if CheckETag opts && (0 <? String.length (eTag fm))%nat then
    match getMD5Hash w path d with
    | (evs, inl err) => (evs, Some err)
    | (evs, inr md5Hash) =>
        (evs, if negb (String.eqb md5Hash (eTag fm)) then Some ErrETagMismatch else None)
    end
  else ([], None).

(** [os.Rename(oldpath, newpath)]; a failed rename is taken to leave the
    files as they were. *)
Definition rename (w : World) (oldpath newpath : string) (d : disk)
  : option error * disk :=
  match osRename w with
  | Some msg => (Some (ErrIO msg), d)
  | None =>
      match d !! oldpath with
      | None => (Some (ErrIO "no such file or directory"), d)
      | Some content => (None, <[newpath := content]> (delete oldpath d))
      end
  end.

Section Service.
(** [sort.Slice] with the comparison of [sourceUrlsSortedByEstLatency]. *)
Variable sortSlice : list sourceFileMetadata -> list sourceFileMetadata.

(** [Download] from the call of [downloadFileContents] on, that is after
    the staging file was created. *)
Definition downloadAndPublish (w : World) (fuel : nat) (opts : Options)
    (srcFileMetas : list sourceFileMetadata) (fm : fileMetadata)
    (staging : string) (d : disk) : result :=
  let r := downloadFileContents w fuel opts
             (sourceUrlsSortedByEstLatency sortSlice srcFileMetas) fm staging d in
  match outcome r with
  | Returns None =>
      match checkETag w opts fm staging (files r) with
      | (evs, Some err) => returns (events r ++ evs) (files r) (Some err)
      | (evs, None) =>
          match rename w staging (DestFilePath opts) (files r) with
          | (Some err, d') =>
              returns (events r ++ evs ++ [EvRename staging (DestFilePath opts)])
                      d' (Some err)
          | (None, d') =>
              returns (events r ++ evs
                         ++ [EvRename staging (DestFilePath opts);
                             EvPrintln "Download complete:" (DestFilePath opts)])
                      d' None
          end
      end
  | _ => r
  end.

Definition prepend (evs : list event) (r : result) : result :=
  {| outcome := outcome r; events := evs ++ events r; files := files r |}.

Definition Download (w : World) (fuel : nat) (opts : Options)
    (sourceUrls : list string) (d : disk) : result :=
  if (length sourceUrls =? 0)%nat then returns [] d (Some ErrNoSourceUrls)
  else
    let '(evs, srcFileMetas, err) := fetchFileMetadataFromSources w sourceUrls in
    match err with
    | Some e => returns evs d (Some e)
    | None =>
        if negb (allSourcesMatchFileMetadata srcFileMetas (CheckETag opts))
        then returns evs d (Some ErrSourcesFileMismatch)
        else
          match srcFileMetas with
          | [] => {| outcome := Panics IndexOutOfRange; events := evs; files := d |}
          | sfm0 :: _ =>
              let staging := (DestFilePath opts ++ suffixOngoingDownload)%string in
              match osCreate w with
              | Some msg => returns (evs ++ [EvCreate staging]) d (Some (ErrIO msg))
              | None =>
                  prepend (evs ++ [EvCreate staging])
                    (deferClose staging
                       (downloadAndPublish w fuel opts srcFileMetas (meta sfm0)
                          staging (<[staging := []]> d)))
              end
          end
    end.
End Service.

(** ** The vocabulary of the properties *)

(** The sizes for which no addition of the loop wraps around. *)
Definition planSafe (connections fsize : Z) : Prop :=
  1 <= connections <= fsize /\ fsize + fsize / connections <= Int64.maxInt.

(** What the [k]-th iteration of a loop started at [off], [i] hands out. *)
Definition chunkAt (fsize chunkSize nUrls off i : Z) (k : nat) (c : chunk) : Prop :=
  chunkIndex c = i + Z.of_nat k /\
  offset c = off + Z.of_nat k * chunkSize /\
  limit c = Z.min (offset c + chunkSize) fsize /\
  srcIdxInitAttempt c = (i + Z.of_nat k) mod nUrls /\
  0 <= offset c < fsize.

(** The attempts of a chunk as the design has them: the sources are tried
    in the order given, up to the first that delivers. *)
Fixpoint tryInOrder (w : World) (p : nat) (off lim : Z) (attempts : list (nat * string))
  : list event * option (string * list byte) :=
  match attempts with
  | [] => ([], None)
  | (j, u) :: rest =>
      match fetchChunk w p j u off lim with
      | inr data => ([EvGet u off lim], Some (u, data))
      | inl _ =>
          let '(evs, r) := tryInOrder w p off lim rest in
          (EvGet u off lim :: evs, r)
      end
  end.

(** The sources other than the one in slot [s], in prioritized order. *)
Definition otherSources (urls : list string) (s : nat) : list (nat * string) :=
  List.filter (fun ju => negb (fst ju =? s)%nat) (imap pair urls).

(** What the goroutines of the chunks do to the outside: GET requests,
    progress lines and writes to the staging file. *)
Definition transferEvent (path : string) (ev : event) : Prop :=
  match ev with
  | EvGet _ _ _ | EvPrintln _ _ => True
  | EvWriteAt p _ _ => p = path
  | _ => False
  end.

(** How the goroutine of a chunk ends: with a panic, or with the error it
    returns to the group. *)
Definition taskOutcome (w : World) (urls : list string) (t : nat * chunk)
  : panic + option error :=
  match fetchWithFailover w urls (fst t) (snd t) with
  | inl q => inl q
  | inr (_, None) => inr (Some ErrFailedChunkDownloadAllSources)
  | inr (_, Some (_, [])) => inr None
  | inr (_, Some (_, _ :: _)) => inr (writeAtError w (fst t) (offset (snd t)))
  end.

Definition taskError (w : World) (urls : list string) (t : nat * chunk) : option error :=
  match taskOutcome w urls t with
  | inr oe => oe
  | inl _ => None
  end.

Definition stagingPath (opts : Options) : string :=
  (DestFilePath opts ++ suffixOngoingDownload)%string.

(** The call got as far as the staging file: there are sources, every
    probe succeeded with descriptors [metas], the descriptors agree and
    the staging file was created. *)
Definition staged (w : World) (opts : Options) (urls : list string)
    (evs : list event) (metas : list sourceFileMetadata) : Prop :=
  urls <> [] /\
  fetchFileMetadataFromSources w urls = (evs, metas, None) /\
  allSourcesMatchFileMetadata metas (CheckETag opts) = true /\
  osCreate w = None.

(** ** Sample worlds

    Cooperating servers for a ten-byte file, used to run the service on
    concrete inputs. *)

Module Sample.

Definition contents : list byte := bytesOfString "0123456789".

Definition headers (ctype etag ranges : string) (name : string) : string :=
  if String.eqb name "Accept-Ranges" then ranges
  else if String.eqb name "Content-Type" then ctype
  else if String.eqb name "ETag" then etag
  else EmptyString.

(** The answer to HEAD for a file of [len] bytes. *)
Definition headOk (len : Z) (ctype etag ranges : string) : Response :=
  {| StatusCode := 200; ContentLength := len;
     Header := headers ctype etag ranges; Body := inr [] |}.

(** The answer to [Range: bytes=first-last]: the bytes of the file from
    [first] to [last], both included, as far as the file goes. *)
Definition partialContent (file : list byte) (first last : Z) : Response :=
  {| StatusCode := 206;
     ContentLength := Z.of_nat (length (firstn (Z.to_nat (last - first + 1))
                                               (skipn (Z.to_nat first) file)));
     Header := fun _ => EmptyString;
     Body := inr (firstn (Z.to_nat (last - first + 1)) (skipn (Z.to_nat first) file)) |}.

(** Every source serves [file]; probes and chunks end in the order in which
    they start; no file-system call fails and the read fills its buffer. *)
Definition serving (file : list byte) (head : string -> Response) : World :=
  {| httpHead := fun _ u => inr (head u);
     probeElapsed := fun _ => 5000000;
     probeFinish := fun k => k;
     httpGet := fun _ _ _ first last => inr (partialContent file first last);
     taskFinish := fun p => p;
     osCreate := None;
     fileWriteAt := fun _ => None;
     fileStat := None;
     fileRead := None;
     fileReadCount := fun len => len;
     osRename := None |}.

Definition world : World :=
  serving contents (fun _ => headOk 10 "text/plain" EmptyString "bytes").

(** The same servers for a file of one byte. *)
Definition tiny : World :=
  serving (bytesOfString "x") (fun _ => headOk 1 "text/plain" EmptyString "bytes").

Definition options (connections : Z) (check : bool) : Options :=
  {| Connections := connections; Timeout := 10; CheckETag := check;
     DestFilePath := "out" |}.

(** The descriptor that the probe of [u] builds in [world]. *)
Definition descriptor (u : string) : sourceFileMetadata :=
  {| meta := {| size := 10; contentType := EmptyString; eTag := EmptyString |};
     url := u; estLatency := 5000000 |}.

(** The descriptor that the probe of [u] builds when the source announces
    the ETag [tag]. *)
Definition tagged (u tag : string) : sourceFileMetadata :=
  {| meta := {| size := 10; contentType := EmptyString; eTag := tag |};
     url := u; estLatency := 5000000 |}.

(** [w] with other answers to the ranged GETs. *)
Definition withGet (get : nat -> nat -> string -> Z -> Z -> string + Response)
    (w : World) : World :=
  {| httpHead := httpHead w; probeElapsed := probeElapsed w;
     probeFinish := probeFinish w; httpGet := get; taskFinish := taskFinish w;
     osCreate := osCreate w; fileWriteAt := fileWriteAt w; fileStat := fileStat w;
     fileRead := fileRead w; fileReadCount := fileReadCount w;
     osRename := osRename w |}.

(** [w] with other results of the writes to the staging file. *)
Definition withWriteAt (writeAt : nat -> option string) (w : World) : World :=
  {| httpHead := httpHead w; probeElapsed := probeElapsed w;
     probeFinish := probeFinish w; httpGet := httpGet w; taskFinish := taskFinish w;
     osCreate := osCreate w; fileWriteAt := writeAt; fileStat := fileStat w;
     fileRead := fileRead w; fileReadCount := fileReadCount w;
     osRename := osRename w |}.

(** [w] with the probes ending in another order. *)
Definition withProbeFinish (finish : nat -> nat) (w : World) : World :=
  {| httpHead := httpHead w; probeElapsed := probeElapsed w;
     probeFinish := finish; httpGet := httpGet w; taskFinish := taskFinish w;
     osCreate := osCreate w; fileWriteAt := fileWriteAt w; fileStat := fileStat w;
     fileRead := fileRead w; fileReadCount := fileReadCount w;
     osRename := osRename w |}.

(** [w] with another result of the rename. *)
Definition withRename (result : option string) (w : World) : World :=
  {| httpHead := httpHead w; probeElapsed := probeElapsed w;
     probeFinish := probeFinish w; httpGet := httpGet w; taskFinish := taskFinish w;
     osCreate := osCreate w; fileWriteAt := fileWriteAt w; fileStat := fileStat w;
     fileRead := fileRead w; fileReadCount := fileReadCount w;
     osRename := result |}.

(** [w] with another number of bytes delivered by the read of the staging
    file. *)
Definition withReadCount (count : nat -> nat) (w : World) : World :=
  {| httpHead := httpHead w; probeElapsed := probeElapsed w;
     probeFinish := probeFinish w; httpGet := httpGet w; taskFinish := taskFinish w;
     osCreate := osCreate w; fileWriteAt := fileWriteAt w; fileStat := fileStat w;
     fileRead := fileRead w; fileReadCount := count; osRename := osRename w |}.

(** Source [a] says [text/plain], every other source [image/png]; the
    length and the bytes are the same. *)
Definition mixedTypes : World :=
  serving contents
    (fun u => headOk 10 (if String.eqb u "a" then "text/plain" else "image/png")
                     EmptyString "bytes").

(** Source [a] announces ten bytes, every other source eleven. *)
Definition mixedSizes : World :=
  serving contents
    (fun u => headOk (if String.eqb u "a" then 10 else 11) "text/plain"
                     EmptyString "bytes").

(** Source [a] serves the file; every other source answers 404. *)
Definition secondMissing : World :=
  serving contents
    (fun u => if String.eqb u "a" then headOk 10 "text/plain" EmptyString "bytes"
              else {| StatusCode := 404; ContentLength := 0;
                      Header := fun _ => EmptyString; Body := inr [] |}).

(** The source answers with [Accept-Ranges: None]. *)
Definition capitalNone : World :=
  serving contents (fun _ => headOk 10 "text/plain" EmptyString "None").

(** The source does not say how long the file is. *)
Definition unknownLength : World :=
  serving contents (fun _ => headOk (-1) "text/plain" EmptyString "bytes").

(** The sources announce the MD5 of another file as their ETag. *)
Definition wrongTag : World :=
  serving contents
    (fun _ => headOk 10 "text/plain" "d41d8cd98f00b204e9800998ecf8427e" "bytes").

(** The sources announce the MD5 of the file as their ETag. *)
Definition rightTag : World :=
  serving contents
    (fun _ => headOk 10 "text/plain" "781e5e245d69b566979b86e28d23f2c7" "bytes").

(** The sources announce the MD5 of the file as their ETag, and the read of
    the staging file delivers four bytes. *)
Definition shortRead : World := withReadCount (fun _ => 4%nat) rightTag.

(** The second probe ends before the first. *)
Definition secondFirst : World := withProbeFinish (fun k => (1 - k)%nat) world.

(** No source delivers the second chunk. *)
Definition secondChunkLost : World :=
  withGet (fun p _ _ first last =>
             if (p =? 1)%nat then inl "timeout"
             else inr (partialContent contents first last)) world.

(** No source delivers the second chunk, and the write of the first chunk
    fails before that. *)
Definition diskFull : World :=
  withWriteAt (fun p => if (p =? 0)%nat then Some "no space left on device" else None)
    secondChunkLost.

End Sample.

(** The byte ranges of the GET requests, first and last byte of each. *)
Definition requestedRanges (evs : list event) : list (Z * Z) :=
  omap (fun ev => match ev with
                  | EvGet _ first last => Some (first, last)
                  | _ => None
                  end) evs.

(** [b] is one of the bytes that [Range: bytes=first-last] asks for. *)
Definition inRangeb (b : Z) (range : Z * Z) : bool :=
  (fst range <=? b) && (b <=? snd range).

(** Two descriptors describe the same file. *)
Definition agree (checkETag : bool) (a b : sourceFileMetadata) : Prop :=
  size (meta a) = size (meta b) /\
  contentType (meta a) = contentType (meta b) /\
  (checkETag = true -> eTag (meta a) = eTag (meta b)).

(** [x] comes before [y] in [l]. *)
Definition precedesIn {A : Type} (x y : A) (l : list A) : Prop :=
  exists i j, (i < j)%nat /\ l !! i = Some x /\ l !! j = Some y.

(** Sources of equal estimated latency keep the order of the input URLs. *)
Definition tiesKeepInputOrder (sourceUrls : list string)
    (metas : list sourceFileMetadata) (prioritized : list string) : Prop :=
  forall a b, a ∈ metas -> b ∈ metas -> estLatency a = estLatency b ->
              precedesIn (url a) (url b) sourceUrls ->
              precedesIn (url a) (url b) prioritized.

(** An event that leaves every file but the staging file alone and is
    neither the rename nor the close. *)
Definition stagingOnly (staging : string) (ev : event) : Prop :=
  match ev with
  | EvHead _ | EvGet _ _ _ | EvPrintln _ _ => True
  | EvCreate p | EvWriteAt p _ _ | EvStat p | EvRead p => p = staging
  | EvRename _ _ | EvClose _ => False
  end.

(** [ev] creates, changes or removes the file at [path]. *)
Definition touches (path : string) (ev : event) : Prop :=
  match ev with
  | EvCreate p | EvWriteAt p _ _ => p = path
  | EvRename oldpath newpath => oldpath = path \/ newpath = path
  | _ => False
  end.

Definition isClose (ev : event) : bool :=
  match ev with EvClose _ => true | _ => false end.

Definition isRename (ev : event) : bool :=
  match ev with EvRename _ _ => true | _ => false end.

Definition isRead (ev : event) : bool :=
  match ev with EvRead _ => true | _ => false end.

(** Some event of the first kind comes before some event of the second. *)
Fixpoint happensBefore (isA isB : event -> bool) (evs : list event) : bool :=
  match evs with
  | [] => false
  | ev :: rest => (isA ev && existsb isB rest) || happensBefore isA isB rest
  end.

(** The bytes of [content] that [Range: bytes=first-last] stands for:
    from [first] to [last], both included, as far as [content] goes. *)
Definition byteRange (content : list byte) (first last : Z) : list byte :=
  firstn (Z.to_nat (last - first + 1)) (skipn (Z.to_nat first) content).

(** The sources serve the file [content]: whenever a ranged GET is answered
    with status 206 and the body arrives, the body is the byte range asked
    for.  (A source may still fail, or answer with another status.) *)
Definition servesFile (w : World) (content : list byte) : Prop :=
  forall p j u first last resp data,
    httpGet w p j u first last = inr resp ->
    StatusCode resp = 206 -> Body resp = inr data ->
    data = byteRange content first last.

(** A write event carries the body of an answer with status 206 to a GET
    for a range that starts at the offset of the write. *)
Definition writesPartialContent (w : World) (ev : event) : Prop :=
  match ev with
  | EvWriteAt _ off data =>
      exists p j u last resp,
        httpGet w p j u off last = inr resp /\
        StatusCode resp = 206 /\ Body resp = inr data
  | _ => True
  end.

(** The goroutine of the chunk [t] fetched [data] and wrote it to the
    staging file. *)
Definition taskWrote (w : World) (urls : list string) (t : nat * chunk)
    (data : list byte) : Prop :=
  (exists evs u, fetchWithFailover w urls (fst t) (snd t) = inr (evs, Some (u, data))) /\
  data <> [] /\ writeAtError w (fst t) (offset (snd t)) = None.

(** An event other than a write. *)
Definition notWrite (ev : event) : Prop :=
  match ev with
  | EvWriteAt _ _ _ => False
  | _ => True
  end.

(** The first and the last character of a string. *)
Definition firstChar (s : string) : option ascii :=
  match s with
  | EmptyString => None
  | String a _ => Some a
  end.

Fixpoint lastChar (s : string) : option ascii :=
  match s with
  | EmptyString => None
  | String a EmptyString => Some a
  | String _ s' => lastChar s'
  end.

(** ** The prober of the later revision of service.go

    The later revision of [fetchFileMetadataFromSources] differs from the
    one above in the composite literal only: it also sets [contentType] to
    [resp.Header.Get("Content-Type")]. *)

Module Revised.

Definition probe (w : World) (k : nat) (u : string) : error + sourceFileMetadata :=
  match httpHead w k u with
  | inl msg => inl (ErrTransport msg)
  | inr resp =>
      if negb (StatusCode resp =? 200) then inl (ErrStatus (StatusCode resp) u)
      else if ContentLength resp =? -1 then inl ErrUnknownContentLength
      else
        let acceptRanges := Header resp "Accept-Ranges" in
        if (String.length acceptRanges =? 0)%nat || String.eqb acceptRanges "none"
        then inl ErrPartialRequestUnsupported
        else inr {| url := u;
                    estLatency := probeElapsed w k;
                    meta := {| size := ContentLength resp;
                               contentType := Header resp "Content-Type";
                               eTag := stringsTrim (Header resp "ETag") doubleQuote |} |}
  end.

Definition fetchFileMetadataFromSources (w : World) (sourceUrls : list string)
  : list event * list sourceFileMetadata * option error :=
  let ended :=
    inCompletionOrder (probeFinish w) (imap (fun k u => (u, probe w k u)) sourceUrls) in
  (map (fun r => EvHead (fst (snd r))) ended,
   omap sentDescriptor ended,
   head (omap returnedError ended)).

End Revised.

(** * Properties *)

(** ** Machine integers *)

Lemma wrap64_id z : Int64.inRange z -> Int64.wrap64 z = z.
Proof.
  unfold Int64.inRange, Int64.wrap64, Int64.minInt, Int64.maxInt, Int64.half,
    Int64.modulus.
  intros H. rewrite Z.mod_small; lia.
Qed.

Lemma ofUint_zero u : 0 <= u < Int64.modulus -> Int64.ofUint u = 0 -> u = 0.
Proof.
  unfold Int64.ofUint, Int64.wrap64, Int64.half, Int64.modulus. intros Hu H.
  destruct (Z_lt_le_dec u (2 ^ 63)) as [Hlt | Hge].
  - rewrite Z.mod_small in H; lia.
  - replace (u + 2 ^ 63) with ((u - 2 ^ 63) + 1 * 2 ^ 64) in H by lia.
    rewrite Z_mod_plus_full in H. rewrite Z.mod_small in H; lia.
Qed.

(** ** The chunk loop *)

Lemma add_exact a b : Int64.inRange (a + b) -> Int64.add a b = a + b.
Proof. apply wrap64_id. Qed.

Lemma maxInt_value : Int64.maxInt = 9223372036854775807.
Proof. reflexivity. Qed.

Lemma minInt_value : Int64.minInt = -9223372036854775808.
Proof. reflexivity. Qed.

Lemma min_spec a b : min a b = Z.min a b.
Proof. unfold min. destruct (Z.ltb_spec a b); lia. Qed.

(** With a chunk size of zero the offset never moves: the loop does not
    end, whatever the fuel. *)
Lemma chunkLoop_zero_chunkSize fuel fsize nUrls i :
  0 < fsize -> nUrls <> 0 -> chunkLoop fuel fsize 0 nUrls 0 i = Diverges.
Proof.
  intros Hs Hm. revert i. induction fuel as [| fuel IH]; intros i; simpl.
  - destruct (Z.ltb_spec 0 fsize); [reflexivity | lia].
  - destruct (Z.ltb_spec 0 fsize); [| lia].
    destruct (Z.eqb_spec nUrls 0); [contradiction |].
    change (Int64.add 0 0) with 0. now rewrite IH.
Qed.

Lemma planChunks_small_file fuel connections fsize nUrls :
  1 <= fsize < connections -> connections <= Int64.maxInt -> nUrls <> 0 ->
  planChunks fuel connections fsize nUrls = Diverges.
Proof.
  intros Hs Hn Hm. unfold planChunks, Int64.ofUint, Int64.quo.
  rewrite maxInt_value in Hn.
  rewrite (wrap64_id connections)
    by (unfold Int64.inRange; rewrite maxInt_value, minInt_value; lia).
  destruct (Z.eqb_spec connections 0); [lia |].
  rewrite Z.quot_small by lia.
  apply chunkLoop_zero_chunkSize; lia.
Qed.

Lemma chunkLoop_safe fuel : forall fsize chunkSize nUrls off i,
  1 <= chunkSize -> 0 <= off -> fsize + chunkSize <= Int64.maxInt ->
  0 <= i <= off -> 0 < nUrls ->
  (Z.to_nat (fsize - off) <= fuel)%nat ->
  exists cs, chunkLoop fuel fsize chunkSize nUrls off i = Returns cs /\
             forall k c, cs !! k = Some c -> chunkAt fsize chunkSize nUrls off i k c.
Proof.
  induction fuel as [| fuel IH]; intros fsize chunkSize nUrls off i Hc Hoff Hmax Hi Hm Hfuel.
  - simpl. destruct (Z.ltb_spec off fsize); [lia |].
    exists []. split; [reflexivity |]. intros k c Hk. destruct k; discriminate.
  - simpl. destruct (Z.ltb_spec off fsize) as [Hlt | Hge].
    + destruct (Z.eqb_spec nUrls 0); [lia |].
      rewrite maxInt_value in Hmax.
      assert (Hadd : Int64.add off chunkSize = off + chunkSize).
      { apply add_exact. unfold Int64.inRange. rewrite maxInt_value, minInt_value. lia. }
      assert (Hinc : Int64.add i 1 = i + 1).
      { apply add_exact. unfold Int64.inRange. rewrite maxInt_value, minInt_value. lia. }
      rewrite Hadd, Hinc.
      destruct (IH fsize chunkSize nUrls (off + chunkSize) (i + 1)) as (cs & Hcs & Hall);
        try rewrite maxInt_value; try lia.
      rewrite Hcs. eexists. split; [reflexivity |].
      intros [| k] c Hk; simpl in Hk.
      * injection Hk as <-. unfold chunkAt; simpl.
        rewrite min_spec, Z.add_0_r. unfold Int64.rem.
        rewrite Z.rem_mod_nonneg by lia. repeat split; lia.
      * specialize (Hall k c Hk). unfold chunkAt in *.
        destruct Hall as (H1 & H2 & H3 & H4 & H5).
        replace (i + Z.of_nat (S k)) with (i + 1 + Z.of_nat k) by lia.
        repeat split; try assumption; try lia.
    + exists []. split; [reflexivity |]. intros k c Hk. destruct k; discriminate.
Qed.

Lemma planChunks_safe fuel connections fsize nUrls :
  planSafe connections fsize -> 0 < nUrls -> (Z.to_nat fsize <= fuel)%nat ->
  exists cs, planChunks fuel connections fsize nUrls = Returns cs /\
             forall k c, cs !! k = Some c ->
                         chunkAt fsize (fsize / connections) nUrls 0 0 k c.
Proof.
  intros [Hn Hmax] Hm Hfuel. unfold planChunks, Int64.ofUint, Int64.quo.
  assert (Hq : 1 <= fsize / connections) by (apply Z.div_le_lower_bound; lia).
  assert (Hq' : fsize / connections <= fsize)
    by (apply Z.div_le_upper_bound; nia).
  rewrite maxInt_value in Hmax.
  rewrite (wrap64_id connections)
    by (unfold Int64.inRange; rewrite maxInt_value, minInt_value; lia).
  destruct (Z.eqb_spec connections 0); [lia |].
  rewrite Z.quot_div_nonneg by lia.
  rewrite (wrap64_id (fsize / connections))
    by (unfold Int64.inRange; rewrite maxInt_value, minInt_value; lia).
  apply chunkLoop_safe; try rewrite maxInt_value; lia.
Qed.

(** ** Insertion sort *)

Section InsertionSortFacts.
Context {A : Type} (less : A -> A -> bool).

Lemma moveLeft_perm x acc : Permutation (moveLeft less x acc) (x :: acc).
Proof.
  induction acc as [| y rest IH]; simpl; [reflexivity |].
  destruct (less x y); [| reflexivity].
  rewrite IH. apply perm_swap.
Qed.

Lemma fold_moveLeft_perm l : forall acc,
  Permutation (fold_left (fun acc x => moveLeft less x acc) l acc) (l ++ acc).
Proof.
  induction l as [| x l IH]; intros acc; simpl; [reflexivity |].
  rewrite IH, moveLeft_perm. symmetry. apply Permutation_middle.
Qed.

Lemma insertionSort_perm l : Permutation (insertionSort less l) l.
Proof.
  unfold insertionSort. rewrite <- Permutation_rev, fold_moveLeft_perm.
  now rewrite app_nil_r.
Qed.

Lemma insertionSort_elem x l : x ∈ insertionSort less l <-> x ∈ l.
Proof. now rewrite insertionSort_perm. Qed.

Lemma insertionSort_length l : length (insertionSort less l) = length l.
Proof. apply Permutation_length, insertionSort_perm. Qed.
End InsertionSortFacts.

Section InsertionSortByKey.
Context {A : Type} (key : A -> Z).

Let less (a b : A) : bool := key a <? key b.
Let descending : list A -> Prop := StronglySorted (fun a b => key b <= key a).

Lemma moveLeft_descending x acc :
  descending acc -> descending (moveLeft less x acc).
Proof.
  unfold descending.
  induction acc as [| y rest IH]; intros Hacc; simpl.
  - repeat constructor.
  - apply StronglySorted_cons in Hacc as [Hy Hrest]. unfold less at 1.
    destruct (Z.ltb_spec (key x) (key y)) as [Hlt | Hge].
    + constructor; [now apply IH |].
      rewrite (moveLeft_perm less x rest). constructor; [lia | assumption].
    + constructor; [now constructor |].
      constructor; [assumption |].
      eapply Forall_impl; [exact Hy |]. simpl. intros b Hb. lia.
Qed.

Lemma fold_moveLeft_descending l : forall acc,
  descending acc ->
  descending (fold_left (fun acc x => moveLeft less x acc) l acc).
Proof.
  induction l as [| x l IH]; intros acc Hacc; simpl; [assumption |].
  apply IH, moveLeft_descending, Hacc.
Qed.

Lemma descending_rev l :
  descending l -> StronglySorted (fun a b => key a <= key b) (rev l).
Proof.
  unfold descending.
  induction l as [| x l IH]; intros Hl; simpl; [constructor |].
  apply StronglySorted_cons in Hl as [Hx Hl].
  apply StronglySorted_app. split; [| split].
  - intros a b Ha Hb. apply list_elem_of_singleton in Hb as ->.
    rewrite Forall_forall in Hx. apply Hx.
    apply list_elem_of_In. apply list_elem_of_In in Ha.
    now apply in_rev.
  - now apply IH.
  - repeat constructor.
Qed.

Lemma insertionSort_sorted l :
  StronglySorted (fun a b => key a <= key b) (insertionSort less l).
Proof.
  unfold insertionSort. apply descending_rev, fold_moveLeft_descending.
  constructor.
Qed.
End InsertionSortByKey.

Lemma StronglySorted_weaken {A : Type} (R1 R2 : A -> A -> Prop) l :
  (forall a b, R1 a b -> R2 a b) -> StronglySorted R1 l -> StronglySorted R2 l.
Proof.
  intros HR. induction 1 as [| a l Hl IH Ha]; constructor; [assumption |].
  eapply Forall_impl; [exact Ha | auto].
Qed.

(** The insertion sort keeps what [sort.Slice] promises. *)
Lemma sortSliceSmall_contract : sortSliceContract sortSliceSmall.
Proof.
  intros l. split.
  - apply insertionSort_perm.
  - unfold sortSliceSmall.
    eapply StronglySorted_weaken; [| apply (insertionSort_sorted estLatency)].
    intros a b Hab. unfold lessEstLatency. apply Z.ltb_ge. exact Hab.
Qed.

(** ** The source prober *)

Lemma probe_descriptor w k u sfm :
  probe w k u = inr sfm ->
  url sfm = u /\ estLatency sfm = probeElapsed w k /\
  contentType (meta sfm) = EmptyString /\
  exists resp, httpHead w k u = inr resp /\
               size (meta sfm) = ContentLength resp /\
               eTag (meta sfm) = stringsTrim (Header resp "ETag") doubleQuote.
Proof.
  unfold probe. destruct (httpHead w k u) as [msg | resp]; [discriminate |].
  destruct (negb (StatusCode resp =? 200)); [discriminate |].
  destruct (ContentLength resp =? -1); [discriminate |].
  destruct (_ || _); [discriminate |].
  intros [= <-]. simpl. repeat split. exists resp. repeat split.
Qed.

Lemma imap_tasks_urls {B : Type} (f : nat -> string -> B) (g : nat -> nat) urls :
  map (fun r => fst (snd r))
      (imap (fun n t => (g n, t)) (imap (fun k u => (u, f k u)) urls)) = urls.
Proof.
  revert f g. induction urls as [| u urls IH]; intros f g; simpl; [reflexivity |].
  f_equal. exact (IH (fun k => f (S k)) (fun n => g (S n))).
Qed.

Lemma probes_ended_elem w urls r :
  r ∈ inCompletionOrder (probeFinish w) (imap (fun k u => (u, probe w k u)) urls) ->
  exists k u, urls !! k = Some u /\ r = (k, (u, probe w k u)).
Proof.
  unfold inCompletionOrder. rewrite insertionSort_elem.
  intros Hr. apply elem_of_lookup_imap in Hr as (k & t & -> & Ht).
  apply list_lookup_imap_Some in Ht as (u & Hu & ->).
  now exists k, u.
Qed.

Lemma head_omap_None {A B : Type} (f : A -> option B) l :
  head (omap f l) = None -> forall x, x ∈ l -> f x = None.
Proof.
  induction l as [| a l IH]; intros Hh x Hx; [by apply elem_of_nil in Hx |].
  simpl in Hh. destruct (f a) eqn:Hfa; [discriminate |].
  apply elem_of_cons in Hx as [-> | Hx]; [assumption | now apply IH].
Qed.

Lemma sent_urls (ended : list (nat * (string * (error + sourceFileMetadata)))) :
  (forall r, r ∈ ended -> exists sfm, snd (snd r) = inr sfm /\ url sfm = fst (snd r)) ->
  map url (omap sentDescriptor ended) = map (fun r => fst (snd r)) ended.
Proof.
  induction ended as [| r ended IH]; intros Hall; [reflexivity |].
  destruct (Hall r) as (sfm & Hsfm & Hurl); [left |].
  simpl. unfold sentDescriptor at 1. rewrite Hsfm. simpl. rewrite Hurl. f_equal.
  apply IH. intros r' Hr'. apply Hall. now right.
Qed.

(** When no probe fails there is one descriptor per source URL, each built
    by the probe of its URL. *)
Lemma fetchFileMetadataFromSources_ok w urls evs metas :
  fetchFileMetadataFromSources w urls = (evs, metas, None) ->
  Permutation (map url metas) urls /\
  forall sfm, sfm ∈ metas ->
              exists k, urls !! k = Some (url sfm) /\ probe w k (url sfm) = inr sfm.
Proof.
  unfold fetchFileMetadataFromSources.
  set (ended := inCompletionOrder _ _). intros [= _ <- Herr].
  assert (Hall : forall r, r ∈ ended ->
            exists k u sfm, urls !! k = Some u /\ probe w k u = inr sfm /\
                            r = (k, (u, inr sfm)) /\ url sfm = u).
  { intros r Hr. pose proof (head_omap_None _ _ Herr r Hr) as Hnone.
    apply probes_ended_elem in Hr as (k & u & Hu & ->).
    unfold returnedError in Hnone. simpl in Hnone.
    destruct (probe w k u) as [e | sfm] eqn:Hp; [discriminate |].
    exists k, u, sfm. repeat split; try assumption.
    now apply probe_descriptor in Hp as [? _]. }
  split.
  - rewrite sent_urls.
    + unfold ended, inCompletionOrder.
      rewrite (Permutation_map _ (insertionSort_perm _ _)).
      now rewrite (imap_tasks_urls (probe w) (fun n => n)).
    + intros r Hr. destruct (Hall r Hr) as (k & u & sfm & _ & _ & -> & Hurl).
      now exists sfm.
  - intros sfm Hsfm. apply list_elem_of_omap in Hsfm as (r & Hr & Hsent).
    destruct (Hall r Hr) as (k & u & sfm' & Hu & Hp & -> & Hurl).
    unfold sentDescriptor in Hsent. simpl in Hsent. injection Hsent as <-.
    exists k. now rewrite Hurl.
Qed.

(** ** Failover within one chunk *)

Lemma retryLoop_tryInOrder w p c s : forall rest j,
  srcIdxInitAttempt c = Z.of_nat s ->
  retryLoop w p c j rest =
  tryInOrder w p (offset c) (limit c)
    (List.filter (fun ju => negb (fst ju =? s)%nat) (imap (fun n u => (j + n, u)%nat) rest)).
Proof.
  induction rest as [| u rest IH]; intros j Hs; [reflexivity |].
  assert (Himap : imap ((fun n u => (j + n, u)%nat) ∘ S) rest
                  = imap (fun n u => (S j + n, u)%nat) rest).
  { apply imap_ext. intros n x _. simpl. f_equal. lia. }
  cbn [retryLoop imap List.filter fst]. rewrite Himap, Nat.add_0_r, Hs.
  destruct (Z.eqb_spec (Z.of_nat j) (Z.of_nat s)) as [Heq | Hne].
  - apply Nat2Z.inj in Heq. subst j. rewrite Nat.eqb_refl. simpl.
    now apply IH.
  - destruct (Nat.eqb_spec j s) as [-> | _]; [contradiction |].
    cbn [negb tryInOrder]. now rewrite <- (IH (S j) Hs).
Qed.

Lemma index_Some urls i u :
  index urls i = Some u -> 0 <= i /\ urls !! Z.to_nat i = Some u.
Proof.
  unfold index. destruct (Z.ltb_spec i 0) as [Hneg | Hnn]; [discriminate |].
  intros Hu. split; [lia | exact Hu].
Qed.

(** The goroutine tries the primary source, then the other sources in
    prioritized order, and stops at the first that delivers. *)
Lemma fetchWithFailover_order w urls p c u0 :
  index urls (srcIdxInitAttempt c) = Some u0 ->
  fetchWithFailover w urls p c =
  inr (tryInOrder w p (offset c) (limit c)
         ((Z.to_nat (srcIdxInitAttempt c), u0)
            :: otherSources urls (Z.to_nat (srcIdxInitAttempt c)))).
Proof.
  intros Hidx. unfold fetchWithFailover. rewrite Hidx.
  apply index_Some in Hidx as [Hnn _]. simpl.
  destruct (fetchChunk w p _ u0 _ _) as [err | data]; [| reflexivity].
  rewrite (retryLoop_tryInOrder w p c (Z.to_nat (srcIdxInitAttempt c)))
    by (symmetry; apply Z2Nat.id, Hnn).
  unfold otherSources.
  change (imap (fun n u => ((0 + n)%nat, u)) urls) with (imap pair urls).
  now destruct (tryInOrder _ _ _ _ _) as [evs r].
Qed.

Lemma tryInOrder_exhausted w p off lim attempts :
  (forall j u, (j, u) ∈ attempts -> exists err, fetchChunk w p j u off lim = inl err) ->
  tryInOrder w p off lim attempts = (map (fun ju => EvGet (snd ju) off lim) attempts, None).
Proof.
  induction attempts as [| [j u] rest IH]; intros Hall; [reflexivity |].
  simpl. destruct (Hall j u) as [err ->]; [left |].
  rewrite IH; [reflexivity |]. intros j' u' Hin. apply Hall. now right.
Qed.

Lemma tryInOrder_events w p off lim attempts :
  exists n, fst (tryInOrder w p off lim attempts)
            = map (fun ju => EvGet (snd ju) off lim) (firstn n attempts).
Proof.
  induction attempts as [| [j u] rest [n IH]]; [exists 0%nat; reflexivity |].
  simpl. destruct (fetchChunk w p j u off lim) as [err | data].
  - destruct (tryInOrder w p off lim rest) as [evs r]. simpl in *.
    exists (S n). simpl. now rewrite IH.
  - exists 1%nat. reflexivity.
Qed.

(** ** The goroutines of downloadFileContents *)

Lemma fold_left_invariant {A B : Type} (P : A -> Prop) (f : A -> B -> A) l :
  (forall a b, P a -> P (f a b)) -> forall a, P a -> P (fold_left f l a).
Proof.
  intros Hstep. induction l as [| b l IH]; intros a Ha; simpl; [assumption |].
  apply IH, Hstep, Ha.
Qed.

Lemma retryLoop_events w p c path : forall rest j,
  Forall (transferEvent path) (fst (retryLoop w p c j rest)).
Proof.
  induction rest as [| u rest IH]; intros j; simpl; [constructor |].
  destruct (Z.of_nat j =? srcIdxInitAttempt c); [apply IH |].
  destruct (fetchChunk w p j u (offset c) (limit c)) as [err | data].
  - specialize (IH (S j)). destruct (retryLoop w p c (S j) rest) as [evs r].
    simpl in *. constructor; [exact I | assumption].
  - simpl. repeat constructor.
Qed.

Lemma fetchWithFailover_events w urls p c path evs r :
  fetchWithFailover w urls p c = inr (evs, r) -> Forall (transferEvent path) evs.
Proof.
  unfold fetchWithFailover. destruct (index urls _) as [u |]; [| discriminate].
  destruct (fetchChunk w p _ u _ _) as [err | data].
  - pose proof (retryLoop_events w p c path urls 0%nat) as Hev.
    destruct (retryLoop w p c 0 urls) as [evs' r']. simpl in Hev.
    intros [= <- <-]. constructor; [exact I | assumption].
  - intros [= <- <-]. repeat constructor.
Qed.

Lemma copyAt_spec w path p off data d :
  exists evs err d', copyAt w path p off data d = (evs, err, d') /\
    Forall (transferEvent path) evs /\
    (forall q, q <> path -> d' !! q = d !! q) /\
    (is_Some (d !! path) -> is_Some (d' !! path)) /\
    err = match data with [] => None | _ :: _ => writeAtError w p off end.
Proof.
  unfold copyAt. destruct data as [| b data].
  - exists [], None, d. repeat split; auto.
  - destruct (writeAtError w p off) as [err |].
    + eexists _, _, _. split; [reflexivity |]. repeat split; auto.
      repeat constructor.
    + eexists _, _, _. split; [reflexivity |]. repeat split.
      * repeat constructor.
      * intros q Hq. now apply lookup_alter_ne.
      * intros [x Hx]. rewrite lookup_alter_eq, Hx. now eexists.
Qed.

Section Group.
Variables (w : World) (urls : list string) (path : string).

Lemma chunkTask_events g t :
  Forall (transferEvent path) (gEvents g) ->
  Forall (transferEvent path) (gEvents (chunkTask w urls path g t)).
Proof.
  intros Hg. destruct t as [p c]. unfold chunkTask.
  destruct (gPanic g); [assumption |].
  destruct (fetchWithFailover w urls p c) as [q | [evs [[u data] |]]] eqn:Hf;
    simpl; try assumption.
  - apply (fetchWithFailover_events _ _ _ _ path) in Hf.
    destruct (copyAt_spec w path p (offset c) data (gDisk g))
      as (wevs & werr & d' & -> & Hw & _).
    simpl. rewrite !Forall_app. repeat split; try assumption.
    constructor; [exact I | assumption].
  - apply (fetchWithFailover_events _ _ _ _ path) in Hf.
    rewrite Forall_app. now split.
Qed.

Lemma chunkTask_files g t :
  (forall q, q <> path -> gDisk (chunkTask w urls path g t) !! q = gDisk g !! q) /\
  (is_Some (gDisk g !! path) -> is_Some (gDisk (chunkTask w urls path g t) !! path)).
Proof.
  destruct t as [p c]. unfold chunkTask.
  destruct (gPanic g); [auto |].
  destruct (fetchWithFailover w urls p c) as [q | [evs [[u data] |]]];
    simpl; auto.
  destruct (copyAt_spec w path p (offset c) data (gDisk g))
    as (wevs & werr & d' & -> & _ & Hother & Hsame & _).
  simpl. auto.
Qed.

Lemma chunkTask_outcome g t :
  gPanic g = None ->
  gPanic (chunkTask w urls path g t)
    = match taskOutcome w urls t with inl q => Some q | inr _ => None end /\
  gErr (chunkTask w urls path g t) = firstError (gErr g) (taskError w urls t).
Proof.
  intros Hg. destruct t as [p c]. unfold chunkTask, taskError, taskOutcome.
  rewrite Hg. simpl.
  destruct (fetchWithFailover w urls p c) as [q | [evs [[u data] |]]]; simpl.
  - split; [reflexivity |]. now destruct (gErr g).
  - destruct (copyAt_spec w path p (offset c) data (gDisk g))
      as (wevs & werr & d' & -> & _ & _ & _ & ->).
    simpl. now destruct data.
  - auto.
Qed.

(** While no goroutine panics, the group's error is the first error in
    completion order. *)
Lemma group_first_error ts : forall g,
  (forall t, t ∈ ts -> exists oe, taskOutcome w urls t = inr oe) ->
  gPanic g = None ->
  gPanic (fold_left (chunkTask w urls path) ts g) = None /\
  gErr (fold_left (chunkTask w urls path) ts g)
    = firstError (gErr g) (head (omap (taskError w urls) ts)).
Proof.
  induction ts as [| t ts IH]; intros g Hall Hg; simpl.
  - split; [assumption |]. now destruct (gErr g).
  - destruct (chunkTask_outcome g t Hg) as [Hp He].
    destruct (Hall t) as [oe Hoe]; [left |]. rewrite Hoe in Hp.
    destruct (IH (chunkTask w urls path g t)) as [Hp' He'];
      [intros t' Ht'; apply Hall; now right | assumption |].
    split; [assumption |]. rewrite He', He.
    destruct (gErr g); [reflexivity |]. simpl.
    now destruct (taskError w urls t).
Qed.
End Group.

Lemma head_omap_Some {A B : Type} (f : A -> option B) l x y :
  x ∈ l -> f x = Some y ->
  exists x' y', head (omap f l) = Some y' /\ x' ∈ l /\ f x' = Some y'.
Proof.
  induction l as [| a l IH]; intros Hx Hfx; [by apply elem_of_nil in Hx |].
  simpl. destruct (f a) as [b |] eqn:Hfa.
  - exists a, b. repeat split; [left | assumption].
  - apply elem_of_cons in Hx as [-> | Hx]; [congruence |].
    destruct (IH Hx Hfx) as (x' & y' & Hh & Hin & Hf').
    exists x', y'. repeat split; [assumption | now right | assumption].
Qed.

Lemma tasks_elem {A : Type} finish (l : list A) (t : nat * A) :
  t ∈ inCompletionOrder finish l <-> l !! fst t = Some (snd t).
Proof.
  unfold inCompletionOrder. rewrite insertionSort_elem, elem_of_lookup_imap.
  destruct t as [p c]. simpl. split.
  - intros (i & y & [= -> ->] & Hl). exact Hl.
  - intros Hl. now exists p, c.
Qed.

(** ** downloadFileContents and Download as wholes *)

Lemma length_append (s t : string) :
  String.length (s ++ t) = (String.length s + String.length t)%nat.
Proof. induction s as [| a s IH]; simpl; [reflexivity | now rewrite IH]. Qed.

(** The staging file is never the destination file. *)
Lemma stagingPath_fresh opts : stagingPath opts <> DestFilePath opts.
Proof.
  unfold stagingPath. intros Heq. apply (f_equal String.length) in Heq.
  rewrite length_append in Heq. simpl in Heq. lia.
Qed.

(** [downloadFileContents] sends GET requests, prints progress and writes
    to the staging file; it leaves every other file alone. *)
Lemma downloadFileContents_frame w fuel opts urls fm path d :
  Forall (transferEvent path) (events (downloadFileContents w fuel opts urls fm path d)) /\
  (forall q, q <> path ->
             files (downloadFileContents w fuel opts urls fm path d) !! q = d !! q) /\
  (is_Some (d !! path) ->
   is_Some (files (downloadFileContents w fuel opts urls fm path d) !! path)).
Proof.
  unfold downloadFileContents.
  destruct (planChunks _ _ _ _) as [chunks | q |]; simpl; auto.
  set (P := fun g : group =>
              Forall (transferEvent path) (gEvents g) /\
              (forall q, q <> path -> gDisk g !! q = d !! q) /\
              (is_Some (d !! path) -> is_Some (gDisk g !! path))).
  apply (fold_left_invariant P (chunkTask w urls path)).
  - intros g t (Hev & Hother & Hsame).
    destruct (chunkTask_files w urls path g t) as [Hother' Hsame'].
    repeat split.
    + now apply chunkTask_events.
    + intros q Hq. rewrite Hother'; auto.
    + auto.
  - repeat split; simpl; auto.
Qed.

Lemma staged_first w opts urls evs metas :
  staged w opts urls evs metas -> exists sfm0 rest, metas = sfm0 :: rest.
Proof.
  intros (Hne & Hfetch & _). destruct metas as [| sfm0 rest]; [| eauto].
  apply fetchFileMetadataFromSources_ok in Hfetch as [Hperm _].
  simpl in Hperm. apply Permutation_nil in Hperm. contradiction.
Qed.

Lemma Download_staged sortSlice w fuel opts urls d evs sfm0 rest :
  staged w opts urls evs (sfm0 :: rest) ->
  Download sortSlice w fuel opts urls d =
  prepend (evs ++ [EvCreate (stagingPath opts)])
    (deferClose (stagingPath opts)
       (downloadAndPublish sortSlice w fuel opts (sfm0 :: rest) (meta sfm0)
          (stagingPath opts) (<[stagingPath opts := []]> d))).
Proof.
  intros (Hne & Hfetch & Hmatch & Hcreate). unfold Download.
  destruct urls as [| u urls]; [contradiction |].
  change (length (u :: urls) =? 0)%nat with false. cbv iota.
  rewrite Hfetch, Hmatch, Hcreate. reflexivity.
Qed.

(** Every way in which [Download] can end. *)
Lemma Download_cases sortSlice w fuel opts urls d :
  let r := Download sortSlice w fuel opts urls d in
  (urls = [] /\ r = returns [] d (Some ErrNoSourceUrls)) \/
  (exists evs metas e,
      fetchFileMetadataFromSources w urls = (evs, metas, Some e) /\
      r = returns evs d (Some e)) \/
  (exists evs metas,
      fetchFileMetadataFromSources w urls = (evs, metas, None) /\
      allSourcesMatchFileMetadata metas (CheckETag opts) = false /\
      r = returns evs d (Some ErrSourcesFileMismatch)) \/
  (exists evs metas msg,
      fetchFileMetadataFromSources w urls = (evs, metas, None) /\
      allSourcesMatchFileMetadata metas (CheckETag opts) = true /\
      osCreate w = Some msg /\
      r = returns (evs ++ [EvCreate (stagingPath opts)]) d (Some (ErrIO msg))) \/
  (exists evs sfm0 rest,
      staged w opts urls evs (sfm0 :: rest) /\
      r = prepend (evs ++ [EvCreate (stagingPath opts)])
            (deferClose (stagingPath opts)
               (downloadAndPublish sortSlice w fuel opts (sfm0 :: rest) (meta sfm0)
                  (stagingPath opts) (<[stagingPath opts := []]> d)))).
Proof.
  intros r. destruct urls as [| u urls]; [left; split; reflexivity |].
  right.
  destruct (fetchFileMetadataFromSources w (u :: urls)) as [[evs metas] [e |]] eqn:Hfetch.
  { left. exists evs, metas, e. split; [reflexivity |].
    subst r. unfold Download. now rewrite Hfetch. }
  right.
  destruct (allSourcesMatchFileMetadata metas (CheckETag opts)) eqn:Hmatch.
  2:{ left. exists evs, metas. do 2 (split; [first [reflexivity | assumption] |]).
      subst r. unfold Download. now rewrite Hfetch, Hmatch. }
  right.
  destruct (osCreate w) as [msg |] eqn:Hcreate.
  - left. exists evs, metas, msg. do 3 (split; [first [reflexivity | assumption] |]).
    subst r. unfold Download. rewrite Hfetch, Hmatch. simpl.
    destruct metas as [| sfm0 rest]; [| now rewrite Hcreate].
    apply fetchFileMetadataFromSources_ok in Hfetch as [Hperm _].
    simpl in Hperm. now apply Permutation_nil in Hperm.
  - right.
    assert (Hst : staged w opts (u :: urls) evs metas) by (repeat split; auto; discriminate).
    destruct (staged_first _ _ _ _ _ Hst) as (sfm0 & rest & ->).
    exists evs, sfm0, rest. split; [assumption |].
    subst r. now apply Download_staged.
Qed.

(** * The claims *)

Lemma outcome_wrapped evs path r :
  outcome (prepend evs (deferClose path r)) = outcome r.
Proof. unfold prepend, deferClose. simpl. now destruct (outcome r) eqn:Hr. Qed.

Lemma files_wrapped evs path r :
  files (prepend evs (deferClose path r)) = files r.
Proof. unfold prepend, deferClose. simpl. now destruct (outcome r) eqn:Hr. Qed.

Lemma downloadAndPublish_error sortSlice w fuel opts metas fm path d e :
  outcome (downloadFileContents w fuel opts
             (sourceUrlsSortedByEstLatency sortSlice metas) fm path d)
  = Returns (Some e) ->
  downloadAndPublish sortSlice w fuel opts metas fm path d
  = downloadFileContents w fuel opts
      (sourceUrlsSortedByEstLatency sortSlice metas) fm path d.
Proof. intros H. unfold downloadAndPublish. now rewrite H. Qed.

Lemma prioritized_length sortSlice metas :
  sortSliceContract sortSlice ->
  length (sourceUrlsSortedByEstLatency sortSlice metas) = length metas.
Proof.
  intros Hc. unfold sourceUrlsSortedByEstLatency. rewrite length_map.
  apply Permutation_length, Hc.
Qed.

(** For [1 <= S < n] the loop does not end, whatever the sources. *)
Lemma small_file_never_returns sortSlice w fuel opts urls d evs sfm0 rest :
  sortSliceContract sortSlice ->
  staged w opts urls evs (sfm0 :: rest) ->
  1 <= size (meta sfm0) < Connections opts -> Connections opts <= Int64.maxInt ->
  outcome (Download sortSlice w fuel opts urls d) = Diverges.
Proof.
  intros Hc Hst Hs Hn. rewrite (Download_staged _ _ _ _ _ _ _ _ _ Hst), outcome_wrapped.
  unfold downloadAndPublish, downloadFileContents.
  rewrite planChunks_small_file; [reflexivity | assumption | assumption |].
  rewrite prioritized_length by assumption. simpl. lia.
Qed.

(** C1.  The claim: for sizes [S >= n >= 1] the ranges requested are
    pairwise disjoint, their union is [0, S-1], and chunk [i] ends at
    [min(offset_i + S/n, S) - 1].  The code sends [limit] itself as the
    last byte of the range, one more than that: for a file of 10 bytes and
    2 connections it asks for bytes 0-5 and 5-10, so that byte 5 is asked
    for twice and byte 10, which the file does not have, once.
    ([planChunks_safe] gives the same last byte for every safe size.) *)
Theorem requested_ranges_overlap :
  let r := Download sortSliceSmall Sample.world 10 (Sample.options 2 false) ["a"] ∅ in
  outcome r = Returns None /\
  requestedRanges (events r) = [(0, 5); (5, 10)] /\
  List.filter (inRangeb 5) (requestedRanges (events r)) = [(0, 5); (5, 10)] /\
  List.filter (inRangeb 10) (requestedRanges (events r)) = [(5, 10)].
Proof. vm_compute. repeat split. Qed.

(** C2.  The claim: the chunk loop ends for every [S >= 1] and [n >= 1],
    also when [S < n].  For a file of 1 byte and 2 connections the chunk
    size is 0, the offset stays 0 and the loop never ends: [Download] does
    not return, whatever the fuel.  ([small_file_never_returns] gives the
    same for every [1 <= S < n].) *)
Theorem tiny_file_never_returns : forall fuel,
  outcome (Download sortSliceSmall Sample.tiny fuel (Sample.options 2 false) ["a"] ∅)
  = Diverges.
Proof.
  intros fuel.
  assert (Hst : exists evs sfm0,
             staged Sample.tiny (Sample.options 2 false) ["a"] evs [sfm0] /\
             size (meta sfm0) = 1).
  { eexists _, _. split; [repeat split; try discriminate; vm_compute; reflexivity |].
    reflexivity. }
  destruct Hst as (evs & sfm0 & Hst & Hsize).
  apply (small_file_never_returns sortSliceSmall Sample.tiny fuel
           (Sample.options 2 false) ["a"] ∅ evs sfm0 [] sortSliceSmall_contract Hst).
  - rewrite Hsize. simpl. lia.
  - rewrite maxInt_value. simpl. lia.
Qed.

Lemma otherSources_elem urls s j u :
  (j, u) ∈ otherSources urls s -> urls !! j = Some u /\ j <> s.
Proof.
  unfold otherSources. rewrite list_elem_of_In, filter_In, <- list_elem_of_In.
  intros [Hin Hne]. apply elem_of_lookup_imap in Hin as (i & y & [= -> ->] & Hl).
  split; [assumption |]. simpl in Hne. intros ->. now rewrite Nat.eqb_refl in Hne.
Qed.

(** In a safe plan the primary slot of the chunk in position [k] is
    [k mod m], a slot of the list. *)
Lemma primary_slot urls fsize chunkSize k c :
  urls <> [] ->
  chunkAt fsize chunkSize (Z.of_nat (length urls)) 0 0 k c ->
  Z.to_nat (srcIdxInitAttempt c) = (k mod length urls)%nat /\
  exists u0, urls !! (k mod length urls)%nat = Some u0 /\
             index urls (srcIdxInitAttempt c) = Some u0.
Proof.
  intros Hne (_ & _ & _ & Hsrc & _).
  assert (Hlen : (0 < length urls)%nat) by (destruct urls; [contradiction | simpl; lia]).
  rewrite Z.add_0_l, <- Nat2Z.inj_mod in Hsrc.
  assert (Hlt : (k mod length urls < length urls)%nat) by (apply Nat.mod_upper_bound; lia).
  rewrite Hsrc, Nat2Z.id. split; [reflexivity |].
  destruct (lookup_lt_is_Some_2 urls _ Hlt) as [u0 Hu0].
  exists u0. split; [assumption |].
  unfold index. destruct (Z.ltb_spec (Z.of_nat (k mod length urls)) 0); [lia |].
  now rewrite Nat2Z.id.
Qed.

Lemma tryInOrder_first w p off lim j u rest :
  head (fst (tryInOrder w p off lim ((j, u) :: rest))) = Some (EvGet u off lim).
Proof.
  simpl. destruct (fetchChunk w p j u off lim); [| reflexivity].
  now destruct (tryInOrder w p off lim rest).
Qed.

Lemma taskError_cases w urls p c e :
  taskError w urls (p, c) = Some e ->
  e = ErrFailedChunkDownloadAllSources \/ writeAtError w p (offset c) = Some e.
Proof.
  unfold taskError, taskOutcome. simpl.
  destruct (fetchWithFailover w urls p c) as [q | [evs [[u [| b data]] |]]];
    try discriminate.
  - intros H. now right.
  - intros [= <-]. now left.
Qed.

Lemma head_omap_first {A B : Type} (f : A -> option B) l y :
  head (omap f l) = Some y ->
  exists pre x post,
    l = pre ++ x :: post /\ Forall (fun a => f a = None) pre /\ f x = Some y.
Proof.
  induction l as [| a l IH]; [discriminate |].
  simpl. destruct (f a) as [b |] eqn:Hfa.
  - intros [= ->]. exists [], a, l. repeat split; [constructor | assumption].
  - intros Hh. destruct (IH Hh) as (pre & x & post & -> & Hpre & Hx).
    exists (a :: pre), x, post. repeat split; [now constructor | assumption].
Qed.

(** C3 (amended).  For sizes that the loop handles without wrap-around and
    with enough fuel, the loop ends with a plan in which the chunk in
    position [i] has index [i]; its goroutine sends the first GET to
    [urls[i mod m]] and, while the attempts fail, goes on through the other
    sources in prioritized order; and when every source fails for the
    chunk, [Download] returns the first error of the group: the error of
    the goroutine [t] before which, in the order in which the goroutines
    end, none returned an error.  That error is
    [ErrFailedChunkDownloadAllSources], unless [t] is a goroutine that
    ended before the one of the exhausted chunk and whose write to the
    staging file failed, in which case it is the error of that write. *)
Theorem chunk_failover sortSlice w fuel opts sourceUrls d evs sfm0 rest :
  sortSliceContract sortSlice ->
  staged w opts sourceUrls evs (sfm0 :: rest) ->
  planSafe (Connections opts) (size (meta sfm0)) ->
  (Z.to_nat (size (meta sfm0)) <= fuel)%nat ->
  let urls := sourceUrlsSortedByEstLatency sortSlice (sfm0 :: rest) in
  exists chunks,
    planChunks fuel (Connections opts) (size (meta sfm0)) (Z.of_nat (length urls))
    = Returns chunks /\
    forall i c, chunks !! i = Some c ->
      let s := (i mod length urls)%nat in
      chunkIndex c = Z.of_nat i /\
      exists u0,
        urls !! s = Some u0 /\
        fetchWithFailover w urls i c
        = inr (tryInOrder w i (offset c) (limit c) ((s, u0) :: otherSources urls s)) /\
        head (fst (tryInOrder w i (offset c) (limit c) ((s, u0) :: otherSources urls s)))
        = Some (EvGet u0 (offset c) (limit c)) /\
        ((forall j u, urls !! j = Some u ->
                      exists err, fetchChunk w i j u (offset c) (limit c) = inl err) ->
         exists e pre t post,
           outcome (Download sortSlice w fuel opts sourceUrls d) = Returns (Some e) /\
           inCompletionOrder (taskFinish w) chunks = pre ++ t :: post /\
           Forall (fun t' => taskError w urls t' = None) pre /\
           taskError w urls t = Some e /\
           (e = ErrFailedChunkDownloadAllSources \/
            (i, c) ∈ post /\
            exists msg, fileWriteAt w (fst t) = Some msg /\ e = ErrIO msg)).
Proof.
  intros Hc Hst Hsafe Hfuel urls.
  assert (Hne : urls <> []).
  { intros Hnil. apply (f_equal length) in Hnil. unfold urls in Hnil.
    rewrite prioritized_length in Hnil by assumption. discriminate. }
  assert (Hm : 0 < Z.of_nat (length urls)) by (destruct urls; [contradiction | simpl; lia]).
  destruct (planChunks_safe fuel _ _ _ Hsafe Hm Hfuel) as (chunks & Hplan & Hat).
  exists chunks. split; [assumption |].
  intros i c Hi s.
  destruct (primary_slot urls _ _ i c Hne (Hat i c Hi)) as (Hs & u0 & Hu0 & Hidx).
  fold s in Hs, Hu0. pose proof (fetchWithFailover_order w urls i c u0 Hidx) as Hfetch.
  rewrite Hs in Hfetch.
  split; [destruct (Hat i c Hi) as [-> _]; lia |].
  exists u0. split; [assumption |]. split; [assumption |].
  split; [apply tryInOrder_first |].
  intros Hall.
  rewrite (Download_staged _ _ _ _ _ _ _ _ _ Hst), outcome_wrapped.
  (* the goroutines of the plan, none of which panics *)
  set (ts := inCompletionOrder (taskFinish w) chunks).
  assert (Hts : forall t, t ∈ ts -> exists oe, taskOutcome w urls t = inr oe).
  { intros [p' c'] Ht. apply tasks_elem in Ht. simpl in Ht.
    destruct (primary_slot urls _ _ p' c' Hne (Hat p' c' Ht)) as (_ & u' & _ & Hidx').
    unfold taskOutcome. simpl. rewrite (fetchWithFailover_order w urls p' c' u' Hidx').
    destruct (tryInOrder w p' _ _ _) as [evs' [[u'' [| b data]] |]]; eauto. }
  (* the exhausted chunk returns the exhausted error to the group *)
  assert (Hex : taskError w urls (i, c) = Some ErrFailedChunkDownloadAllSources).
  { unfold taskError, taskOutcome. simpl. rewrite Hfetch.
    rewrite tryInOrder_exhausted; [reflexivity |].
    intros j u Hju. apply Hall. apply elem_of_cons in Hju as [[= -> ->] | Hju].
    - assumption.
    - now apply otherSources_elem in Hju as [? _]. }
  assert (Hin : (i, c) ∈ ts) by (now apply tasks_elem).
  destruct (head_omap_Some _ _ _ _ Hin Hex) as ([p' c'] & e & Hhead & Hin' & He).
  destruct (group_first_error w urls (stagingPath opts) ts
              {| gEvents := []; gDisk := <[stagingPath opts := []]> d;
                 gErr := None; gPanic := None |} Hts eq_refl) as [Hpanic Herr].
  simpl in Herr. rewrite Hhead in Herr.
  assert (Hout : outcome (downloadFileContents w fuel opts urls (meta sfm0)
                            (stagingPath opts) (<[stagingPath opts := []]> d))
                 = Returns (Some e)).
  { unfold downloadFileContents. rewrite Hplan. simpl. fold ts.
    now rewrite Hpanic, Herr. }
  destruct (head_omap_first _ _ _ Hhead) as (pre & [p c0] & post & Hsplit & Hpre & Hfirst).
  exists e, pre, (p, c0), post.
  split; [rewrite downloadAndPublish_error with (e := e); assumption |].
  split; [exact Hsplit |]. split; [exact Hpre |]. split; [exact Hfirst |].
  fold ts in Hsplit. rewrite Hsplit in Hin.
  apply elem_of_app in Hin as [Hin | Hin].
  { rewrite Forall_forall in Hpre. rewrite (Hpre _ Hin) in Hex. discriminate. }
  apply elem_of_cons in Hin as [Heq | Hin].
  { left. rewrite <- Heq, Hex in Hfirst. congruence. }
  destruct (taskError_cases _ _ _ _ _ Hfirst) as [-> | Hw]; [now left | right].
  split; [exact Hin |].
  assert (Hmem : (p, c0) ∈ ts)
    by (rewrite Hsplit; apply elem_of_app; right; left).
  apply tasks_elem in Hmem. simpl in Hmem.
  destruct (Hat p c0 Hmem) as (_ & _ & _ & _ & Hoff).
  unfold writeAtError in Hw. destruct (Z.ltb_spec (offset c0) 0); [lia |].
  simpl. destruct (fileWriteAt w p) as [msg |] eqn:Hmsg; [| discriminate].
  injection Hw as <-. now exists msg.
Qed.

Lemma chunk_failover_witness :
  sortSliceContract sortSliceSmall /\
  staged Sample.secondChunkLost (Sample.options 2 false) ["a"; "b"]
    [EvHead "a"; EvHead "b"] [Sample.descriptor "a"; Sample.descriptor "b"] /\
  planSafe 2 10 /\
  (Z.to_nat 10 <= 10)%nat /\
  outcome (Download sortSliceSmall Sample.secondChunkLost 10 (Sample.options 2 false)
             ["a"; "b"] ∅)
  = Returns (Some ErrFailedChunkDownloadAllSources).
Proof.
  pose proof sortSliceSmall_contract as Hc.
  assert (Hst : staged Sample.secondChunkLost (Sample.options 2 false) ["a"; "b"]
                  [EvHead "a"; EvHead "b"]
                  [Sample.descriptor "a"; Sample.descriptor "b"]).
  { repeat split; [discriminate | vm_compute; reflexivity ..]. }
  assert (Hsafe : planSafe 2 10) by (vm_compute; intuition discriminate).
  assert (Hfuel : (Z.to_nat 10 <= 10)%nat) by (vm_compute; lia).
  do 4 (split; [assumption |]).
  destruct (chunk_failover sortSliceSmall Sample.secondChunkLost 10
              (Sample.options 2 false) ["a"; "b"] ∅ _ _ _ Hc Hst Hsafe Hfuel)
    as (chunks & Hplan & Hall).
  vm_compute in Hplan. injection Hplan as <-.
  destruct (Hall 1%nat _ eq_refl) as (_ & u0 & _ & _ & _ & Hex).
  destruct Hex as (e & pre & t & post & Hout & _ & _ & _ & [-> | (_ & msg & Hq & _)]).
  - intros j u _. exists (ErrTransport "timeout"). reflexivity.
  - exact Hout.
  - vm_compute in Hq. discriminate.
Defined.

(** C3, the claim as stated fails: the first chunk arrives but its write
    fails, then every source fails for the second chunk; [Download]
    returns the error of the write, not
    [ErrFailedChunkDownloadAllSources]. *)
Lemma exhausted_chunk_other_error :
  (forall j u, fetchChunk Sample.diskFull 1 j u 5 10 = inl (ErrTransport "timeout")) /\
  outcome (Download sortSliceSmall Sample.diskFull 10 (Sample.options 2 false)
             ["a"; "b"] ∅)
  = Returns (Some (ErrIO "no space left on device")) /\
  outcome (Download sortSliceSmall Sample.diskFull 10 (Sample.options 2 false)
             ["a"; "b"] ∅)
  <> Returns (Some ErrFailedChunkDownloadAllSources).
Proof.
  split; [reflexivity |].
  assert (H : outcome (Download sortSliceSmall Sample.diskFull 10
                         (Sample.options 2 false) ["a"; "b"] ∅)
              = Returns (Some (ErrIO "no space left on device")))
    by (vm_compute; reflexivity).
  split; [exact H | rewrite H; discriminate].
Qed.

(** ** The reconciler *)

Lemma sameMetadata_agree checkETag a b :
  sameMetadata checkETag a b = true <-> agree checkETag a b.
Proof.
  unfold sameMetadata, agree.
  destruct (Z.eqb_spec (size (meta a)) (size (meta b))) as [Hs | Hs]; simpl.
  2:{ split; [discriminate | intros [? _]; contradiction]. }
  destruct (String.eqb_spec (contentType (meta a)) (contentType (meta b))) as [Hc | Hc];
    simpl.
  2:{ split; [discriminate | intros (_ & ? & _); contradiction]. }
  destruct checkETag; simpl.
  - destruct (String.eqb_spec (eTag (meta a)) (eTag (meta b))) as [He | He]; simpl.
    + intuition.
    + split; [discriminate | intros (_ & _ & H); now specialize (H eq_refl)].
  - intuition discriminate.
Qed.

Lemma agree_trans checkETag a b c :
  agree checkETag a b -> agree checkETag b c -> agree checkETag a c.
Proof.
  intros (H1 & H2 & H3) (H4 & H5 & H6). repeat split; try congruence.
  intros H. rewrite H3, H6; auto.
Qed.

Lemma agree_sym checkETag a b : agree checkETag a b -> agree checkETag b a.
Proof. intros (H1 & H2 & H3). repeat split; try congruence. intros H. now rewrite H3. Qed.

Lemma agree_refl checkETag a : agree checkETag a a.
Proof. repeat split. Qed.

(** Comparing neighbours decides whether all descriptors agree pairwise. *)
Lemma allSourcesMatchFileMetadata_pairwise metas checkETag :
  allSourcesMatchFileMetadata metas checkETag = true <->
  forall a b, a ∈ metas -> b ∈ metas -> agree checkETag a b.
Proof.
  induction metas as [| x metas IH].
  - split; [| reflexivity]. intros _ a b Ha. by apply elem_of_nil in Ha.
  - destruct metas as [| y metas].
    + split; [| reflexivity]. intros _ a b Ha Hb.
      apply list_elem_of_singleton in Ha as ->. apply list_elem_of_singleton in Hb as ->.
      apply agree_refl.
    + change (allSourcesMatchFileMetadata (x :: y :: metas) checkETag)
        with (if sameMetadata checkETag x y
              then allSourcesMatchFileMetadata (y :: metas) checkETag else false).
      destruct (sameMetadata checkETag x y) eqn:Hxy.
      * apply sameMetadata_agree in Hxy. rewrite IH. split.
        -- intros Hall.
           assert (Hx : forall b, b ∈ x :: y :: metas -> agree checkETag x b).
           { intros b Hb. apply elem_of_cons in Hb as [-> | Hb]; [apply agree_refl |].
             eapply agree_trans; [exact Hxy |]. apply Hall; [left | assumption]. }
           intros a b Ha Hb. apply elem_of_cons in Ha as [-> | Ha]; [now apply Hx |].
           apply elem_of_cons in Hb as [-> | Hb]; [| now apply Hall].
           apply agree_sym, Hx. now right.
        -- intros Hall a b Ha Hb. apply Hall; now right.
      * split; [discriminate |]. intros Hall.
        assert (agree checkETag x y) as Hag by (apply Hall; [left | right; left]).
        apply sameMetadata_agree in Hag. congruence.
Qed.

(** What the comparison sees of the content type.
    [allSourcesMatchFileMetadata] compares the content types of the
    descriptors ([allSourcesMatchFileMetadata_pairwise]), and the prober
    leaves the field of every descriptor empty ([probe_descriptor]): for two
    sources of equal length that answer [text/plain] and [image/png] the
    descriptors agree and [Download] succeeds. *)
Example content_type_mismatch_undetected :
  (exists ra rb,
      httpHead Sample.mixedTypes 0 "a" = inr ra /\
      httpHead Sample.mixedTypes 1 "b" = inr rb /\
      Header ra "Content-Type" = "text/plain" /\
      Header rb "Content-Type" = "image/png" /\
      ContentLength ra = ContentLength rb) /\
  (exists evs a b,
      fetchFileMetadataFromSources Sample.mixedTypes ["a"; "b"] = (evs, [a; b], None) /\
      contentType (meta a) = EmptyString /\ contentType (meta b) = EmptyString /\
      allSourcesMatchFileMetadata [a; b] false = true) /\
  outcome (Download sortSliceSmall Sample.mixedTypes 10 (Sample.options 2 false)
             ["a"; "b"] ∅)
  = Returns None.
Proof.
  split; [| split].
  - eexists _, _. repeat split.
  - eexists _, _, _. split; [vm_compute; reflexivity |]. repeat split.
  - vm_compute. reflexivity.
Qed.

(** ** The prioritizer *)

(** C5 (amended).  When every probe succeeds, the prioritized list is a
    permutation of the input URLs, and it lists the sources in an order of
    non-decreasing estimated latency.  (Nothing is said about sources of
    equal latency.) *)
Theorem prioritized_sorted_permutation sortSlice w sourceUrls evs metas :
  sortSliceContract sortSlice ->
  fetchFileMetadataFromSources w sourceUrls = (evs, metas, None) ->
  Permutation (sourceUrlsSortedByEstLatency sortSlice metas) sourceUrls /\
  exists sorted,
    Permutation sorted metas /\
    StronglySorted (fun a b => estLatency a <= estLatency b) sorted /\
    sourceUrlsSortedByEstLatency sortSlice metas = map url sorted.
Proof.
  intros Hc Hfetch. destruct (Hc metas) as [Hperm Hsorted].
  apply fetchFileMetadataFromSources_ok in Hfetch as [Hurls _].
  unfold sourceUrlsSortedByEstLatency. split.
  - now rewrite (Permutation_map url Hperm).
  - exists (sortSlice metas). repeat split; [assumption |].
    eapply StronglySorted_weaken; [| exact Hsorted].
    intros a b Hab. unfold lessEstLatency in Hab. now apply Z.ltb_ge in Hab.
Qed.

Lemma prioritized_sorted_permutation_witness :
  sortSliceContract sortSliceSmall /\
  fetchFileMetadataFromSources Sample.secondFirst ["a"; "b"]
  = ([EvHead "b"; EvHead "a"], [Sample.descriptor "b"; Sample.descriptor "a"], None) /\
  Permutation
    (sourceUrlsSortedByEstLatency sortSliceSmall
       [Sample.descriptor "b"; Sample.descriptor "a"])
    ["a"; "b"].
Proof.
  assert (Hfetch : fetchFileMetadataFromSources Sample.secondFirst ["a"; "b"]
                   = ([EvHead "b"; EvHead "a"],
                      [Sample.descriptor "b"; Sample.descriptor "a"], None))
    by (vm_compute; reflexivity).
  split; [exact sortSliceSmall_contract |]. split; [exact Hfetch |].
  exact (proj1 (prioritized_sorted_permutation sortSliceSmall Sample.secondFirst
                  ["a"; "b"] _ _ sortSliceSmall_contract Hfetch)).
Defined.

(** C5, the claim as stated fails: two sources of equal latency whose
    probes end in the reverse of the input order are prioritized in that
    reverse order. *)
Lemma ties_follow_arrival :
  fetchFileMetadataFromSources Sample.secondFirst ["a"; "b"]
  = ([EvHead "b"; EvHead "a"], [Sample.descriptor "b"; Sample.descriptor "a"], None) /\
  sourceUrlsSortedByEstLatency sortSliceSmall
    [Sample.descriptor "b"; Sample.descriptor "a"] = ["b"; "a"] /\
  ~ tiesKeepInputOrder ["a"; "b"] [Sample.descriptor "b"; Sample.descriptor "a"]
      (sourceUrlsSortedByEstLatency sortSliceSmall
         [Sample.descriptor "b"; Sample.descriptor "a"]).
Proof.
  split; [vm_compute; reflexivity |]. split; [vm_compute; reflexivity |].
  intros Hties.
  destruct (Hties (Sample.descriptor "a") (Sample.descriptor "b"))
    as (i & j & Hlt & Hi & Hj).
  - right; left.
  - left.
  - reflexivity.
  - exists 0%nat, 1%nat. repeat split. lia.
  - change (sourceUrlsSortedByEstLatency sortSliceSmall
              [Sample.descriptor "b"; Sample.descriptor "a"])
      with ["b"; "a"] in Hi, Hj.
    destruct i as [| [| i]]; try discriminate.
    destruct j as [| [| j]]; try discriminate. lia.
Qed.

(** ** Rejection of a source *)

Lemma probes_contain w urls k u :
  urls !! k = Some u ->
  (k, (u, probe w k u))
    ∈ inCompletionOrder (probeFinish w) (imap (fun k u => (u, probe w k u)) urls).
Proof.
  intros Hu. apply tasks_elem. simpl. now rewrite list_lookup_imap, Hu.
Qed.

(** When a probe fails, [eg.Wait()] gives the error of a failed probe. *)
Lemma fetchFileMetadataFromSources_error w urls k u e :
  urls !! k = Some u -> probe w k u = inl e ->
  exists evs metas e' k' u',
    fetchFileMetadataFromSources w urls = (evs, metas, Some e') /\
    Forall (fun ev => exists v, ev = EvHead v) evs /\
    urls !! k' = Some u' /\ probe w k' u' = inl e'.
Proof.
  intros Hu Hp. unfold fetchFileMetadataFromSources.
  set (ended := inCompletionOrder _ _).
  assert (Hin : (k, (u, probe w k u)) ∈ ended) by (now apply probes_contain).
  assert (Herr : returnedError (k, (u, probe w k u)) = Some e)
    by (unfold returnedError; simpl; now rewrite Hp).
  destruct (head_omap_Some _ _ _ _ Hin Herr) as (r & e' & Hhead & Hr & He').
  apply probes_ended_elem in Hr as (k' & u' & Hu' & ->).
  unfold returnedError in He'. simpl in He'.
  destruct (probe w k' u') as [e'' |] eqn:Hp'; [| discriminate]. injection He' as ->.
  exists (map (fun r => EvHead (fst (snd r))) ended), (omap sentDescriptor ended), e', k', u'.
  rewrite Hhead. repeat split; try assumption.
  apply Forall_forall. intros ev Hev. apply list_elem_of_In in Hev.
  apply in_map_iff in Hev as (r & <- & _). eauto.
Qed.

(** A source that passes the three checks is accepted. *)
Lemma probe_accepts w k u resp :
  httpHead w k u = inr resp ->
  StatusCode resp = 200 -> ContentLength resp <> -1 ->
  Header resp "Accept-Ranges" <> EmptyString -> Header resp "Accept-Ranges" <> "none" ->
  exists sfm, probe w k u = inr sfm.
Proof.
  intros Hh Hs Hl He Hn. unfold probe. rewrite Hh, Hs. simpl.
  destruct (Z.eqb_spec (ContentLength resp) (-1)); [contradiction |].
  destruct (String.eqb_spec (Header resp "Accept-Ranges") "none"); [contradiction |].
  destruct (Header resp "Accept-Ranges") as [| a s]; [contradiction |].
  simpl. eauto.
Qed.

(** C7 (amended).  A source is rejected, and the whole download aborted
    before any file is created, when the status of the HEAD answer is not
    200, when the content length is unknown (-1), or when Accept-Ranges is
    absent, empty or exactly [none]; the first rejection carries the
    status, the second is [ErrUnknownContentLength] and the third
    [ErrPartialRequestUnsupported]. *)
Theorem probe_rejection sortSlice w fuel opts sourceUrls d k u resp :
  sourceUrls !! k = Some u ->
  httpHead w k u = inr resp ->
  StatusCode resp <> 200 \/ ContentLength resp = -1 \/
  Header resp "Accept-Ranges" = EmptyString \/ Header resp "Accept-Ranges" = "none" ->
  (exists e,
      probe w k u = inl e /\
      (StatusCode resp <> 200 -> e = ErrStatus (StatusCode resp) u) /\
      (StatusCode resp = 200 -> ContentLength resp = -1 ->
       e = ErrUnknownContentLength) /\
      (StatusCode resp = 200 -> ContentLength resp <> -1 ->
       e = ErrPartialRequestUnsupported)) /\
  (exists e' k' u',
      outcome (Download sortSlice w fuel opts sourceUrls d) = Returns (Some e') /\
      sourceUrls !! k' = Some u' /\ probe w k' u' = inl e' /\
      files (Download sortSlice w fuel opts sourceUrls d) = d /\
      Forall (fun ev => exists v, ev = EvHead v)
             (events (Download sortSlice w fuel opts sourceUrls d))).
Proof.
  intros Hu Hh Hrej.
  assert (Hp : exists e,
             probe w k u = inl e /\
             (StatusCode resp <> 200 -> e = ErrStatus (StatusCode resp) u) /\
             (StatusCode resp = 200 -> ContentLength resp = -1 ->
              e = ErrUnknownContentLength) /\
             (StatusCode resp = 200 -> ContentLength resp <> -1 ->
              e = ErrPartialRequestUnsupported)).
  { unfold probe. rewrite Hh.
    destruct (Z.eqb_spec (StatusCode resp) 200) as [Hs | Hs]; simpl.
    2:{ eexists. split; [reflexivity |]. repeat split; intros; congruence. }
    destruct (Z.eqb_spec (ContentLength resp) (-1)) as [Hl | Hl].
    { eexists. split; [reflexivity |]. repeat split; intros; congruence. }
    destruct Hrej as [Hrej | [Hrej | [Hrej | Hrej]]]; try contradiction;
      rewrite Hrej; simpl; eexists; (split; [reflexivity |]);
      repeat split; intros; congruence. }
  split; [exact Hp |].
  destruct Hp as (e & Hp & _).
  destruct (fetchFileMetadataFromSources_error w sourceUrls k u e Hu Hp)
    as (evs & metas & e' & k' & u' & Hfetch & Hevs & Hu' & Hp').
  exists e', k', u'.
  assert (HD : Download sortSlice w fuel opts sourceUrls d = returns evs d (Some e')).
  { unfold Download. destruct sourceUrls as [| x l]; [discriminate |].
    change (length (x :: l) =? 0)%nat with false. cbv iota. now rewrite Hfetch. }
  rewrite HD. repeat split; assumption.
Qed.

Lemma probe_rejection_witness :
  ["a"] !! 0%nat = Some "a" /\
  httpHead Sample.unknownLength 0 "a"
  = inr (Sample.headOk (-1) "text/plain" EmptyString "bytes") /\
  outcome (Download sortSliceSmall Sample.unknownLength 10 (Sample.options 2 false)
             ["a"] ∅)
  = Returns (Some ErrUnknownContentLength).
Proof.
  split; [reflexivity |]. split; [reflexivity |].
  destruct (probe_rejection sortSliceSmall Sample.unknownLength 10
              (Sample.options 2 false) ["a"] ∅ 0 "a"
              (Sample.headOk (-1) "text/plain" EmptyString "bytes")
              eq_refl eq_refl (or_intror (or_introl eq_refl)))
    as [_ (e' & k' & u' & Hout & Hu' & Hp' & _)].
  rewrite Hout. destruct k' as [| k']; [| discriminate].
  injection Hu' as <-. vm_compute in Hp'. now injection Hp' as <-.
Defined.

(** C7, the claim as stated fails: [Accept-Ranges: None] is accepted (the
    comparison with [none] is exact), and an unknown content length is
    reported as [ErrUnknownContentLength], not as
    [ErrPartialRequestUnsupported]. *)
Lemma capital_none_accepted :
  (exists resp sfm,
      httpHead Sample.capitalNone 0 "a" = inr resp /\
      Header resp "Accept-Ranges" = "None" /\
      probe Sample.capitalNone 0 "a" = inr sfm) /\
  outcome (Download sortSliceSmall Sample.capitalNone 10 (Sample.options 2 false)
             ["a"] ∅) = Returns None /\
  probe Sample.unknownLength 0 "a" = inl ErrUnknownContentLength /\
  probe Sample.unknownLength 0 "a" <> inl ErrPartialRequestUnsupported.
Proof.
  split; [eexists _, _; repeat split |].
  split; [vm_compute; reflexivity |].
  split; [reflexivity | discriminate].
Qed.

(** ** Verification and publishing *)

Lemma checkETag_inactive w opts fm path d :
  CheckETag opts = false \/ eTag fm = EmptyString ->
  checkETag w opts fm path d = ([], None).
Proof.
  unfold checkETag. intros [-> | ->]; [reflexivity |].
  now rewrite andb_false_r.
Qed.

Lemma checkETag_active w opts fm path d :
  CheckETag opts = true -> eTag fm <> EmptyString ->
  checkETag w opts fm path d
  = match getMD5Hash w path d with
    | (evs, inl err) => (evs, Some err)
    | (evs, inr md5Hash) =>
        (evs, if String.eqb md5Hash (eTag fm) then None else Some ErrETagMismatch)
    end.
Proof.
  unfold checkETag. intros -> Htag.
  destruct (eTag fm) as [| a s]; [contradiction |]. simpl.
  destruct (getMD5Hash w path d) as [evs [err | md5Hash]]; [reflexivity |].
  now destruct (String.eqb md5Hash (String a s)).
Qed.

(** The check reads the staging file and nothing else; its errors are those
    of the file system or the mismatch. *)
Lemma checkETag_spec w opts fm path d evs err :
  checkETag w opts fm path d = (evs, err) ->
  (evs = [] \/ evs = [EvStat path] \/ evs = [EvStat path; EvRead path]) /\
  (err = Some ErrETagMismatch -> evs = [EvStat path; EvRead path]).
Proof.
  unfold checkETag, getMD5Hash.
  destruct (_ && _).
  - destruct (fileStat w); [intros [= <- <-]; split; [auto | discriminate] |].
    destruct (fileRead w); [intros [= <- <-]; split; [auto | discriminate] |].
    intros [= <- <-]. auto.
  - intros [= <- <-]. split; [auto | discriminate].
Qed.

Lemma rename_spec w oldpath newpath d err d' :
  rename w oldpath newpath d = (err, d') ->
  match err with
  | Some e => d' = d /\ ((exists msg, osRename w = Some msg /\ e = ErrIO msg) \/
                         d !! oldpath = None)
  | None => osRename w = None /\
            exists content, d !! oldpath = Some content /\
                            d' = <[newpath := content]> (delete oldpath d)
  end.
Proof.
  unfold rename. destruct (osRename w) as [msg |].
  - intros [= <- <-]. split; [reflexivity |]. left. eauto.
  - destruct (d !! oldpath) as [content |].
    + intros [= <- <-]. split; [reflexivity |]. eauto.
    + intros [= <- <-]. auto.
Qed.

(** Every way in which [Download] can end once the staging file exists. *)
Lemma downloadAndPublish_cases sortSlice w fuel opts metas fm path d :
  let r0 := downloadFileContents w fuel opts
              (sourceUrlsSortedByEstLatency sortSlice metas) fm path d in
  let r := downloadAndPublish sortSlice w fuel opts metas fm path d in
  (outcome r0 <> Returns None /\ r = r0) \/
  (outcome r0 = Returns None /\
   exists evs err, checkETag w opts fm path (files r0) = (evs, err) /\
     match err with
     | Some e => r = returns (events r0 ++ evs) (files r0) (Some e)
     | None =>
         exists rerr d', rename w path (DestFilePath opts) (files r0) = (rerr, d') /\
           match rerr with
           | Some e =>
               r = returns (events r0 ++ evs ++ [EvRename path (DestFilePath opts)])
                     d' (Some e)
           | None =>
               r = returns (events r0 ++ evs
                              ++ [EvRename path (DestFilePath opts);
                                  EvPrintln "Download complete:" (DestFilePath opts)])
                     d' None
           end
     end).
Proof.
  intros r0 r. subst r. unfold downloadAndPublish. fold r0.
  destruct (outcome r0) as [[e |] | q |] eqn:Hout;
    try (left; split; [discriminate | reflexivity]).
  right. split; [reflexivity |].
  destruct (checkETag w opts fm path (files r0)) as [evs [e |]] eqn:Hchk.
  - exists evs, (Some e). split; reflexivity.
  - exists evs, None. split; [reflexivity |].
    destruct (rename w path (DestFilePath opts) (files r0)) as [[e |] d'] eqn:Hren.
    + exists (Some e), d'. split; reflexivity.
    + exists None, d'. split; reflexivity.
Qed.

(** [chunkLoop] panics only on an empty list of URLs. *)
Lemma chunkLoop_no_panic fuel : forall fsize chunkSize nUrls off i q,
  nUrls <> 0 -> chunkLoop fuel fsize chunkSize nUrls off i <> Panics q.
Proof.
  induction fuel as [| fuel IH]; intros fsize chunkSize nUrls off i q Hm; simpl.
  - destruct (off <? fsize); discriminate.
  - destruct (off <? fsize); [| discriminate].
    destruct (Z.eqb_spec nUrls 0); [contradiction |].
    specialize (IH fsize chunkSize nUrls (Int64.add off chunkSize) (Int64.add i 1)).
    destruct (chunkLoop fuel fsize chunkSize nUrls _ _) as [cs | q' |];
      try discriminate.
    intros _. exact (IH q' Hm eq_refl).
Qed.

(** A goroutine of a chunk panics only on an index out of range. *)
Lemma group_panic w urls path ts : forall g,
  (gPanic g = None \/ gPanic g = Some IndexOutOfRange) ->
  gPanic (fold_left (chunkTask w urls path) ts g) = None \/
  gPanic (fold_left (chunkTask w urls path) ts g) = Some IndexOutOfRange.
Proof.
  apply (fold_left_invariant
           (fun g => gPanic g = None \/ gPanic g = Some IndexOutOfRange)).
  intros g [p c] Hg. unfold chunkTask.
  destruct (gPanic g) eqn:Hp; [now rewrite Hp |].
  unfold fetchWithFailover.
  destruct (index urls (srcIdxInitAttempt c)) as [u |]; [| now right].
  destruct (fetchChunk w p _ u _ _) as [err | data].
  - destruct (retryLoop w p c 0 urls) as [evs [[u' data] |]]; simpl; auto.
    destruct (copyAt w path p (offset c) data (gDisk g)) as [[wevs werr] d'].
    simpl. auto.
  - destruct (copyAt w path p (offset c) data (gDisk g)) as [[wevs werr] d'].
    simpl. auto.
Qed.

Lemma downloadFileContents_divides w fuel opts urls fm path d :
  1 <= Connections opts < Int64.modulus -> urls <> [] ->
  outcome (downloadFileContents w fuel opts urls fm path d)
  <> Panics IntegerDivideByZero.
Proof.
  intros Hn Hne. unfold downloadFileContents, planChunks.
  destruct (Z.eqb_spec (Int64.ofUint (Connections opts)) 0) as [Hz | Hz].
  { apply ofUint_zero in Hz; lia. }
  assert (Hm : Z.of_nat (length urls) <> 0) by (destruct urls; [contradiction | simpl; lia]).
  pose proof (chunkLoop_no_panic fuel (size fm)
                (Int64.quo (size fm) (Int64.ofUint (Connections opts)))
                (Z.of_nat (length urls)) 0 0) as Hloop.
  destruct (chunkLoop fuel (size fm) _ _ 0 0) as [chunks | q |]; simpl.
  - destruct (group_panic w urls path (inCompletionOrder (taskFinish w) chunks)
                {| gEvents := []; gDisk := d; gErr := None; gPanic := None |})
      as [-> | ->]; [now left | discriminate | discriminate].
  - now specialize (Hloop q Hm).
  - discriminate.
Qed.

Lemma downloadAndPublish_panics sortSlice w fuel opts metas fm path d q :
  outcome (downloadAndPublish sortSlice w fuel opts metas fm path d) = Panics q ->
  outcome (downloadFileContents w fuel opts
             (sourceUrlsSortedByEstLatency sortSlice metas) fm path d) = Panics q.
Proof.
  destruct (downloadAndPublish_cases sortSlice w fuel opts metas fm path d)
    as [[_ ->] | (_ & evs & [e |] & _ & H)]; [auto | |].
  - rewrite H. discriminate.
  - destruct H as ([e |] & d' & _ & ->); discriminate.
Qed.

(** C10 (amended).  The chunk size is the file size divided by
    [Connections] with no check before it.  When [Connections] is at least
    1 no division of [Download] is by zero (neither this one nor the
    remainder by the number of sources); when it is 0, the call panics at
    the division exactly when it gets as far as the staging file: there
    are sources, every probe succeeds, the descriptors agree and the
    staging file is created. *)
Theorem connections_division sortSlice w fuel opts sourceUrls d :
  sortSliceContract sortSlice ->
  (1 <= Connections opts < Int64.modulus ->
   outcome (Download sortSlice w fuel opts sourceUrls d)
   <> Panics IntegerDivideByZero) /\
  (Connections opts = 0 ->
   (outcome (Download sortSlice w fuel opts sourceUrls d) = Panics IntegerDivideByZero
    <-> exists evs metas, staged w opts sourceUrls evs metas)).
Proof.
  intros Hc. split.
  - intros Hn.
    destruct (Download_cases sortSlice w fuel opts sourceUrls d)
      as [[_ ->] | [(evs & metas & e & _ & ->) | [(evs & metas & _ & _ & ->)
         | [(evs & metas & msg & _ & _ & _ & ->) | (evs & sfm0 & rest & Hst & ->)]]]];
      try discriminate.
    rewrite outcome_wrapped. intros Hq. apply downloadAndPublish_panics in Hq.
    revert Hq. apply downloadFileContents_divides; [assumption |].
    intros Hnil. apply (f_equal length) in Hnil.
    rewrite prioritized_length in Hnil by assumption. discriminate.
  - intros Hz. split.
    + destruct (Download_cases sortSlice w fuel opts sourceUrls d)
        as [[_ ->] | [(evs & metas & e & _ & ->) | [(evs & metas & _ & _ & ->)
           | [(evs & metas & msg & _ & _ & _ & ->) | (evs & sfm0 & rest & Hst & _)]]]];
        try discriminate.
      intros _. now exists evs, (sfm0 :: rest).
    + intros (evs & metas & Hst).
      destruct (staged_first _ _ _ _ _ Hst) as (sfm0 & rest & ->).
      rewrite (Download_staged _ _ _ _ _ _ _ _ _ Hst), outcome_wrapped.
      unfold downloadAndPublish, downloadFileContents, planChunks.
      rewrite Hz. reflexivity.
Qed.

Lemma connections_division_witness :
  sortSliceContract sortSliceSmall /\
  1 <= Connections (Sample.options 2 false) < Int64.modulus /\
  outcome (Download sortSliceSmall Sample.world 10 (Sample.options 2 false) ["a"; "b"] ∅)
  <> Panics IntegerDivideByZero /\
  Connections (Sample.options 0 false) = 0 /\
  staged Sample.world (Sample.options 0 false) ["a"; "b"]
    [EvHead "a"; EvHead "b"] [Sample.descriptor "a"; Sample.descriptor "b"] /\
  outcome (Download sortSliceSmall Sample.world 10 (Sample.options 0 false) ["a"; "b"] ∅)
  = Panics IntegerDivideByZero.
Proof.
  assert (Hn : 1 <= Connections (Sample.options 2 false) < Int64.modulus)
    by (vm_compute; intuition discriminate).
  assert (Hst : staged Sample.world (Sample.options 0 false) ["a"; "b"]
                  [EvHead "a"; EvHead "b"]
                  [Sample.descriptor "a"; Sample.descriptor "b"]).
  { repeat split; [discriminate | vm_compute; reflexivity ..]. }
  split; [exact sortSliceSmall_contract |]. split; [exact Hn |].
  split; [| split; [reflexivity | split; [exact Hst |]]].
  - exact (proj1 (connections_division sortSliceSmall Sample.world 10
                    (Sample.options 2 false) ["a"; "b"] ∅ sortSliceSmall_contract) Hn).
  - apply (proj2 (connections_division sortSliceSmall Sample.world 10
                    (Sample.options 0 false) ["a"; "b"] ∅ sortSliceSmall_contract)
             eq_refl).
    eexists _, _. exact Hst.
Defined.

(** C10, the claim as stated fails: with [Connections = 0] and a source
    that is probed successfully, the call does not reach the division when
    another source answers the HEAD request with 404; it returns the error
    of that probe. *)
Lemma zero_connections_probe_error :
  Connections (Sample.options 0 false) = 0 /\
  probe Sample.secondMissing 0 "a" = inr (Sample.descriptor "a") /\
  outcome (Download sortSliceSmall Sample.secondMissing 10 (Sample.options 0 false)
             ["a"; "b"] ∅)
  = Returns (Some (ErrStatus 404 "b")) /\
  outcome (Download sortSliceSmall Sample.secondMissing 10 (Sample.options 0 false)
             ["a"; "b"] ∅)
  <> Panics IntegerDivideByZero.
Proof.
  assert (H : outcome (Download sortSliceSmall Sample.secondMissing 10
                         (Sample.options 0 false) ["a"; "b"] ∅)
              = Returns (Some (ErrStatus 404 "b")))
    by (vm_compute; reflexivity).
  split; [reflexivity |]. split; [vm_compute; reflexivity |].
  split; [exact H | rewrite H; discriminate].
Qed.

(** ** What a call does to the files *)

Lemma transferEvent_stagingOnly staging evs :
  Forall (transferEvent staging) evs -> Forall (stagingOnly staging) evs.
Proof.
  intros H. eapply Forall_impl; [exact H |].
  intros ev. destruct ev; simpl; auto; contradiction.
Qed.

Lemma heads_stagingOnly staging evs :
  Forall (fun ev => exists v, ev = EvHead v) evs -> Forall (stagingOnly staging) evs.
Proof. intros H. eapply Forall_impl; [exact H |]. intros ev [v ->]. exact I. Qed.

Lemma fetchFileMetadataFromSources_events w urls :
  Forall (fun ev => exists v, ev = EvHead v)
         (fst (fst (fetchFileMetadataFromSources w urls))).
Proof.
  unfold fetchFileMetadataFromSources. simpl.
  apply Forall_forall. intros ev Hev. apply list_elem_of_In in Hev.
  apply in_map_iff in Hev as (r & <- & _). eauto.
Qed.

Lemma events_wrapped evs path r :
  events (prepend evs (deferClose path r))
  = evs ++ events r ++ match outcome r with Diverges => [] | _ => [EvClose path] end.
Proof.
  unfold prepend, deferClose. simpl.
  destruct (outcome r); simpl; try reflexivity. now rewrite app_nil_r.
Qed.

(** [Download] as a whole.  Either nothing was published: whatever the
    call did left all files but the staging file alone, and the call did
    not succeed.  Or the call came to the rename, after the probes, the
    reconciliation, the creation of the staging file, the download of the
    chunks and the check of the ETag all succeeded; then the rename failed
    and its error is returned, or it moved the staging file to the
    destination and the call succeeded.  The deferred close comes last. *)
Lemma Download_spec sortSlice w fuel opts urls d :
  let r := Download sortSlice w fuel opts urls d in
  let st := stagingPath opts in
  (exists body closing,
      events r = body ++ closing /\
      Forall (stagingOnly st) body /\
      (closing = [] \/ closing = [EvClose st]) /\
      (forall q, q <> st -> files r !! q = d !! q) /\
      outcome r <> Returns None) \/
  (exists evs sfm0 rest digest,
      let r0 := downloadFileContents w fuel opts
                  (sourceUrlsSortedByEstLatency sortSlice (sfm0 :: rest))
                  (meta sfm0) st (<[st := []]> d) in
      staged w opts urls evs (sfm0 :: rest) /\
      outcome r0 = Returns None /\
      checkETag w opts (meta sfm0) st (files r0) = (digest, None) /\
      Forall (stagingOnly st) (evs ++ [EvCreate st] ++ events r0 ++ digest) /\
      ((exists msg,
           osRename w = Some msg /\
           outcome r = Returns (Some (ErrIO msg)) /\
           events r = (evs ++ [EvCreate st] ++ events r0 ++ digest)
                        ++ [EvRename st (DestFilePath opts); EvClose st] /\
           (forall q, q <> st -> files r !! q = d !! q)) \/
       (exists content,
           osRename w = None /\
           outcome r = Returns None /\
           events r = (evs ++ [EvCreate st] ++ events r0 ++ digest)
                        ++ [EvRename st (DestFilePath opts);
                            EvPrintln "Download complete:" (DestFilePath opts);
                            EvClose st] /\
           files r0 !! st = Some content /\
           files r = <[DestFilePath opts := content]> (delete st (files r0))))).
Proof.
  intros r st.
  destruct (Download_cases sortSlice w fuel opts urls d)
    as [[_ Hr] | [(evs & metas & e & Hf & Hr) | [(evs & metas & Hf & _ & Hr)
       | [(evs & metas & msg & Hf & _ & _ & Hr) | (evs & sfm0 & rest & Hst & Hr)]]]];
    fold r in Hr.
  1-4: left; rewrite Hr; simpl; eexists _, [];
    (split; [symmetry; apply app_nil_r |]);
    (split; [| split; [now left | split; [reflexivity | discriminate]]]).
  - constructor.
  - apply heads_stagingOnly.
    pose proof (fetchFileMetadataFromSources_events w urls) as H. now rewrite Hf in H.
  - apply heads_stagingOnly.
    pose proof (fetchFileMetadataFromSources_events w urls) as H. now rewrite Hf in H.
  - apply Forall_app. split; [| repeat constructor].
    apply heads_stagingOnly.
    pose proof (fetchFileMetadataFromSources_events w urls) as H. now rewrite Hf in H.
  - (* the staging file exists *)
    assert (Hevs : Forall (stagingOnly st) evs).
    { apply heads_stagingOnly. destruct Hst as (_ & Hf & _).
      pose proof (fetchFileMetadataFromSources_events w urls) as H. now rewrite Hf in H. }
    set (r0 := downloadFileContents w fuel opts
                 (sourceUrlsSortedByEstLatency sortSlice (sfm0 :: rest))
                 (meta sfm0) st (<[st := []]> d)).
    destruct (downloadFileContents_frame w fuel opts
                (sourceUrlsSortedByEstLatency sortSlice (sfm0 :: rest))
                (meta sfm0) st (<[st := []]> d)) as (Hev0 & Hother & Hsame).
    fold r0 in Hev0, Hother, Hsame.
    apply transferEvent_stagingOnly in Hev0.
    assert (Hd : forall q, q <> st -> files r0 !! q = d !! q).
    { intros q Hq. rewrite Hother by assumption. now apply lookup_insert_ne. }
    assert (Hstaged : is_Some (files r0 !! st)).
    { apply Hsame. rewrite lookup_insert_eq. now eexists. }
    pose proof (outcome_wrapped (evs ++ [EvCreate st]) st
                  (downloadAndPublish sortSlice w fuel opts (sfm0 :: rest) (meta sfm0)
                     st (<[st := []]> d))) as Hout.
    pose proof (files_wrapped (evs ++ [EvCreate st]) st
                  (downloadAndPublish sortSlice w fuel opts (sfm0 :: rest) (meta sfm0)
                     st (<[st := []]> d))) as Hfiles.
    pose proof (events_wrapped (evs ++ [EvCreate st]) st
                  (downloadAndPublish sortSlice w fuel opts (sfm0 :: rest) (meta sfm0)
                     st (<[st := []]> d))) as Hevents.
    fold st in Hr. rewrite <- Hr in Hout, Hfiles, Hevents.
    destruct (downloadAndPublish_cases sortSlice w fuel opts (sfm0 :: rest) (meta sfm0)
                st (<[st := []]> d))
      as [[Hne Hdap] | (Hok & digest & [e |] & Hchk & Hdap)];
      try fold r0 in Hne; try fold r0 in Hok; try fold r0 in Hchk; fold r0 in Hdap.
    + (* the chunks were not all downloaded *)
      left. rewrite Hdap in Hout, Hfiles, Hevents.
      exists ((evs ++ [EvCreate st]) ++ events r0),
             (match outcome r0 with Diverges => [] | _ => [EvClose st] end).
      rewrite Hout, Hfiles, Hevents, <- !app_assoc.
      repeat split; try assumption.
      * rewrite !Forall_app. repeat split; try assumption. repeat constructor.
      * destruct (outcome r0); auto.
    + (* the check failed *)
      left. rewrite Hdap in Hout, Hfiles, Hevents. simpl in Hout, Hfiles, Hevents.
      exists ((evs ++ [EvCreate st]) ++ events r0 ++ digest), [EvClose st].
      rewrite Hout, Hfiles, Hevents, <- !app_assoc.
      repeat split; try assumption; [| now right | discriminate].
      rewrite !Forall_app. repeat split; try assumption; [repeat constructor |].
      apply checkETag_spec in Hchk as [[-> | [-> | ->]] _]; repeat constructor.
    + (* the rename *)
      right. exists evs, sfm0, rest, digest. fold st r0.
      do 3 (split; [assumption |]). split.
      { rewrite !Forall_app. repeat split; try assumption; [repeat constructor |].
        apply checkETag_spec in Hchk as [[-> | [-> | ->]] _]; repeat constructor. }
      destruct Hdap as ([e |] & d' & Hren & Hdap);
        rewrite Hdap in Hout, Hfiles, Hevents; simpl in Hout, Hfiles, Hevents;
        apply rename_spec in Hren.
      * left. destruct Hren as [-> [(msg & Hmsg & ->) | Hnone]].
        2:{ rewrite Hnone in Hstaged. now destruct Hstaged. }
        exists msg. repeat split; try assumption.
        -- rewrite Hevents, <- !app_assoc. reflexivity.
        -- intros q Hq. rewrite Hfiles. now apply Hd.
      * right. destruct Hren as (Hnone & content & Hcontent & ->).
        exists content. repeat split; try assumption.
        rewrite Hevents, <- !app_assoc. reflexivity.
Qed.

Lemma stagingOnly_touches opts ev :
  stagingOnly (stagingPath opts) ev -> ~ touches (DestFilePath opts) ev.
Proof.
  pose proof (stagingPath_fresh opts) as Hfresh.
  destruct ev; simpl; intros Hs Ht; try contradiction; congruence.
Qed.

Lemma stagingOnly_not_rename staging evs a b :
  Forall (stagingOnly staging) evs -> EvRename a b ∉ evs.
Proof.
  intros Hall Hin. rewrite Forall_forall in Hall. exact (Hall _ Hin).
Qed.

(** C9.  When [Download] returns an error, the file at the destination
    path is as it was before the call, and so is every other file but the
    staging file.  Of all the call did, only the rename touches the
    destination path; and when the rename was called at all, the probes,
    the reconciliation, the creation of the staging file, the download of
    the chunks and the ETag check had succeeded before it, and the error
    returned is the error of the rename itself, which moved nothing. *)
Theorem error_leaves_destination sortSlice w fuel opts sourceUrls d e :
  outcome (Download sortSlice w fuel opts sourceUrls d) = Returns (Some e) ->
  files (Download sortSlice w fuel opts sourceUrls d) !! DestFilePath opts
  = d !! DestFilePath opts /\
  (forall q, q <> stagingPath opts ->
             files (Download sortSlice w fuel opts sourceUrls d) !! q = d !! q) /\
  (forall ev, ev ∈ events (Download sortSlice w fuel opts sourceUrls d) ->
              touches (DestFilePath opts) ev ->
              ev = EvRename (stagingPath opts) (DestFilePath opts)) /\
  (forall a b, EvRename a b ∈ events (Download sortSlice w fuel opts sourceUrls d) ->
     exists evs sfm0 rest digest msg,
       staged w opts sourceUrls evs (sfm0 :: rest) /\
       outcome (downloadFileContents w fuel opts
                  (sourceUrlsSortedByEstLatency sortSlice (sfm0 :: rest)) (meta sfm0)
                  (stagingPath opts) (<[stagingPath opts := []]> d)) = Returns None /\
       checkETag w opts (meta sfm0) (stagingPath opts)
         (files (downloadFileContents w fuel opts
                   (sourceUrlsSortedByEstLatency sortSlice (sfm0 :: rest)) (meta sfm0)
                   (stagingPath opts) (<[stagingPath opts := []]> d)))
       = (digest, None) /\
       osRename w = Some msg /\ e = ErrIO msg).
Proof.
  intros Hout.
  assert (Hdest : DestFilePath opts <> stagingPath opts)
    by (intros H; symmetry in H; now apply stagingPath_fresh in H).
  destruct (Download_spec sortSlice w fuel opts sourceUrls d)
    as [(body & closing & Hev & Hbody & Hclosing & Hfiles & _)
       | (evs & sfm0 & rest & digest & Hst & Hok & Hchk & Hpre
          & [(msg & Hren & Hout' & Hev & Hfiles) | (content & _ & Hout' & _)])].
  - (* nothing was published *)
    rewrite Hev. split; [now apply Hfiles |]. split; [assumption |]. split.
    + intros ev Hin Ht. exfalso. apply elem_of_app in Hin as [Hin | Hin].
      * rewrite Forall_forall in Hbody.
        exact (stagingOnly_touches opts ev (Hbody ev Hin) Ht).
      * destruct Hclosing as [-> | ->]; [by apply elem_of_nil in Hin |].
        apply list_elem_of_singleton in Hin as ->. exact Ht.
    + intros a b Hin. exfalso. apply elem_of_app in Hin as [Hin | Hin].
      * exact (stagingOnly_not_rename _ _ a b Hbody Hin).
      * destruct Hclosing as [-> | ->]; [by apply elem_of_nil in Hin |].
        apply list_elem_of_singleton in Hin. discriminate.
  - (* the rename failed *)
    rewrite Hout' in Hout. injection Hout as <-.
    rewrite Hev. split; [now apply Hfiles |]. split; [assumption |]. split.
    + intros ev Hin Ht. apply elem_of_app in Hin as [Hin | Hin].
      * exfalso. rewrite Forall_forall in Hpre.
        exact (stagingOnly_touches opts ev (Hpre ev Hin) Ht).
      * apply elem_of_cons in Hin as [-> | Hin]; [reflexivity |].
        apply list_elem_of_singleton in Hin as ->. contradiction.
    + intros a b _. exists evs, sfm0, rest, digest, msg.
      split; [exact Hst |]. split; [exact Hok |]. split; [exact Hchk |].
      split; [exact Hren | reflexivity].
  - rewrite Hout' in Hout. discriminate.
Qed.

Lemma error_leaves_destination_witness :
  outcome (Download sortSliceSmall (Sample.withRename (Some "permission denied") Sample.world)
             10 (Sample.options 2 false) ["a"; "b"] (<["out" := [x00]]> ∅))
  = Returns (Some (ErrIO "permission denied")) /\
  files (Download sortSliceSmall (Sample.withRename (Some "permission denied") Sample.world)
           10 (Sample.options 2 false) ["a"; "b"] (<["out" := [x00]]> ∅)) !! "out"
  = Some [x00].
Proof.
  assert (Hout : outcome (Download sortSliceSmall
                            (Sample.withRename (Some "permission denied") Sample.world)
                            10 (Sample.options 2 false) ["a"; "b"] (<["out" := [x00]]> ∅))
                 = Returns (Some (ErrIO "permission denied")))
    by (vm_compute; reflexivity).
  split; [exact Hout |].
  etransitivity.
  - exact (proj1 (error_leaves_destination sortSliceSmall _ 10 (Sample.options 2 false)
                    ["a"; "b"] (<["out" := [x00]]> ∅) _ Hout)).
  - apply lookup_insert_eq.
Defined.

(** ** The order of close, digest and rename *)

Lemma happensBefore_skip isA isB l1 l2 :
  Forall (fun ev => isA ev = false) l1 ->
  happensBefore isA isB (l1 ++ l2) = happensBefore isA isB l2.
Proof.
  induction 1 as [| ev l1 Hev _ IH]; simpl; [reflexivity |]. now rewrite Hev, IH.
Qed.

Lemma happensBefore_suffix isA isB l1 l2 :
  happensBefore isA isB l2 = true -> happensBefore isA isB (l1 ++ l2) = true.
Proof.
  intros H. induction l1 as [| ev l1 IH]; simpl; [assumption |].
  rewrite IH. apply orb_true_r.
Qed.

Lemma stagingOnly_quiet staging evs :
  Forall (stagingOnly staging) evs ->
  Forall (fun ev => isClose ev = false) evs /\ Forall (fun ev => isRename ev = false) evs.
Proof.
  intros H. split; (eapply Forall_impl; [exact H |]);
    intros ev; destruct ev; simpl; auto; contradiction.
Qed.

Lemma checkETag_passed w opts fm path d evs :
  checkETag w opts fm path d = (evs, None) ->
  (evs = [] /\ CheckETag opts && (0 <? String.length (eTag fm))%nat = false) \/
  (evs = [EvStat path; EvRead path] /\
   CheckETag opts && (0 <? String.length (eTag fm))%nat = true).
Proof.
  unfold checkETag, getMD5Hash.
  destruct (_ && _).
  - destruct (fileStat w); [discriminate |]. destruct (fileRead w); [discriminate |].
    intros [= <- _]. now right.
  - intros [= <-]. now left.
Qed.

(** C8 (amended).  In every successful call the close of the staging file
    is the last thing the call does: it comes after the rename of the
    staging file onto the destination path and, when the ETag is checked,
    after the reading of the file for the digest; no close comes before
    either of them. *)
Theorem close_comes_last sortSlice w fuel opts sourceUrls d :
  outcome (Download sortSlice w fuel opts sourceUrls d) = Returns None ->
  exists before digest,
    events (Download sortSlice w fuel opts sourceUrls d)
    = before ++ digest
        ++ [EvRename (stagingPath opts) (DestFilePath opts);
            EvPrintln "Download complete:" (DestFilePath opts);
            EvClose (stagingPath opts)] /\
    Forall (fun ev => isClose ev = false) (before ++ digest) /\
    (digest = [] \/ digest = [EvStat (stagingPath opts); EvRead (stagingPath opts)]) /\
    happensBefore isRename isClose (events (Download sortSlice w fuel opts sourceUrls d))
    = true /\
    happensBefore isClose isRename (events (Download sortSlice w fuel opts sourceUrls d))
    = false /\
    happensBefore isClose isRead (events (Download sortSlice w fuel opts sourceUrls d))
    = false /\
    (digest <> [] ->
     happensBefore isRead isClose (events (Download sortSlice w fuel opts sourceUrls d))
     = true).
Proof.
  intros Hout.
  destruct (Download_spec sortSlice w fuel opts sourceUrls d)
    as [(body & closing & _ & _ & _ & _ & Hne)
       | (evs & sfm0 & rest & digest & Hst & Hok & Hchk & Hpre
          & [(msg & _ & Hout' & _) | (content & _ & _ & Hev & _)])].
  - contradiction.
  - rewrite Hout' in Hout. discriminate.
  - set (r0 := downloadFileContents w fuel opts
                 (sourceUrlsSortedByEstLatency sortSlice (sfm0 :: rest)) (meta sfm0)
                 (stagingPath opts) (<[stagingPath opts := []]> d)) in *.
    exists (evs ++ [EvCreate (stagingPath opts)] ++ events r0), digest.
    assert (Hquiet : Forall (fun ev => isClose ev = false)
                       ((evs ++ [EvCreate (stagingPath opts)] ++ events r0) ++ digest)).
    { rewrite <- !app_assoc. now apply stagingOnly_quiet in Hpre as [? _]. }
    assert (Hshape : events (Download sortSlice w fuel opts sourceUrls d)
                     = ((evs ++ [EvCreate (stagingPath opts)] ++ events r0) ++ digest)
                         ++ [EvRename (stagingPath opts) (DestFilePath opts);
                             EvPrintln "Download complete:" (DestFilePath opts);
                             EvClose (stagingPath opts)]).
    { rewrite Hev, <- !app_assoc. reflexivity. }
    assert (Hdigest : digest = [] \/
                      digest = [EvStat (stagingPath opts); EvRead (stagingPath opts)]).
    { apply checkETag_passed in Hchk as [[-> _] | [-> _]]; auto. }
    split; [rewrite Hshape, <- !app_assoc; reflexivity |].
    split; [assumption |]. split; [assumption |].
    rewrite Hshape. repeat split.
    + now apply happensBefore_suffix.
    + now rewrite happensBefore_skip.
    + now rewrite happensBefore_skip.
    + intros Hrun. destruct Hdigest as [-> | ->]; [now destruct Hrun |].
      rewrite <- !app_assoc. do 3 apply happensBefore_suffix. reflexivity.
Qed.

Lemma close_comes_last_witness :
  outcome (Download sortSliceSmall Sample.rightTag 10 (Sample.options 2 true)
             ["a"; "b"] ∅) = Returns None /\
  happensBefore isRename isClose
    (events (Download sortSliceSmall Sample.rightTag 10 (Sample.options 2 true)
               ["a"; "b"] ∅)) = true.
Proof.
  assert (Hout : outcome (Download sortSliceSmall Sample.rightTag 10
                            (Sample.options 2 true) ["a"; "b"] ∅) = Returns None)
    by (vm_compute; reflexivity).
  split; [exact Hout |].
  destruct (close_comes_last sortSliceSmall Sample.rightTag 10 (Sample.options 2 true)
              ["a"; "b"] ∅ Hout) as (before & digest & _ & _ & _ & H & _).
  exact H.
Defined.

(** C8, the claim as stated fails: in a successful call with the ETag
    checked, the staging file is read for the digest, then renamed, and
    closed only after that. *)
Lemma close_follows_rename :
  outcome (Download sortSliceSmall Sample.rightTag 10 (Sample.options 2 true)
             ["a"; "b"] ∅) = Returns None /\
  skipn 9 (events (Download sortSliceSmall Sample.rightTag 10 (Sample.options 2 true)
                      ["a"; "b"] ∅))
  = [EvStat "out.download"; EvRead "out.download"; EvRename "out.download" "out";
     EvPrintln "Download complete:" "out"; EvClose "out.download"] /\
  happensBefore isClose isRename
    (events (Download sortSliceSmall Sample.rightTag 10 (Sample.options 2 true)
               ["a"; "b"] ∅)) = false /\
  happensBefore isClose isRead
    (events (Download sortSliceSmall Sample.rightTag 10 (Sample.options 2 true)
               ["a"; "b"] ∅)) = false.
Proof. vm_compute. repeat split. Qed.

(** ** The integrity check *)

Lemma hexEncode_lowercase bs :
  Forall (fun ch => In ch (list_ascii_of_string "0123456789abcdef"))
         (list_ascii_of_string (hexEncode bs)).
Proof.
  assert (Hdigit : forall n, 0 <= n < 16 ->
            In (hexDigit n) (list_ascii_of_string "0123456789abcdef")).
  { intros n Hn. unfold hexDigit. apply nth_In. simpl. lia. }
  induction bs as [| b bs IH]; simpl; [constructor |].
  assert (Hb : 0 <= MD5.byteZ b < 256).
  { unfold MD5.byteZ. pose proof (Byte.to_N_bounded b). lia. }
  constructor; [| constructor; [| exact IH]]; apply Hdigit.
  - split; [apply Z.div_pos; lia | apply Z.div_lt_upper_bound; lia].
  - apply Z.mod_pos_bound. lia.
Qed.

(** The digest of the empty file matches its MD5 in lower case and no
    other spelling of it. *)
Example empty_file_lower_case :
  checkETag Sample.world (Sample.options 2 true)
    {| size := 0; contentType := EmptyString; eTag := "d41d8cd98f00b204e9800998ecf8427e" |}
    "out.download" (<["out.download" := []]> ∅)
  = ([EvStat "out.download"; EvRead "out.download"], None).
Proof. vm_compute. reflexivity. Qed.

Example empty_file_upper_case :
  checkETag Sample.world (Sample.options 2 true)
    {| size := 0; contentType := EmptyString; eTag := "D41D8CD98F00B204E9800998ECF8427E" |}
    "out.download" (<["out.download" := []]> ∅)
  = ([EvStat "out.download"; EvRead "out.download"], Some ErrETagMismatch).
Proof. vm_compute. reflexivity. Qed.

Lemma littleEndian_length n z : length (MD5.littleEndian n z) = n.
Proof. revert z. induction n as [| n IH]; intros z; simpl; [reflexivity | now rewrite IH]. Qed.

Lemma MD5_sum_length msg : length (MD5.sum msg) = 16%nat.
Proof.
  unfold MD5.sum. destruct (MD5.blocks _ _ _) as [[[a b] c] d].
  now rewrite !length_app, !littleEndian_length.
Qed.

Lemma hexEncode_length bs : String.length (hexEncode bs) = (2 * length bs)%nat.
Proof. induction bs as [| b bs IH]; simpl; [reflexivity | rewrite IH; lia]. Qed.

Lemma readOnce_length w content : length (readOnce w content) = length content.
Proof.
  unfold readOnce. rewrite length_app, length_take, repeat_length. lia.
Qed.

(** A read that fills the buffer gives the contents of the file. *)
Lemma readOnce_full w content :
  (length content <= fileReadCount w (length content))%nat ->
  readOnce w content = content.
Proof.
  intros Hfull. unfold readOnce.
  replace (Nat.min (length content) (Nat.max 1 (fileReadCount w (length content))))
    with (length content) by lia.
  rewrite Nat.sub_diag, firstn_all. apply app_nil_r.
Qed.

(** The ETag check as the code makes it.  It runs exactly when [CheckETag]
    is set and the adopted ETag is not empty.  When it runs and the staging
    file can be read, the lower-case hexadecimal MD5 of the buffer that one
    [Read] of the file filled is compared with the ETag for equality of
    strings; if they differ, [Download] returns [ErrETagMismatch]; and
    whenever [Download] returns [ErrETagMismatch] the rename was not called
    and the file at the destination path is as it was. *)
Lemma integrity_check sortSlice w fuel opts sourceUrls d :
  (forall fm path d',
      CheckETag opts = false \/ eTag fm = EmptyString ->
      checkETag w opts fm path d' = ([], None)) /\
  (forall fm path d',
      CheckETag opts = true -> eTag fm <> EmptyString ->
      (exists more err, checkETag w opts fm path d' = (EvStat path :: more, err)) /\
      (fileStat w = None -> fileRead w = None ->
       checkETag w opts fm path d'
       = ([EvStat path; EvRead path],
          if String.eqb (hexEncode (MD5.sum (readOnce w (default [] (d' !! path)))))
                        (eTag fm)
          then None else Some ErrETagMismatch))) /\
  (forall evs sfm0 rest,
      staged w opts sourceUrls evs (sfm0 :: rest) ->
      outcome (downloadFileContents w fuel opts
                 (sourceUrlsSortedByEstLatency sortSlice (sfm0 :: rest)) (meta sfm0)
                 (stagingPath opts) (<[stagingPath opts := []]> d)) = Returns None ->
      CheckETag opts = true -> eTag (meta sfm0) <> EmptyString ->
      fileStat w = None -> fileRead w = None ->
      hexEncode (MD5.sum (readOnce w (default []
        (files (downloadFileContents w fuel opts
                  (sourceUrlsSortedByEstLatency sortSlice (sfm0 :: rest)) (meta sfm0)
                  (stagingPath opts) (<[stagingPath opts := []]> d))
         !! stagingPath opts))))
      <> eTag (meta sfm0) ->
      outcome (Download sortSlice w fuel opts sourceUrls d)
      = Returns (Some ErrETagMismatch)) /\
  (outcome (Download sortSlice w fuel opts sourceUrls d) = Returns (Some ErrETagMismatch) ->
   (forall a b, EvRename a b ∉ events (Download sortSlice w fuel opts sourceUrls d)) /\
   files (Download sortSlice w fuel opts sourceUrls d) !! DestFilePath opts
   = d !! DestFilePath opts).
Proof.
  assert (Hactive : forall fm path d',
             CheckETag opts = true -> eTag fm <> EmptyString ->
             fileStat w = None -> fileRead w = None ->
             checkETag w opts fm path d'
             = ([EvStat path; EvRead path],
                if String.eqb (hexEncode (MD5.sum (readOnce w (default [] (d' !! path)))))
                              (eTag fm)
                then None else Some ErrETagMismatch)).
  { intros fm path d' Hc Ht Hs Hr. rewrite checkETag_active by assumption.
    unfold getMD5Hash. now rewrite Hs, Hr. }
  split; [intros fm path d'; apply checkETag_inactive |].
  split; [| split].
  - intros fm path d' Hc Ht. split; [| now apply Hactive].
    rewrite checkETag_active by assumption. unfold getMD5Hash.
    destruct (fileStat w); [eauto |]. destruct (fileRead w); eauto.
  - intros evs sfm0 rest Hst Hok Hc Ht Hs Hr Hneq.
    rewrite (Download_staged _ _ _ _ _ _ _ _ _ Hst), outcome_wrapped.
    unfold downloadAndPublish. rewrite Hok, Hactive by assumption.
    apply String.eqb_neq in Hneq. now rewrite Hneq.
  - intros Hout.
    assert (Hdest : DestFilePath opts <> stagingPath opts)
      by (intros H; symmetry in H; now apply stagingPath_fresh in H).
    destruct (Download_spec sortSlice w fuel opts sourceUrls d)
      as [(body & closing & Hev & Hbody & Hclosing & Hfiles & _)
         | (evs & sfm0 & rest & digest & _ & _ & _ & _
            & [(msg & _ & Hout' & _) | (content & _ & Hout' & _)])].
    + split; [| now apply Hfiles].
      intros a b Hin. rewrite Hev in Hin. apply elem_of_app in Hin as [Hin | Hin].
      * exact (stagingOnly_not_rename _ _ a b Hbody Hin).
      * destruct Hclosing as [-> | ->]; [by apply elem_of_nil in Hin |].
        apply list_elem_of_singleton in Hin. discriminate.
    + rewrite Hout' in Hout. discriminate.
    + rewrite Hout' in Hout. discriminate.
Qed.

(** C6.  [getMD5Hash] makes one call of [file.Read] and drops the number of
    bytes it delivered, so the digest that [Download] compares with the
    ETag is that of the buffer, not that of the staged file.  Take a call
    whose chunks were all written, with the check switched on and an ETag
    that is the lower-case hexadecimal MD5 of the staged file.  When the
    read fills the buffer the check passes; when the read is short and the
    buffer, zero from where the read stopped, has another digest,
    [Download] returns [ErrETagMismatch] and the file is not published. *)
Theorem short_read_fails_intact_file
    sortSlice w fuel opts sourceUrls d evs sfm0 rest content :
  staged w opts sourceUrls evs (sfm0 :: rest) ->
  outcome (downloadFileContents w fuel opts
             (sourceUrlsSortedByEstLatency sortSlice (sfm0 :: rest)) (meta sfm0)
             (stagingPath opts) (<[stagingPath opts := []]> d)) = Returns None ->
  files (downloadFileContents w fuel opts
           (sourceUrlsSortedByEstLatency sortSlice (sfm0 :: rest)) (meta sfm0)
           (stagingPath opts) (<[stagingPath opts := []]> d))
    !! stagingPath opts = Some content ->
  CheckETag opts = true ->
  eTag (meta sfm0) = hexEncode (MD5.sum content) ->
  fileStat w = None -> fileRead w = None ->
  ((length content <= fileReadCount w (length content))%nat ->
   outcome (Download sortSlice w fuel opts sourceUrls d)
   <> Returns (Some ErrETagMismatch)) /\
  (hexEncode (MD5.sum (readOnce w content)) <> hexEncode (MD5.sum content) ->
   outcome (Download sortSlice w fuel opts sourceUrls d) = Returns (Some ErrETagMismatch) /\
   (forall a b, EvRename a b ∉ events (Download sortSlice w fuel opts sourceUrls d)) /\
   files (Download sortSlice w fuel opts sourceUrls d) !! DestFilePath opts
   = d !! DestFilePath opts).
Proof.
  intros Hst Hok Hfile Hc Htag Hs Hr.
  assert (Hne : eTag (meta sfm0) <> EmptyString).
  { intros Hnil. apply (f_equal String.length) in Hnil.
    rewrite Htag, hexEncode_length, MD5_sum_length in Hnil. discriminate. }
  destruct (integrity_check sortSlice w fuel opts sourceUrls d)
    as (_ & Hrun & Hmismatch & Hkept).
  split.
  - intros Hfull.
    rewrite (Download_staged _ _ _ _ _ _ _ _ _ Hst), outcome_wrapped.
    unfold downloadAndPublish. rewrite Hok.
    rewrite (proj2 (Hrun (meta sfm0) (stagingPath opts) _ Hc Hne) Hs Hr).
    rewrite Hfile. cbn [from_option id].
    rewrite (readOnce_full _ _ Hfull), <- Htag, String.eqb_refl.
    destruct (rename w (stagingPath opts) (DestFilePath opts) _) as [[e |] d'] eqn:Hren;
      [| discriminate].
    apply rename_spec in Hren as [_ [(msg & _ & ->) | Hnone]]; [discriminate |].
    rewrite Hfile in Hnone. discriminate.
  - intros Hshort.
    assert (Hout : outcome (Download sortSlice w fuel opts sourceUrls d)
                   = Returns (Some ErrETagMismatch)).
    { apply (Hmismatch _ _ _ Hst Hok Hc Hne Hs Hr).
      rewrite Hfile. cbn [from_option id]. now rewrite Htag. }
    split; [exact Hout | exact (Hkept Hout)].
Qed.

Lemma short_read_fails_intact_file_witness :
  staged Sample.shortRead (Sample.options 2 true) ["a"; "b"] [EvHead "a"; EvHead "b"]
    [Sample.tagged "a" "781e5e245d69b566979b86e28d23f2c7";
     Sample.tagged "b" "781e5e245d69b566979b86e28d23f2c7"] /\
  files (downloadFileContents Sample.shortRead 10 (Sample.options 2 true) ["a"; "b"]
           (meta (Sample.tagged "a" "781e5e245d69b566979b86e28d23f2c7"))
           "out.download" (<["out.download" := []]> ∅))
    !! "out.download" = Some Sample.contents /\
  hexEncode (MD5.sum Sample.contents) = "781e5e245d69b566979b86e28d23f2c7" /\
  outcome (Download sortSliceSmall Sample.shortRead 10 (Sample.options 2 true)
             ["a"; "b"] ∅) = Returns (Some ErrETagMismatch) /\
  outcome (Download sortSliceSmall Sample.rightTag 10 (Sample.options 2 true)
             ["a"; "b"] ∅) <> Returns (Some ErrETagMismatch).
Proof.
  assert (Hst : forall w, httpHead w = httpHead Sample.rightTag ->
                  probeElapsed w = probeElapsed Sample.rightTag ->
                  probeFinish w = probeFinish Sample.rightTag ->
                  osCreate w = None ->
                  staged w (Sample.options 2 true) ["a"; "b"]
                    [EvHead "a"; EvHead "b"]
                    [Sample.tagged "a" "781e5e245d69b566979b86e28d23f2c7";
                     Sample.tagged "b" "781e5e245d69b566979b86e28d23f2c7"]).
  { intros w Hh He Hf Hcr. unfold staged, fetchFileMetadataFromSources, probe.
    rewrite Hh, He, Hf.
    split; [discriminate |]. split; [vm_compute; reflexivity |].
    split; [vm_compute; reflexivity | exact Hcr]. }
  pose proof (Hst Sample.shortRead eq_refl eq_refl eq_refl eq_refl) as Hshort.
  pose proof (Hst Sample.rightTag eq_refl eq_refl eq_refl eq_refl) as Hright.
  split; [exact Hshort |].
  split; [vm_compute; reflexivity |].
  split; [vm_compute; reflexivity |].
  split.
  - apply (proj2 (short_read_fails_intact_file sortSliceSmall Sample.shortRead 10
                    (Sample.options 2 true) ["a"; "b"] ∅ _ _ _ Sample.contents Hshort
                    ltac:(vm_compute; reflexivity) ltac:(vm_compute; reflexivity)
                    eq_refl ltac:(vm_compute; reflexivity) eq_refl eq_refl)).
    vm_compute. discriminate.
  - apply (proj1 (short_read_fails_intact_file sortSliceSmall Sample.rightTag 10
                    (Sample.options 2 true) ["a"; "b"] ∅ _ _ _ Sample.contents Hright
                    ltac:(vm_compute; reflexivity) ltac:(vm_compute; reflexivity)
                    eq_refl ltac:(vm_compute; reflexivity) eq_refl eq_refl)).
    vm_compute. lia.
Defined.

(** * Further properties of the code *)

(** ** The plan of the chunk loop *)

Lemma chunkLoop_length fuel : forall fsize chunkSize nUrls off i cs,
  1 <= chunkSize -> 0 <= off < fsize + chunkSize ->
  fsize + chunkSize <= Int64.maxInt ->
  chunkLoop fuel fsize chunkSize nUrls off i = Returns cs ->
  Z.of_nat (length cs) = (fsize - off + chunkSize - 1) / chunkSize.
Proof.
  induction fuel as [| fuel IH]; intros fsize chunkSize nUrls off i cs Hc Hoff Hmax;
    simpl; destruct (Z.ltb_spec off fsize) as [Hlt | Hge]; try discriminate.
  - intros [= <-]. simpl. symmetry. apply Z.div_small. lia.
  - destruct (Z.eqb_spec nUrls 0); [discriminate |].
    rewrite maxInt_value in Hmax.
    assert (Hadd : Int64.add off chunkSize = off + chunkSize).
    { apply add_exact. unfold Int64.inRange. rewrite maxInt_value, minInt_value. lia. }
    rewrite Hadd.
    destruct (chunkLoop fuel fsize chunkSize nUrls (off + chunkSize) (Int64.add i 1))
      as [cs' | q |] eqn:Hrec; try discriminate.
    intros [= <-].
    apply IH in Hrec; try rewrite maxInt_value; try lia.
    simpl length. rewrite Nat2Z.inj_succ, Hrec.
    replace (fsize - off + chunkSize - 1)
      with ((fsize - (off + chunkSize) + chunkSize - 1) + 1 * chunkSize) by lia.
    rewrite Z.div_add by lia. lia.
  - intros [= <-]. simpl. symmetry. apply Z.div_small. lia.
Qed.

(** X1.  For a file of [S] bytes and [n] connections with [1 <= n <= S]
    (and no wrap-around) the loop ends and plans [ceil(S / (S/n))] chunks;
    that is at least [n] and at most [2n - 1], and exactly [n] only when
    [n] divides [S].  The chunk in position [k] starts at [k * (S/n)], and
    the last byte of the range it asks for is [min((k+1) * (S/n), S)]: the
    first byte of the next chunk, or one past the end of the file. *)
Theorem plan_shape fuel connections fsize nUrls :
  planSafe connections fsize -> 0 < nUrls -> (Z.to_nat fsize <= fuel)%nat ->
  exists chunks,
    planChunks fuel connections fsize nUrls = Returns chunks /\
    Z.of_nat (length chunks)
    = (fsize + fsize / connections - 1) / (fsize / connections) /\
    connections <= Z.of_nat (length chunks) <= 2 * connections - 1 /\
    (Z.of_nat (length chunks) = connections <-> fsize mod connections = 0) /\
    forall k c, chunks !! k = Some c ->
      offset c = Z.of_nat k * (fsize / connections) /\
      limit c = Z.min ((Z.of_nat k + 1) * (fsize / connections)) fsize /\
      0 <= offset c < limit c /\ limit c <= fsize.
Proof.
  intros Hsafe Hm Hfuel.
  destruct (planChunks_safe fuel _ _ _ Hsafe Hm Hfuel) as (chunks & Hplan & Hat).
  exists chunks. split; [assumption |].
  destruct Hsafe as [Hn Hmax].
  assert (Hq : 1 <= fsize / connections) by (apply Z.div_le_lower_bound; lia).
  assert (Hlen : Z.of_nat (length chunks)
                 = (fsize + fsize / connections - 1) / (fsize / connections)).
  { pose proof Hplan as Hloop. unfold planChunks, Int64.ofUint, Int64.quo in Hloop.
    rewrite maxInt_value in Hmax.
    assert (Hq' : fsize / connections <= fsize) by (apply Z.div_le_upper_bound; nia).
    rewrite (wrap64_id connections) in Hloop
      by (unfold Int64.inRange; rewrite maxInt_value, minInt_value; lia).
    destruct (Z.eqb_spec connections 0); [lia |].
    rewrite Z.quot_div_nonneg in Hloop by lia.
    rewrite (wrap64_id (fsize / connections)) in Hloop
      by (unfold Int64.inRange; rewrite maxInt_value, minInt_value; lia).
    apply chunkLoop_length in Hloop; try rewrite maxInt_value; try lia.
    rewrite Hloop. f_equal. lia. }
  split; [exact Hlen |].
  pose proof (Z.div_mod fsize connections ltac:(lia)) as Hdm.
  pose proof (Z.mod_pos_bound fsize connections ltac:(lia)) as Hr.
  set (base := fsize / connections) in *. set (r := fsize mod connections) in *.
  assert (Hlow : connections <= (fsize + base - 1) / base).
  { apply Z.div_le_lower_bound; nia. }
  assert (Hup : (fsize + base - 1) / base <= 2 * connections - 1).
  { apply Z.lt_succ_r. apply Z.div_lt_upper_bound; nia. }
  split; [lia |]. split.
  - rewrite Hlen. split.
    + intros Heq.
      assert (Hle : fsize + base - 1 < base * (connections + 1)).
      { rewrite <- Heq.
        pose proof (Z.mul_succ_div_gt (fsize + base - 1) base ltac:(lia)). lia. }
      nia.
    + intros Hz. rewrite Hz in Hdm.
      replace (fsize + base - 1) with ((base - 1) + connections * base) by lia.
      rewrite Z.div_add by lia. rewrite Z.div_small by lia. lia.
  - intros k c Hk. destruct (Hat k c Hk) as (_ & Hoff & Hlim & _ & Hin).
    rewrite Z.add_0_l in Hoff. fold base in Hoff, Hlim.
    split; [exact Hoff |]. split; [rewrite Hlim, Hoff; f_equal; lia |].
    rewrite Hlim. lia.
Qed.

Lemma plan_shape_witness :
  planSafe 3 10 /\ 0 < 2 /\ (Z.to_nat 10 <= 10)%nat /\
  exists chunks, planChunks 10 3 10 2 = Returns chunks /\ length chunks = 4%nat.
Proof.
  assert (Hsafe : planSafe 3 10) by (vm_compute; intuition discriminate).
  assert (Hm : 0 < 2) by lia.
  assert (Hfuel : (Z.to_nat 10 <= 10)%nat) by (vm_compute; lia).
  do 3 (split; [assumption |]).
  destruct (plan_shape 10 3 10 2 Hsafe Hm Hfuel) as (chunks & Hplan & Hlen & _).
  exists chunks. split; [exact Hplan |].
  apply Nat2Z.inj. rewrite Hlen. reflexivity.
Defined.

Lemma planChunks_empty_file fuel connections nUrls :
  1 <= connections < Int64.modulus ->
  planChunks fuel connections 0 nUrls = Returns [].
Proof.
  intros Hn. unfold planChunks.
  destruct (Z.eqb_spec (Int64.ofUint connections) 0) as [Hz | _].
  { apply ofUint_zero in Hz; lia. }
  now destruct fuel.
Qed.

(** X2.  A file of no bytes: whatever the number of connections (at least
    1) and the fuel, no chunk is planned and no GET is sent; when the ETag
    check passes and the rename works, [Download] succeeds and leaves an
    empty file at the destination path and no staging file. *)
Theorem empty_file_published sortSlice w fuel opts sourceUrls d evs sfm0 rest digest :
  staged w opts sourceUrls evs (sfm0 :: rest) ->
  size (meta sfm0) = 0 ->
  1 <= Connections opts < Int64.modulus ->
  checkETag w opts (meta sfm0) (stagingPath opts) (<[stagingPath opts := []]> d)
  = (digest, None) ->
  osRename w = None ->
  outcome (Download sortSlice w fuel opts sourceUrls d) = Returns None /\
  events (Download sortSlice w fuel opts sourceUrls d)
  = evs ++ [EvCreate (stagingPath opts)] ++ digest
      ++ [EvRename (stagingPath opts) (DestFilePath opts);
          EvPrintln "Download complete:" (DestFilePath opts);
          EvClose (stagingPath opts)] /\
  files (Download sortSlice w fuel opts sourceUrls d)
  = <[DestFilePath opts := []]> (delete (stagingPath opts) d).
Proof.
  intros Hst Hsize Hn Hchk Hren.
  assert (Hr0 : downloadFileContents w fuel opts
                  (sourceUrlsSortedByEstLatency sortSlice (sfm0 :: rest)) (meta sfm0)
                  (stagingPath opts) (<[stagingPath opts := []]> d)
                = {| outcome := Returns None; events := [];
                     files := <[stagingPath opts := []]> d |}).
  { unfold downloadFileContents. rewrite Hsize, planChunks_empty_file by assumption.
    reflexivity. }
  assert (Hdap : downloadAndPublish sortSlice w fuel opts (sfm0 :: rest) (meta sfm0)
                   (stagingPath opts) (<[stagingPath opts := []]> d)
                 = returns (digest ++ [EvRename (stagingPath opts) (DestFilePath opts);
                                       EvPrintln "Download complete:" (DestFilePath opts)])
                     (<[DestFilePath opts := []]> (delete (stagingPath opts) d)) None).
  { unfold downloadAndPublish. rewrite Hr0. cbn [outcome events files].
    rewrite Hchk. unfold rename. rewrite Hren, lookup_insert_eq, delete_insert_eq.
    reflexivity. }
  rewrite (Download_staged _ _ _ _ _ _ _ _ _ Hst).
  rewrite outcome_wrapped, events_wrapped, files_wrapped, Hdap. cbn [outcome events files returns].
  repeat split. now rewrite <- !app_assoc.
Qed.

Lemma empty_file_published_witness :
  outcome (Download sortSliceSmall
             (Sample.serving [] (fun _ => Sample.headOk 0 "text/plain" EmptyString "bytes"))
             0 (Sample.options 5 false) ["a"] ∅) = Returns None /\
  files (Download sortSliceSmall
           (Sample.serving [] (fun _ => Sample.headOk 0 "text/plain" EmptyString "bytes"))
           0 (Sample.options 5 false) ["a"] ∅) !! "out" = Some [].
Proof.
  assert (Hst : staged
                  (Sample.serving [] (fun _ => Sample.headOk 0 "text/plain" EmptyString "bytes"))
                  (Sample.options 5 false) ["a"] [EvHead "a"]
                  [{| meta := {| size := 0; contentType := EmptyString; eTag := EmptyString |};
                      url := "a"; estLatency := 5000000 |}]).
  { repeat split; [discriminate | vm_compute; reflexivity ..]. }
  destruct (empty_file_published sortSliceSmall _ 0 (Sample.options 5 false) ["a"] ∅
              _ _ _ [] Hst eq_refl) as (Hout & _ & Hfiles).
  - vm_compute. intuition discriminate.
  - reflexivity.
  - reflexivity.
  - split; [exact Hout |]. rewrite Hfiles. apply lookup_insert_eq.
Defined.

(** ** Failover *)

Lemma filter_out_key {B : Type} (l : list (nat * B)) s x :
  NoDup (map fst l) -> (s, x) ∈ l ->
  Permutation ((s, x) :: List.filter (fun ju => negb (fst ju =? s)%nat) l) l.
Proof.
  induction l as [| [j y] l IH]; intros Hnd Hin; [by apply elem_of_nil in Hin |].
  simpl in Hnd. apply NoDup_cons in Hnd as [Hj Hnd]. simpl.
  apply elem_of_cons in Hin as [[= <- <-] | Hin].
  - rewrite Nat.eqb_refl. simpl. constructor.
    rewrite forallb_filter_id; [reflexivity |].
    apply forallb_forall. intros [j' y'] Hin'. simpl.
    destruct (Nat.eqb_spec j' s) as [-> | _]; [| reflexivity].
    exfalso. apply Hj. apply list_elem_of_In. apply in_map_iff. now exists (s, y').
  - destruct (Nat.eqb_spec j s) as [-> | Hne].
    + exfalso. apply Hj. apply list_elem_of_In, in_map_iff. exists (s, x).
      split; [reflexivity | now apply list_elem_of_In].
    + simpl. rewrite perm_swap. constructor. now apply IH.
Qed.

Lemma slots_NoDup {B : Type} (l : list B) : forall i,
  NoDup (map fst (imap (fun n u => ((i + n)%nat, u)) l)).
Proof.
  induction l as [| u l IH]; intros i; simpl; [constructor |].
  assert (Himap : imap ((fun n u => ((i + n)%nat, u)) ∘ S) l
                  = imap (fun n u => ((S i + n)%nat, u)) l).
  { apply imap_ext. intros n x _. simpl. f_equal. lia. }
  rewrite Himap. apply NoDup_cons. split; [| apply IH].
  intros Hin. apply list_elem_of_In, in_map_iff in Hin as ([j y] & Hj & Hin).
  apply list_elem_of_In, elem_of_lookup_imap in Hin as (n & z & [= -> ->] & _).
  simpl in Hj. lia.
Qed.

(** The attempts of a chunk visit every slot of the list exactly once. *)
Lemma attempts_perm urls s u0 :
  urls !! s = Some u0 ->
  Permutation ((s, u0) :: otherSources urls s) (imap pair urls).
Proof.
  intros Hs. unfold otherSources. apply filter_out_key.
  - exact (slots_NoDup urls 0).
  - apply elem_of_lookup_imap. now exists s, u0.
Qed.

Lemma tryInOrder_result w p off lim attempts :
  match snd (tryInOrder w p off lim attempts) with
  | None => forall j u, (j, u) ∈ attempts -> exists err, fetchChunk w p j u off lim = inl err
  | Some (u, data) => exists j, (j, u) ∈ attempts /\ fetchChunk w p j u off lim = inr data
  end.
Proof.
  induction attempts as [| [j u] rest IH]; simpl.
  - intros j u Hin. by apply elem_of_nil in Hin.
  - destruct (fetchChunk w p j u off lim) as [err | data] eqn:Hf; simpl.
    + destruct (tryInOrder w p off lim rest) as [evs [[u' data'] |]]; simpl in *.
      * destruct IH as (j' & Hin & Hf'). exists j'. split; [now right | assumption].
      * intros j' u'' Hin. apply elem_of_cons in Hin as [[= -> ->] | Hin]; eauto.
    + exists j. split; [left | assumption].
Qed.

(** X3.  The goroutine of a chunk sends at least one and at most
    [len(sourceUrls)] GET requests, all for the same byte range, and never
    two to the same slot of the list: what it sends is a prefix of the
    primary followed by the other slots, which together are the slots of
    the list, each once. *)
Theorem chunk_attempts_bounded w urls p c u0 :
  index urls (srcIdxInitAttempt c) = Some u0 ->
  exists evs r n,
    fetchWithFailover w urls p c = inr (evs, r) /\
    evs = map (fun ju => EvGet (snd ju) (offset c) (limit c))
              (firstn n ((Z.to_nat (srcIdxInitAttempt c), u0)
                           :: otherSources urls (Z.to_nat (srcIdxInitAttempt c)))) /\
    Permutation ((Z.to_nat (srcIdxInitAttempt c), u0)
                   :: otherSources urls (Z.to_nat (srcIdxInitAttempt c)))
                (imap pair urls) /\
    (1 <= length evs <= length urls)%nat.
Proof.
  intros Hidx. pose proof (fetchWithFailover_order w urls p c u0 Hidx) as Hf.
  apply index_Some in Hidx as [_ Hs].
  set (s := Z.to_nat (srcIdxInitAttempt c)) in *.
  pose proof (attempts_perm urls s u0 Hs) as Hperm.
  destruct (tryInOrder_events w p (offset c) (limit c) ((s, u0) :: otherSources urls s))
    as [n Hn].
  pose proof (tryInOrder_first w p (offset c) (limit c) s u0 (otherSources urls s)) as Hhd.
  destruct (tryInOrder w p (offset c) (limit c) ((s, u0) :: otherSources urls s))
    as [evs r] eqn:Htry.
  simpl in Hn, Hhd. exists evs, r, n. repeat split; try assumption.
  - destruct evs; [discriminate | simpl; lia].
  - rewrite Hn, length_map, length_take.
    apply Permutation_length in Hperm. rewrite length_imap in Hperm. lia.
Qed.

Lemma chunk_attempts_bounded_witness :
  index ["a"; "b"] 1 = Some "b" /\
  exists evs r, fetchWithFailover Sample.secondChunkLost ["a"; "b"] 1
                  {| chunkIndex := 1; offset := 5; limit := 10; srcIdxInitAttempt := 1 |}
                = inr (evs, r) /\ (1 <= length evs <= 2)%nat.
Proof.
  split; [reflexivity |].
  destruct (chunk_attempts_bounded Sample.secondChunkLost ["a"; "b"] 1
              {| chunkIndex := 1; offset := 5; limit := 10; srcIdxInitAttempt := 1 |}
              "b" eq_refl) as (evs & r & n & Hf & _ & _ & Hlen).
  exists evs, r. split; [exact Hf | exact Hlen].
Defined.

Lemma tryInOrder_delivered w p off lim attempts : forall evs u data,
  tryInOrder w p off lim attempts = (evs, Some (u, data)) ->
  exists j, (j, u) ∈ attempts /\ fetchChunk w p j u off lim = inr data /\
            last evs = Some (EvGet u off lim).
Proof.
  induction attempts as [| [j' u'] rest IH]; intros evs u data Heq; [discriminate |].
  simpl in Heq.
  destruct (fetchChunk w p j' u' off lim) as [err | data'] eqn:Hf.
  - destruct (tryInOrder w p off lim rest) as [evs' r'] eqn:Htry.
    injection Heq as <- ->.
    destruct (IH evs' u data eq_refl) as (j & Hj & Hok & Hlast).
    exists j. split; [now right |]. split; [assumption |].
    destruct evs'; [discriminate | exact Hlast].
  - injection Heq as <- <- <-. exists j'. split; [left |]. split; [assumption | reflexivity].
Qed.

(** X4.  The goroutine of a chunk gives up with
    [ErrFailedChunkDownloadAllSources] exactly when every source of the
    list fails for the chunk's range; otherwise the bytes it goes on with
    are those of the last GET it sent, which a source of the list
    delivered. *)
Theorem chunk_exhausted_iff w urls p c u0 :
  index urls (srcIdxInitAttempt c) = Some u0 ->
  (taskError w urls (p, c) = Some ErrFailedChunkDownloadAllSources <->
   forall j u, urls !! j = Some u ->
               exists err, fetchChunk w p j u (offset c) (limit c) = inl err) /\
  (forall evs u data,
      fetchWithFailover w urls p c = inr (evs, Some (u, data)) ->
      exists j, urls !! j = Some u /\
                fetchChunk w p j u (offset c) (limit c) = inr data /\
                last evs = Some (EvGet u (offset c) (limit c))).
Proof.
  intros Hidx. pose proof (fetchWithFailover_order w urls p c u0 Hidx) as Hf.
  apply index_Some in Hidx as [_ Hs].
  set (s := Z.to_nat (srcIdxInitAttempt c)) in *.
  set (attempts := (s, u0) :: otherSources urls s) in *.
  assert (Hslots : forall j u, (j, u) ∈ attempts <-> urls !! j = Some u).
  { intros j u. unfold attempts. rewrite (attempts_perm urls s u0 Hs).
    rewrite elem_of_lookup_imap. split.
    - intros (i & y & [= -> ->] & Hl). exact Hl.
    - intros Hl. now exists j, u. }
  pose proof (tryInOrder_result w p (offset c) (limit c) attempts) as Hres.
  split.
  - unfold taskError, taskOutcome. cbn [fst snd]. rewrite Hf.
    destruct (tryInOrder w p (offset c) (limit c) attempts) as [evs [[u data] |]] eqn:Htry;
      simpl in Hres.
    + destruct Hres as (j & Hin & Hok). split.
      * destruct data as [| b data]; [discriminate |].
        unfold writeAtError. destruct (offset c <? 0); [discriminate |].
        destruct (fileWriteAt w p); discriminate.
      * intros Hall. apply Hslots in Hin. destruct (Hall j u Hin) as [err Herr].
        congruence.
    + split; [| reflexivity]. intros _ j u Hl. apply Hres. now apply Hslots.
  - intros evs u data Heq. rewrite Hf in Heq.
    assert (Heq' : tryInOrder w p (offset c) (limit c) attempts = (evs, Some (u, data)))
      by congruence.
    apply tryInOrder_delivered in Heq' as (j & Hj & Hok & Hlast).
    exists j. split; [now apply Hslots |]. split; assumption.
Qed.

Lemma chunk_exhausted_iff_witness :
  index ["a"; "b"] 1 = Some "b" /\
  taskError Sample.secondChunkLost ["a"; "b"]
    (1%nat, {| chunkIndex := 1; offset := 5; limit := 10; srcIdxInitAttempt := 1 |})
  = Some ErrFailedChunkDownloadAllSources.
Proof.
  split; [reflexivity |].
  apply (proj1 (chunk_exhausted_iff Sample.secondChunkLost ["a"; "b"] 1
                  {| chunkIndex := 1; offset := 5; limit := 10; srcIdxInitAttempt := 1 |}
                  "b" eq_refl)).
  intros j u _. exists (ErrTransport "timeout"). reflexivity.
Defined.

(** ** The probes as a group *)

Lemma head_omap_inv {A B : Type} (f : A -> option B) l y :
  head (omap f l) = Some y -> exists x, x ∈ l /\ f x = Some y.
Proof.
  induction l as [| a l IH]; [discriminate |]. simpl.
  destruct (f a) as [b |] eqn:Hfa.
  - intros [= <-]. exists a. split; [left | assumption].
  - intros H. destruct (IH H) as (x & Hx & Hfx). exists x. split; [now right | assumption].
Qed.

(** X5.  [fetchFileMetadataFromSources] returns no error exactly when every
    probe succeeds; an error it returns is the error of one of the probes;
    and the descriptors it returns are those of the probes that
    succeeded, also when another probe failed. *)
Theorem probes_all_or_nothing w sourceUrls :
  (snd (fetchFileMetadataFromSources w sourceUrls) = None <->
   forall k u, sourceUrls !! k = Some u -> exists sfm, probe w k u = inr sfm) /\
  (forall e, snd (fetchFileMetadataFromSources w sourceUrls) = Some e ->
             exists k u, sourceUrls !! k = Some u /\ probe w k u = inl e) /\
  (forall sfm, sfm ∈ snd (fst (fetchFileMetadataFromSources w sourceUrls)) <->
               exists k u, sourceUrls !! k = Some u /\ probe w k u = inr sfm).
Proof.
  unfold fetchFileMetadataFromSources. cbn [fst snd].
  set (ended := inCompletionOrder _ _).
  assert (Herr : forall e, head (omap returnedError ended) = Some e ->
                           exists k u, sourceUrls !! k = Some u /\ probe w k u = inl e).
  { intros e He. apply head_omap_inv in He as (r & Hr & He).
    apply probes_ended_elem in Hr as (k & u & Hu & ->).
    unfold returnedError in He. simpl in He.
    destruct (probe w k u) as [e' |] eqn:Hp; [| discriminate].
    injection He as ->. now exists k, u. }
  split; [| split; [exact Herr |]].
  - split.
    + intros Hnone k u Hu.
      pose proof (head_omap_None _ _ Hnone _ (probes_contain w sourceUrls k u Hu)) as H.
      unfold returnedError in H. simpl in H.
      destruct (probe w k u) as [e | sfm]; [discriminate | eauto].
    + intros Hall. destruct (head (omap returnedError ended)) as [e |] eqn:He;
        [| reflexivity].
      destruct (Herr e eq_refl) as (k & u & Hu & Hp).
      destruct (Hall k u Hu) as [sfm Hsfm]. congruence.
  - intros sfm. rewrite list_elem_of_omap. split.
    + intros (r & Hr & Hsent). apply probes_ended_elem in Hr as (k & u & Hu & ->).
      unfold sentDescriptor in Hsent. simpl in Hsent.
      destruct (probe w k u) as [e | sfm'] eqn:Hp; [discriminate |].
      injection Hsent as ->. now exists k, u.
    + intros (k & u & Hu & Hp). exists (k, (u, probe w k u)).
      split; [now apply probes_contain |].
      unfold sentDescriptor. simpl. now rewrite Hp.
Qed.

(** ** What the errors of Download tell *)

Lemma probe_error_kinds w k u e :
  probe w k u = inl e ->
  (exists msg, httpHead w k u = inl msg /\ e = ErrTransport msg) \/
  (exists resp, httpHead w k u = inr resp /\
     ((StatusCode resp <> 200 /\ e = ErrStatus (StatusCode resp) u) \/
      (StatusCode resp = 200 /\ ContentLength resp = -1 /\ e = ErrUnknownContentLength) \/
      (StatusCode resp = 200 /\ ContentLength resp <> -1 /\
       (Header resp "Accept-Ranges" = EmptyString \/ Header resp "Accept-Ranges" = "none") /\
       e = ErrPartialRequestUnsupported))).
Proof.
  unfold probe. destruct (httpHead w k u) as [msg | resp].
  { intros [= <-]. left. eauto. }
  intros Hp. right. exists resp. split; [reflexivity |]. revert Hp.
  destruct (Z.eqb_spec (StatusCode resp) 200) as [Hs | Hs]; simpl.
  2:{ intros [= <-]. left. auto. }
  destruct (Z.eqb_spec (ContentLength resp) (-1)) as [Hl | Hl].
  { intros [= <-]. right. left. auto. }
  destruct (String.eqb_spec (Header resp "Accept-Ranges") "none") as [Hn | Hn].
  { rewrite orb_true_r. intros [= <-]. right. right. auto. }
  destruct (Header resp "Accept-Ranges") as [| a s] eqn:Har; simpl.
  - intros [= <-]. right. right. auto.
  - discriminate.
Qed.

Lemma writeAtError_kinds w p off e :
  writeAtError w p off = Some e -> exists msg, e = ErrIO msg.
Proof.
  unfold writeAtError. destruct (off <? 0); [intros [= <-]; eauto |].
  destruct (fileWriteAt w p) as [msg |]; [intros [= <-]; eauto | discriminate].
Qed.

(** [downloadFileContents] returns the exhausted error or the error of a
    write, nothing else. *)
Lemma downloadFileContents_error_kinds w fuel opts urls fm path d e :
  outcome (downloadFileContents w fuel opts urls fm path d) = Returns (Some e) ->
  e = ErrFailedChunkDownloadAllSources \/ exists msg, e = ErrIO msg.
Proof.
  unfold downloadFileContents.
  destruct (planChunks _ _ _ _) as [chunks | q |]; simpl; try discriminate.
  set (P := fun g : group =>
              forall e, gErr g = Some e ->
                        e = ErrFailedChunkDownloadAllSources \/ exists msg, e = ErrIO msg).
  assert (HP : forall e0,
             gErr (fold_left (chunkTask w urls path)
                     (inCompletionOrder (taskFinish w) chunks)
                     {| gEvents := []; gDisk := d; gErr := None; gPanic := None |})
             = Some e0 ->
             e0 = ErrFailedChunkDownloadAllSources \/ exists msg, e0 = ErrIO msg).
  { apply (fold_left_invariant P (chunkTask w urls path)).
    2:{ intros e'. discriminate. }
    intros g [p c] Hg. unfold P, chunkTask.
    destruct (gPanic g); [exact Hg |].
    destruct (fetchWithFailover w urls p c) as [q | [evs [[u data] |]]]; simpl.
    - exact Hg.
    - destruct (copyAt_spec w path p (offset c) data (gDisk g))
        as (wevs & werr & d' & -> & _ & _ & _ & ->).
      simpl. intros e'. destruct (gErr g) as [e0 |] eqn:Hge; simpl;
        [intros [= <-]; exact (Hg _ Hge) |].
      destruct data; [discriminate |]. intros H. right.
      now apply writeAtError_kinds in H.
    - intros e'. destruct (gErr g) as [e0 |] eqn:Hge; simpl;
        [intros [= <-]; exact (Hg _ Hge) |].
      intros [= <-]. now left. }
  destruct (gPanic _); [discriminate |]. intros [= H]. now apply HP.
Qed.

Lemma checkETag_error_kinds w opts fm path d evs e :
  checkETag w opts fm path d = (evs, Some e) ->
  (exists msg, e = ErrIO msg) \/
  (e = ErrETagMismatch /\ CheckETag opts = true /\ eTag fm <> EmptyString /\
   hexEncode (MD5.sum (readOnce w (default [] (d !! path)))) <> eTag fm).
Proof.
  unfold checkETag, getMD5Hash.
  destruct (CheckETag opts); simpl; [| discriminate].
  destruct (eTag fm) as [| a s] eqn:Htag; simpl; [discriminate |].
  destruct (fileStat w) as [msg |]; [intros [= _ <-]; eauto |].
  destruct (fileRead w) as [msg |]; [intros [= _ <-]; eauto |].
  destruct (String.eqb_spec
              (hexEncode (MD5.sum (readOnce w (default [] (d !! path))))) (String a s))
    as [Heq | Hne]; simpl; [discriminate |].
  intros [= _ <-]. right. repeat split; [discriminate | assumption].
Qed.

(** Where an error of [Download] comes from. *)
Lemma Download_error_origin sortSlice w fuel opts urls d e :
  outcome (Download sortSlice w fuel opts urls d) = Returns (Some e) ->
  (urls = [] /\ e = ErrNoSourceUrls) \/
  (urls <> [] /\ exists k u, urls !! k = Some u /\ probe w k u = inl e) \/
  (urls <> [] /\ e = ErrSourcesFileMismatch /\
   exists evs metas, fetchFileMetadataFromSources w urls = (evs, metas, None) /\
                     allSourcesMatchFileMetadata metas (CheckETag opts) = false) \/
  (exists msg, e = ErrIO msg) \/
  (exists evs sfm0 rest,
      staged w opts urls evs (sfm0 :: rest) /\
      ((e = ErrFailedChunkDownloadAllSources /\
        outcome (downloadFileContents w fuel opts
                   (sourceUrlsSortedByEstLatency sortSlice (sfm0 :: rest)) (meta sfm0)
                   (stagingPath opts) (<[stagingPath opts := []]> d))
        = Returns (Some ErrFailedChunkDownloadAllSources)) \/
       (e = ErrETagMismatch /\
        outcome (downloadFileContents w fuel opts
                   (sourceUrlsSortedByEstLatency sortSlice (sfm0 :: rest)) (meta sfm0)
                   (stagingPath opts) (<[stagingPath opts := []]> d))
        = Returns None /\
        CheckETag opts = true /\ eTag (meta sfm0) <> EmptyString /\
        hexEncode (MD5.sum (readOnce w (default []
          (files (downloadFileContents w fuel opts
                    (sourceUrlsSortedByEstLatency sortSlice (sfm0 :: rest)) (meta sfm0)
                    (stagingPath opts) (<[stagingPath opts := []]> d))
           !! stagingPath opts))))
        <> eTag (meta sfm0)))).
Proof.
  destruct urls as [| u0 urls'].
  { intros [= <-]. left. split; reflexivity. }
  intros Hout. right.
  assert (Hne : u0 :: urls' <> []) by discriminate.
  destruct (Download_cases sortSlice w fuel opts (u0 :: urls') d)
    as [[Hnil _] | [(evs & metas & e' & Hf & Hr) | [(evs & metas & Hf & Hm & Hr)
       | [(evs & metas & msg & _ & _ & _ & Hr) | (evs & sfm0 & rest & Hst & Hr)]]]];
    [discriminate | | | |]; rewrite Hr in Hout.
  - injection Hout as ->. left. split; [assumption |].
    apply (proj1 (proj2 (probes_all_or_nothing w (u0 :: urls')))).
    now rewrite Hf.
  - injection Hout as <-. right. left. split; [assumption |]. split; [reflexivity |].
    now exists evs, metas.
  - injection Hout as <-. right. right. left. eauto.
  - rewrite outcome_wrapped in Hout. right. right.
    destruct (downloadAndPublish_cases sortSlice w fuel opts (sfm0 :: rest) (meta sfm0)
                (stagingPath opts) (<[stagingPath opts := []]> d))
      as [[_ Hdap] | (Hok & digest & [e' |] & Hchk & Hdap)].
    + rewrite Hdap in Hout. pose proof Hout as Hkind.
      apply downloadFileContents_error_kinds in Hkind as [-> | Hio]; [| now left].
      right. exists evs, sfm0, rest. split; [assumption |]. left. split; [reflexivity | assumption].
    + rewrite Hdap in Hout. injection Hout as ->.
      apply checkETag_error_kinds in Hchk as [Hio | (-> & Hc & Ht & Hneq)]; [now left |].
      right. exists evs, sfm0, rest. split; [assumption |]. right. repeat split; assumption.
    + destruct Hdap as ([e' |] & d' & Hren & Hdap); rewrite Hdap in Hout;
        [| discriminate].
      injection Hout as ->. left. unfold rename in Hren.
      destruct (osRename w) as [msg |]; [injection Hren as <- _; eauto |].
      destruct (_ !! _); [discriminate | injection Hren as <- _; eauto].
Qed.

(** C4.  For the descriptors of the probes, all of which succeeded,
    [Download] returns [ErrSourcesFileMismatch] exactly when the
    descriptors do not agree pairwise on size, on content type and, when
    [CheckETag] is set, on ETag.  Each descriptor is built from the answer
    to the HEAD request of its source: the size is the content length, the
    ETag is the ETag header without its double quotes, and the content type
    is left empty, which is what the comparison sees. *)
Theorem mismatch_exactly_on_disagreement sortSlice w fuel opts sourceUrls d evs metas :
  fetchFileMetadataFromSources w sourceUrls = (evs, metas, None) ->
  (outcome (Download sortSlice w fuel opts sourceUrls d)
   = Returns (Some ErrSourcesFileMismatch) <->
   ~ (forall a b, a ∈ metas -> b ∈ metas ->
        size (meta a) = size (meta b) /\
        contentType (meta a) = contentType (meta b) /\
        (CheckETag opts = true -> eTag (meta a) = eTag (meta b)))) /\
  (forall sfm, sfm ∈ metas ->
     exists k resp,
       sourceUrls !! k = Some (url sfm) /\ httpHead w k (url sfm) = inr resp /\
       size (meta sfm) = ContentLength resp /\
       contentType (meta sfm) = EmptyString /\
       eTag (meta sfm) = stringsTrim (Header resp "ETag") doubleQuote).
Proof.
  intros Hfetch. split.
  - change (outcome (Download sortSlice w fuel opts sourceUrls d)
            = Returns (Some ErrSourcesFileMismatch) <->
            ~ (forall a b, a ∈ metas -> b ∈ metas -> agree (CheckETag opts) a b)).
    rewrite <- allSourcesMatchFileMetadata_pairwise. split.
    + intros Hout.
      destruct (Download_error_origin _ _ _ _ _ _ _ Hout)
        as [[_ He] | [(_ & k & u & _ & Hp) | [(_ & _ & evs' & metas' & Hf & Hm) | [(msg & He)
           | (evs' & sfm0 & rest & _ & [(He & _) | (He & _)])]]]];
        try discriminate.
      * apply probe_error_kinds in Hp
          as [(msg & _ & He) | (resp & _ & [(_ & He) | [(_ & _ & He) | (_ & _ & _ & He)]])];
          discriminate.
      * rewrite Hfetch in Hf. injection Hf as _ <-. now rewrite Hm.
    + intros Hno.
      destruct (allSourcesMatchFileMetadata metas (CheckETag opts)) eqn:Hm;
        [contradiction |].
      destruct sourceUrls as [| u0 urls'].
      { unfold fetchFileMetadataFromSources in Hfetch. simpl in Hfetch.
        injection Hfetch as _ <-. discriminate. }
      unfold Download. change (length (u0 :: urls') =? 0)%nat with false. cbv iota.
      now rewrite Hfetch, Hm.
  - intros sfm Hin.
    unfold fetchFileMetadataFromSources in Hfetch. injection Hfetch as _ <- _.
    apply list_elem_of_omap in Hin as ([k [u r]] & Hin & Hsent).
    unfold sentDescriptor in Hsent. simpl in Hsent.
    destruct r as [e | sfm']; [discriminate |]. injection Hsent as ->.
    apply tasks_elem in Hin. simpl in Hin.
    rewrite list_lookup_imap in Hin.
    destruct (sourceUrls !! k) as [u' |] eqn:Hu; [| discriminate].
    simpl in Hin. injection Hin as <- Hp.
    destruct (probe_descriptor _ _ _ _ Hp) as (Hurl & _ & Hct & resp & Hh & Hsz & Het).
    exists k, resp. rewrite Hurl. repeat split; assumption.
Qed.

Lemma mismatch_exactly_on_disagreement_witness :
  fetchFileMetadataFromSources Sample.mixedSizes ["a"; "b"]
  = ([EvHead "a"; EvHead "b"],
     [{| meta := {| size := 10; contentType := EmptyString; eTag := EmptyString |};
         url := "a"; estLatency := 5000000 |};
      {| meta := {| size := 11; contentType := EmptyString; eTag := EmptyString |};
         url := "b"; estLatency := 5000000 |}], None) /\
  outcome (Download sortSliceSmall Sample.mixedSizes 10 (Sample.options 2 false)
             ["a"; "b"] ∅)
  = Returns (Some ErrSourcesFileMismatch).
Proof.
  assert (Hf : fetchFileMetadataFromSources Sample.mixedSizes ["a"; "b"]
               = ([EvHead "a"; EvHead "b"],
                  [{| meta := {| size := 10; contentType := EmptyString;
                                 eTag := EmptyString |};
                      url := "a"; estLatency := 5000000 |};
                   {| meta := {| size := 11; contentType := EmptyString;
                                 eTag := EmptyString |};
                      url := "b"; estLatency := 5000000 |}], None))
    by (vm_compute; reflexivity).
  split; [exact Hf |].
  apply (proj2 (proj1 (mismatch_exactly_on_disagreement sortSliceSmall Sample.mixedSizes
                         10 (Sample.options 2 false) ["a"; "b"] ∅ _ _ Hf))).
  intros Hall.
  destruct (Hall _ _ (list_elem_of_here _ _) (list_elem_of_further _ _ _ (list_elem_of_here _ _)))
    as [Hsize _].
  discriminate Hsize.
Defined.

(** X6.  The errors of the package tell the caller which stage failed:
    [ErrNoSourceUrls] is returned exactly for an empty list of URLs;
    [ErrSourcesFileMismatch] exactly when every probe succeeded and the
    descriptors disagree; [ErrUnknownContentLength] and
    [ErrPartialRequestUnsupported] only when a source answered HEAD with
    status 200 and no content length, or with a content length and
    Accept-Ranges empty or [none]; [ErrFailedChunkDownloadAllSources] only
    as the error of the chunk download; and [ErrETagMismatch] only after
    all chunks were written, with the check switched on and the digest of
    the buffer that the one read of the staging file filled ([readOnce])
    different from the ETag. *)
Theorem errors_identify_stage sortSlice w fuel opts sourceUrls d :
  (outcome (Download sortSlice w fuel opts sourceUrls d) = Returns (Some ErrNoSourceUrls)
   <-> sourceUrls = []) /\
  (outcome (Download sortSlice w fuel opts sourceUrls d)
   = Returns (Some ErrSourcesFileMismatch) <->
   sourceUrls <> [] /\
   exists evs metas,
     fetchFileMetadataFromSources w sourceUrls = (evs, metas, None) /\
     allSourcesMatchFileMetadata metas (CheckETag opts) = false) /\
  (outcome (Download sortSlice w fuel opts sourceUrls d)
   = Returns (Some ErrUnknownContentLength) ->
   exists k u resp, sourceUrls !! k = Some u /\ httpHead w k u = inr resp /\
                    StatusCode resp = 200 /\ ContentLength resp = -1) /\
  (outcome (Download sortSlice w fuel opts sourceUrls d)
   = Returns (Some ErrPartialRequestUnsupported) ->
   exists k u resp, sourceUrls !! k = Some u /\ httpHead w k u = inr resp /\
                    StatusCode resp = 200 /\ ContentLength resp <> -1 /\
                    (Header resp "Accept-Ranges" = EmptyString \/
                     Header resp "Accept-Ranges" = "none")) /\
  (outcome (Download sortSlice w fuel opts sourceUrls d)
   = Returns (Some ErrFailedChunkDownloadAllSources) ->
   exists evs sfm0 rest,
     staged w opts sourceUrls evs (sfm0 :: rest) /\
     outcome (downloadFileContents w fuel opts
                (sourceUrlsSortedByEstLatency sortSlice (sfm0 :: rest)) (meta sfm0)
                (stagingPath opts) (<[stagingPath opts := []]> d))
     = Returns (Some ErrFailedChunkDownloadAllSources)) /\
  (outcome (Download sortSlice w fuel opts sourceUrls d) = Returns (Some ErrETagMismatch) ->
   exists evs sfm0 rest,
     staged w opts sourceUrls evs (sfm0 :: rest) /\
     outcome (downloadFileContents w fuel opts
                (sourceUrlsSortedByEstLatency sortSlice (sfm0 :: rest)) (meta sfm0)
                (stagingPath opts) (<[stagingPath opts := []]> d))
     = Returns None /\
     CheckETag opts = true /\ eTag (meta sfm0) <> EmptyString /\
     hexEncode (MD5.sum (readOnce w (default []
       (files (downloadFileContents w fuel opts
                 (sourceUrlsSortedByEstLatency sortSlice (sfm0 :: rest)) (meta sfm0)
                 (stagingPath opts) (<[stagingPath opts := []]> d))
        !! stagingPath opts))))
     <> eTag (meta sfm0)).
Proof.
  pose proof (Download_error_origin sortSlice w fuel opts sourceUrls d) as Horigin.
  assert (Hprobe : forall e k u,
            probe w k u = inl e ->
            e <> ErrNoSourceUrls /\ e <> ErrSourcesFileMismatch /\
            e <> ErrFailedChunkDownloadAllSources /\ e <> ErrETagMismatch).
  { intros e k u Hp.
    apply probe_error_kinds in Hp
      as [(msg & _ & ->) | (resp & _ & [(_ & ->) | [(_ & _ & ->) | (_ & _ & _ & ->)]])];
      repeat split; discriminate. }
  split; [| split; [| split; [| split; [| split]]]].
  - split; [| intros ->; reflexivity].
    intros Hout.
    destruct (Horigin _ Hout)
      as [[Hnil _] | [(_ & k & u & _ & Hp) | [(_ & He & _) | [(msg & He)
         | (evs & sfm0 & rest & _ & [(He & _) | (He & _)])]]]];
      try assumption; try discriminate.
    now apply Hprobe in Hp as (? & _).
  - split.
    + intros Hout.
      destruct (Horigin _ Hout)
        as [[_ He] | [(Hne & k & u & _ & Hp) | [(Hne & _ & Hex) | [(msg & He)
           | (evs & sfm0 & rest & _ & [(He & _) | (He & _)])]]]];
        try discriminate.
      * now apply Hprobe in Hp as (_ & ? & _).
      * split; assumption.
    + intros [Hne (evs & metas & Hf & Hm)]. unfold Download.
      destruct sourceUrls as [| u0 urls']; [contradiction |].
      change (length (u0 :: urls') =? 0)%nat with false. cbv iota.
      now rewrite Hf, Hm.
  - intros Hout.
    destruct (Horigin _ Hout)
      as [[_ He] | [(_ & k & u & Hu & Hp) | [(_ & He & _) | [(msg & He)
         | (evs & sfm0 & rest & _ & [(He & _) | (He & _)])]]]];
      try discriminate.
    apply probe_error_kinds in Hp
      as [(msg & _ & He) | (resp & Hh & [(_ & He) | [(Hs & Hl & _) | (_ & _ & _ & He)]])];
      try discriminate.
    now exists k, u, resp.
  - intros Hout.
    destruct (Horigin _ Hout)
      as [[_ He] | [(_ & k & u & Hu & Hp) | [(_ & He & _) | [(msg & He)
         | (evs & sfm0 & rest & _ & [(He & _) | (He & _)])]]]];
      try discriminate.
    apply probe_error_kinds in Hp
      as [(msg & _ & He) | (resp & Hh & [(_ & He) | [(_ & _ & He) | (Hs & Hl & Har & _)]])];
      try discriminate.
    now exists k, u, resp.
  - intros Hout.
    destruct (Horigin _ Hout)
      as [[_ He] | [(_ & k & u & Hu & Hp) | [(_ & He & _) | [(msg & He)
         | (evs & sfm0 & rest & Hst & [(_ & Hr0) | (He & _)])]]]];
      try discriminate.
    + now apply Hprobe in Hp as (_ & _ & ? & _).
    + now exists evs, sfm0, rest.
  - intros Hout.
    destruct (Horigin _ Hout)
      as [[_ He] | [(_ & k & u & Hu & Hp) | [(_ & He & _) | [(msg & He)
         | (evs & sfm0 & rest & Hst & [(He & _) | (_ & Hr0 & Hc & Ht & Hneq)])]]]];
      try discriminate.
    + now apply Hprobe in Hp as (_ & _ & _ & ?).
    + exists evs, sfm0, rest. split; [assumption |]. split; [assumption |].
      split; [assumption |]. split; assumption.
Qed.

(** ** Publishing and what stays behind *)

(** X7.  A successful call moves the staging file to the destination path:
    afterwards the destination holds what the staging file held when the
    chunks were written, the staging file is gone, and every other file
    is as before the call. *)
Theorem success_publishes sortSlice w fuel opts sourceUrls d :
  outcome (Download sortSlice w fuel opts sourceUrls d) = Returns None ->
  exists evs sfm0 rest content,
    staged w opts sourceUrls evs (sfm0 :: rest) /\
    files (downloadFileContents w fuel opts
             (sourceUrlsSortedByEstLatency sortSlice (sfm0 :: rest)) (meta sfm0)
             (stagingPath opts) (<[stagingPath opts := []]> d))
      !! stagingPath opts = Some content /\
    files (Download sortSlice w fuel opts sourceUrls d) !! DestFilePath opts
    = Some content /\
    files (Download sortSlice w fuel opts sourceUrls d) !! stagingPath opts = None /\
    forall q, q <> stagingPath opts -> q <> DestFilePath opts ->
              files (Download sortSlice w fuel opts sourceUrls d) !! q = d !! q.
Proof.
  intros Hout.
  pose proof (stagingPath_fresh opts) as Hfresh.
  destruct (Download_spec sortSlice w fuel opts sourceUrls d)
    as [(body & closing & _ & _ & _ & _ & Hne)
       | (evs & sfm0 & rest & digest & Hst & _ & _ & _
          & [(msg & _ & Hout' & _) | (content & _ & _ & _ & Hcontent & Hfiles)])].
  - contradiction.
  - rewrite Hout' in Hout. discriminate.
  - exists evs, sfm0, rest, content. split; [assumption |]. split; [assumption |].
    rewrite Hfiles. split; [apply lookup_insert_eq |]. split.
    + rewrite lookup_insert_ne by congruence. apply lookup_delete_eq.
    + intros q Hq Hq'. rewrite lookup_insert_ne by congruence.
      rewrite lookup_delete_ne by congruence.
      destruct (downloadFileContents_frame w fuel opts
                  (sourceUrlsSortedByEstLatency sortSlice (sfm0 :: rest)) (meta sfm0)
                  (stagingPath opts) (<[stagingPath opts := []]> d)) as (_ & Hother & _).
      rewrite Hother by assumption. apply lookup_insert_ne. congruence.
Qed.

Lemma success_publishes_witness :
  outcome (Download sortSliceSmall Sample.world 10 (Sample.options 2 false) ["a"; "b"] ∅)
  = Returns None /\
  files (Download sortSliceSmall Sample.world 10 (Sample.options 2 false) ["a"; "b"] ∅)
    !! "out.download" = None.
Proof.
  assert (Hout : outcome (Download sortSliceSmall Sample.world 10 (Sample.options 2 false)
                            ["a"; "b"] ∅) = Returns None) by (vm_compute; reflexivity).
  split; [exact Hout |].
  destruct (success_publishes sortSliceSmall Sample.world 10 (Sample.options 2 false)
              ["a"; "b"] ∅ Hout) as (evs & sfm0 & rest & content & _ & _ & _ & Hgone & _).
  exact Hgone.
Defined.

(** X8.  Once the staging file is created, it is closed as the last thing
    of the call whenever the call ends, by a return or by a panic; and
    unless the call succeeds, the staging file stays where it is: the
    service does not remove it. *)
Theorem staging_file_closed_and_left sortSlice w fuel opts sourceUrls d evs sfm0 rest :
  staged w opts sourceUrls evs (sfm0 :: rest) ->
  outcome (Download sortSlice w fuel opts sourceUrls d) <> Diverges ->
  last (events (Download sortSlice w fuel opts sourceUrls d))
  = Some (EvClose (stagingPath opts)) /\
  (outcome (Download sortSlice w fuel opts sourceUrls d) <> Returns None ->
   is_Some (files (Download sortSlice w fuel opts sourceUrls d) !! stagingPath opts)).
Proof.
  intros Hst. rewrite (Download_staged _ _ _ _ _ _ _ _ _ Hst).
  rewrite outcome_wrapped, events_wrapped, files_wrapped.
  set (st := stagingPath opts).
  set (dap := downloadAndPublish sortSlice w fuel opts (sfm0 :: rest) (meta sfm0) st
                (<[st := []]> d)).
  intros Hend. split.
  - destruct (outcome dap) eqn:Hout; try contradiction;
      rewrite !app_assoc; apply last_snoc.
  - intros Hfail.
    destruct (downloadFileContents_frame w fuel opts
                (sourceUrlsSortedByEstLatency sortSlice (sfm0 :: rest)) (meta sfm0)
                st (<[st := []]> d)) as (_ & _ & Hsame).
    assert (Hstaged : is_Some (files (downloadFileContents w fuel opts
                        (sourceUrlsSortedByEstLatency sortSlice (sfm0 :: rest))
                        (meta sfm0) st (<[st := []]> d)) !! st)).
    { apply Hsame. rewrite lookup_insert_eq. now eexists. }
    destruct (downloadAndPublish_cases sortSlice w fuel opts (sfm0 :: rest) (meta sfm0)
                st (<[st := []]> d))
      as [[_ Hdap] | (_ & digest & [e |] & _ & Hdap)]; fold dap in Hdap.
    + now rewrite Hdap.
    + now rewrite Hdap.
    + destruct Hdap as ([e |] & d' & Hren & Hdap); rewrite Hdap in Hfail |- *.
      * apply rename_spec in Hren as [-> _]. exact Hstaged.
      * now contradiction Hfail.
Qed.

Lemma staging_file_closed_and_left_witness :
  staged Sample.secondChunkLost (Sample.options 2 false) ["a"; "b"]
    [EvHead "a"; EvHead "b"] [Sample.descriptor "a"; Sample.descriptor "b"] /\
  is_Some (files (Download sortSliceSmall Sample.secondChunkLost 10
                    (Sample.options 2 false) ["a"; "b"] ∅) !! "out.download").
Proof.
  assert (Hst : staged Sample.secondChunkLost (Sample.options 2 false) ["a"; "b"]
                  [EvHead "a"; EvHead "b"]
                  [Sample.descriptor "a"; Sample.descriptor "b"]).
  { repeat split; [discriminate | vm_compute; reflexivity ..]. }
  assert (Hout : outcome (Download sortSliceSmall Sample.secondChunkLost 10
                            (Sample.options 2 false) ["a"; "b"] ∅)
                 = Returns (Some ErrFailedChunkDownloadAllSources))
    by (vm_compute; reflexivity).
  split; [exact Hst |].
  apply (proj2 (staging_file_closed_and_left sortSliceSmall Sample.secondChunkLost 10
                  (Sample.options 2 false) ["a"; "b"] ∅ _ _ _ Hst
                  ltac:(rewrite Hout; discriminate))).
  rewrite Hout. discriminate.
Defined.

(** ** The digest *)

Lemma list_ascii_of_string_In ch s :
  In ch (list_ascii_of_string s) <-> exists n, String.get n s = Some ch.
Proof.
  induction s as [| a s IH]; simpl.
  - split; [contradiction | intros [n Hn]; discriminate].
  - rewrite IH. split.
    + intros [-> | [n Hn]]; [now exists 0%nat | now exists (S n)].
    + intros [[| n] Hn]; [left; congruence | right; eauto].
Qed.

(** X9.  When the ETag is checked, [getMD5Hash] gives 32 characters out of
    [0-9a-f].  So an ETag of another length, or one with any other
    character (an upper-case digest, a weak tag [W/...]), ends the call
    with [ErrETagMismatch] whatever the file holds, provided the staging
    file can be read. *)
Theorem foreign_tag_never_matches w opts fm path d :
  CheckETag opts = true -> eTag fm <> EmptyString ->
  fileStat w = None -> fileRead w = None ->
  (exists md5Hash,
      getMD5Hash w path d = ([EvStat path; EvRead path], inr md5Hash) /\
      String.length md5Hash = 32%nat /\
      Forall (fun ch => In ch (list_ascii_of_string "0123456789abcdef"))
             (list_ascii_of_string md5Hash)) /\
  (String.length (eTag fm) <> 32%nat \/
   (exists n ch, String.get n (eTag fm) = Some ch /\
                 ~ In ch (list_ascii_of_string "0123456789abcdef")) ->
   checkETag w opts fm path d = ([EvStat path; EvRead path], Some ErrETagMismatch)).
Proof.
  intros Hc Ht Hs Hr.
  assert (Hhash : getMD5Hash w path d
                  = ([EvStat path; EvRead path],
                     inr (hexEncode (MD5.sum (readOnce w (default [] (d !! path)))))))
    by (unfold getMD5Hash; now rewrite Hs, Hr).
  assert (Hlen : String.length
                   (hexEncode (MD5.sum (readOnce w (default [] (d !! path))))) = 32%nat)
    by (now rewrite hexEncode_length, MD5_sum_length).
  split.
  - eexists. split; [exact Hhash |]. split; [exact Hlen | apply hexEncode_lowercase].
  - intros Hforeign. rewrite checkETag_active, Hhash by assumption.
    destruct (String.eqb_spec
                (hexEncode (MD5.sum (readOnce w (default [] (d !! path))))) (eTag fm))
      as [Heq | Hne]; [exfalso | reflexivity].
    destruct Hforeign as [Hother | (n & ch & Hget & Hout)].
    + rewrite <- Heq in Hother. contradiction.
    + apply Hout. rewrite <- Heq in Hget.
      pose proof (hexEncode_lowercase
                    (MD5.sum (readOnce w (default [] (d !! path))))) as Hlow.
      rewrite List.Forall_forall in Hlow. apply Hlow.
      apply list_ascii_of_string_In. eauto.
Qed.

Lemma foreign_tag_never_matches_witness :
  checkETag Sample.world (Sample.options 2 true)
    {| size := 0; contentType := EmptyString; eTag := "W/d41d8cd98f00b204e9800998ecf8427e" |}
    "out.download" ∅
  = ([EvStat "out.download"; EvRead "out.download"], Some ErrETagMismatch).
Proof.
  apply (proj2 (foreign_tag_never_matches Sample.world (Sample.options 2 true)
                  {| size := 0; contentType := EmptyString;
                     eTag := "W/d41d8cd98f00b204e9800998ecf8427e" |}
                  "out.download" ∅ eq_refl ltac:(discriminate) eq_refl eq_refl)).
  left. vm_compute. discriminate.
Defined.

(** ** Small files and the reconciler *)

(** X10.  A file of at least one byte but fewer bytes than connections:
    the chunk size is zero, the loop of [downloadFileContents] starts a
    goroutine for the range 0-0 again and again, and [Download] does not
    return. *)
Theorem fewer_bytes_than_connections sortSlice w fuel opts sourceUrls d evs sfm0 rest :
  sortSliceContract sortSlice ->
  staged w opts sourceUrls evs (sfm0 :: rest) ->
  1 <= size (meta sfm0) < Connections opts -> Connections opts <= Int64.maxInt ->
  planChunks fuel (Connections opts) (size (meta sfm0))
    (Z.of_nat (length (sourceUrlsSortedByEstLatency sortSlice (sfm0 :: rest))))
  = Diverges /\
  outcome (Download sortSlice w fuel opts sourceUrls d) = Diverges.
Proof.
  intros Hc Hst Hs Hn. split.
  - apply planChunks_small_file; [assumption | assumption |].
    rewrite prioritized_length by assumption. simpl. lia.
  - now apply (small_file_never_returns sortSlice w fuel opts sourceUrls d evs sfm0 rest).
Qed.

Lemma fewer_bytes_than_connections_witness :
  sortSliceContract sortSliceSmall /\
  staged Sample.tiny (Sample.options 5 false) ["a"] [EvHead "a"]
    [{| meta := {| size := 1; contentType := EmptyString; eTag := EmptyString |};
        url := "a"; estLatency := 5000000 |}] /\
  outcome (Download sortSliceSmall Sample.tiny 1000 (Sample.options 5 false) ["a"] ∅)
  = Diverges.
Proof.
  assert (Hst : staged Sample.tiny (Sample.options 5 false) ["a"] [EvHead "a"]
                  [{| meta := {| size := 1; contentType := EmptyString; eTag := EmptyString |};
                      url := "a"; estLatency := 5000000 |}]).
  { repeat split; [discriminate | vm_compute; reflexivity ..]. }
  split; [exact sortSliceSmall_contract |]. split; [exact Hst |].
  apply (fewer_bytes_than_connections sortSliceSmall Sample.tiny 1000
           (Sample.options 5 false) ["a"] ∅ _ _ _ sortSliceSmall_contract Hst).
  - vm_compute. intuition discriminate.
  - vm_compute. discriminate.
Defined.

(** X11.  [allSourcesMatchFileMetadata] compares each descriptor with its
    neighbour only, and that decides whether all descriptors agree
    pairwise on size, content type and, when asked, ETag; lists of no or
    one descriptor always match. *)
Theorem neighbours_decide_agreement srcFileMetas checkETag :
  (allSourcesMatchFileMetadata srcFileMetas checkETag = true <->
   forall a b, a ∈ srcFileMetas -> b ∈ srcFileMetas -> agree checkETag a b) /\
  ((length srcFileMetas <= 1)%nat ->
   allSourcesMatchFileMetadata srcFileMetas checkETag = true).
Proof.
  split; [apply allSourcesMatchFileMetadata_pairwise |].
  destruct srcFileMetas as [| a [| b l]]; simpl; [reflexivity | reflexivity | lia].
Qed.

(** ** Positional writes *)

Lemma writeAt_length off data content :
  length (writeAt off data content) = Nat.max (length content) (off + length data).
Proof.
  unfold writeAt. rewrite !length_app, length_take, length_drop, length_app, repeat_length.
  lia.
Qed.

Lemma writeAt_lookup_inside off data content k :
  (off <= k < off + length data)%nat ->
  writeAt off data content !! k = data !! (k - off)%nat.
Proof.
  intros Hk. unfold writeAt.
  assert (Hpre : length (firstn off (content ++ repeat x00 (off - length content))) = off).
  { rewrite length_take, length_app, repeat_length. lia. }
  rewrite lookup_app_r by lia. rewrite Hpre.
  apply lookup_app_l. lia.
Qed.

Lemma writeAt_lookup_outside off data content k :
  (k < length content)%nat -> (k < off \/ off + length data <= k)%nat ->
  writeAt off data content !! k = content !! k.
Proof.
  intros Hlen Hk. unfold writeAt.
  assert (Hpre : length (firstn off (content ++ repeat x00 (off - length content))) = off).
  { rewrite length_take, length_app, repeat_length. lia. }
  destruct Hk as [Hk | Hk].
  - rewrite lookup_app_l by lia.
    change (firstn off) with (take (A := byte) off).
    rewrite lookup_take_lt by lia. apply lookup_app_l. lia.
  - rewrite lookup_app_r by lia. rewrite Hpre.
    rewrite lookup_app_r by lia.
    change (skipn (off + length data)) with (drop (A := byte) (off + length data)).
    rewrite lookup_drop. f_equal. lia.
Qed.

Lemma byteRange_length content first last :
  0 <= first <= last ->
  length (byteRange content first last)
  = Nat.min (Z.to_nat (last - first + 1)) (length content - Z.to_nat first).
Proof. intros _. unfold byteRange. now rewrite length_take, length_drop. Qed.

Lemma byteRange_lookup content first last i :
  (i < length (byteRange content first last))%nat ->
  byteRange content first last !! i = content !! (Z.to_nat first + i)%nat.
Proof.
  unfold byteRange. rewrite length_take. intros Hi.
  change (firstn (Z.to_nat (last - first + 1)))
    with (take (A := byte) (Z.to_nat (last - first + 1))).
  rewrite lookup_take_lt by lia.
  change (skipn (Z.to_nat first)) with (drop (A := byte) (Z.to_nat first)).
  apply lookup_drop.
Qed.

(** Writes of pieces of [content] at their own offsets, in any order,
    build up [content]. *)
Section Assemble.
Variable content : list byte.

(** The pieces written: offset and bytes. *)
Let piece (t : nat * list byte) : Prop :=
  (fst t + length (snd t) <= length content)%nat /\
  forall i, (i < length (snd t))%nat -> snd t !! i = content !! (fst t + i)%nat.

Let written (f : list byte) (t : nat * list byte) : Prop :=
  (fst t + length (snd t) <= length f)%nat /\
  forall k, (fst t <= k < fst t + length (snd t))%nat -> f !! k = content !! k.

Lemma assemble_step f t done :
  piece t -> (length f <= length content)%nat -> Forall (written f) done ->
  (length (writeAt (fst t) (snd t) f) <= length content)%nat /\
  Forall (written (writeAt (fst t) (snd t) f)) (t :: done).
Proof.
  intros [Hfit Hbytes] Hlen Hdone.
  assert (Hnew : forall k, (fst t <= k < fst t + length (snd t))%nat ->
                           writeAt (fst t) (snd t) f !! k = content !! k).
  { intros k Hk. rewrite writeAt_lookup_inside by assumption.
    rewrite Hbytes by lia. f_equal. lia. }
  split; [rewrite writeAt_length; lia |].
  constructor.
  - split; [rewrite writeAt_length; lia | exact Hnew].
  - eapply Forall_impl; [exact Hdone |]. intros t' [Hfit' Hold]. split.
    + rewrite writeAt_length. lia.
    + intros k Hk.
      destruct (decide (fst t <= k < fst t + length (snd t))%nat) as [Hin | Hout].
      * now apply Hnew.
      * rewrite writeAt_lookup_outside by lia. now apply Hold.
Qed.

Lemma assemble_fold ts : forall f done,
  Forall piece ts -> (length f <= length content)%nat -> Forall (written f) done ->
  (length (fold_left (fun f t => writeAt (fst t) (snd t) f) ts f) <= length content)%nat /\
  Forall (written (fold_left (fun f t => writeAt (fst t) (snd t) f) ts f)) (ts ++ done).
Proof.
  induction ts as [| t ts IH]; intros f done Hts Hlen Hdone; simpl; [auto |].
  apply Forall_cons in Hts as [Ht Hts].
  destruct (assemble_step f t done Ht Hlen Hdone) as [Hlen' Hdone'].
  destruct (IH _ _ Hts Hlen' Hdone') as [Hlen'' Hall]. split; [assumption |].
  rewrite Forall_app in Hall. destruct Hall as [H1 H2].
  apply Forall_cons in H2 as [H2 H3].
  constructor; [assumption |]. rewrite Forall_app. now split.
Qed.

Lemma assemble ts :
  Forall piece ts ->
  (forall k, (k < length content)%nat ->
             exists t, t ∈ ts /\ (fst t <= k < fst t + length (snd t))%nat) ->
  fold_left (fun f t => writeAt (fst t) (snd t) f) ts [] = content.
Proof.
  intros Hts Hcover.
  destruct (assemble_fold ts [] [] Hts ltac:(simpl; lia) ltac:(constructor))
    as [Hlen Hall].
  rewrite app_nil_r in Hall. rewrite Forall_forall in Hall.
  set (f := fold_left _ ts []) in *.
  assert (Hk : forall k, (k < length content)%nat ->
                         f !! k = content !! k /\ (k < length f)%nat).
  { intros k Hk. destruct (Hcover k Hk) as (t & Ht & Hin).
    destruct (Hall t Ht) as [Hfit Hsame]. split; [now apply Hsame | lia]. }
  apply list_eq. intros k.
  destruct (decide (k < length content)%nat) as [Hlt | Hge].
  - now apply Hk.
  - rewrite !lookup_ge_None_2; [reflexivity | lia | lia].
Qed.
End Assemble.

(** ** The bytes that reach the staging file *)

Lemma fetchChunk_delivered w p j u first last data :
  fetchChunk w p j u first last = inr data ->
  exists resp, httpGet w p j u first last = inr resp /\
               StatusCode resp = 206 /\ Body resp = inr data.
Proof.
  unfold fetchChunk. destruct (httpGet w p j u first last) as [msg | resp]; [discriminate |].
  destruct (Z.eqb_spec (StatusCode resp) 206) as [Hs | Hs]; simpl; [| discriminate].
  destruct (Body resp) as [msg | data'] eqn:Hb; [discriminate |].
  intros [= <-]. now exists resp.
Qed.

(** What a goroutine passes on to the write was delivered by a source. *)
Lemma fetchWithFailover_delivered w urls p c evs u data :
  fetchWithFailover w urls p c = inr (evs, Some (u, data)) ->
  exists j, fetchChunk w p j u (offset c) (limit c) = inr data.
Proof.
  intros Hf.
  destruct (index urls (srcIdxInitAttempt c)) as [u0 |] eqn:Hidx.
  2:{ unfold fetchWithFailover in Hf. rewrite Hidx in Hf. discriminate. }
  rewrite (fetchWithFailover_order w urls p c u0 Hidx) in Hf.
  assert (Htry : tryInOrder w p (offset c) (limit c)
                   ((Z.to_nat (srcIdxInitAttempt c), u0)
                      :: otherSources urls (Z.to_nat (srcIdxInitAttempt c)))
                 = (evs, Some (u, data))) by congruence.
  apply tryInOrder_delivered in Htry as (j & _ & Hok & _). eauto.
Qed.

Section Transfer.
Variables (w : World) (urls : list string) (path : string).

Lemma chunkTask_wrote g t data f :
  gPanic g = None -> gDisk g !! path = Some f -> taskWrote w urls t data ->
  gPanic (chunkTask w urls path g t) = None /\
  gDisk (chunkTask w urls path g t) !! path
  = Some (writeAt (Z.to_nat (offset (snd t))) data f).
Proof.
  intros Hp Hf [(evs & u & Hfetch) [Hne Hw]]. destruct t as [p c]. simpl in *.
  unfold chunkTask. rewrite Hp, Hfetch. unfold copyAt.
  destruct data as [| b data]; [contradiction |]. rewrite Hw. simpl.
  split; [reflexivity |]. now rewrite lookup_alter_eq, Hf.
Qed.

Lemma fold_chunkTask_wrote ts : forall g f (datas : list (list byte)),
  gPanic g = None -> gDisk g !! path = Some f ->
  Forall2 (taskWrote w urls) ts datas ->
  gDisk (fold_left (chunkTask w urls path) ts g) !! path
  = Some (fold_left (fun f t => writeAt (fst t) (snd t) f)
            (zip_with (fun t data => (Z.to_nat (offset (snd t)), data)) ts datas) f).
Proof.
  induction ts as [| t ts IH]; intros g f datas Hp Hf Hall.
  - apply Forall2_nil_inv_l in Hall as ->. exact Hf.
  - apply Forall2_cons_inv_l in Hall as (data & datas' & Ht & Hts & ->).
    destruct (chunkTask_wrote g t data f Hp Hf Ht) as [Hp' Hf'].
    simpl. now apply IH.
Qed.
End Transfer.

Lemma planChunks_count fuel connections fsize nUrls chunks :
  planSafe connections fsize ->
  planChunks fuel connections fsize nUrls = Returns chunks ->
  Z.of_nat (length chunks) = (fsize - 1) / (fsize / connections) + 1.
Proof.
  intros [Hn Hmax] Hloop.
  assert (Hq : 1 <= fsize / connections) by (apply Z.div_le_lower_bound; lia).
  assert (Hq' : fsize / connections <= fsize) by (apply Z.div_le_upper_bound; nia).
  unfold planChunks, Int64.ofUint, Int64.quo in Hloop.
  rewrite maxInt_value in Hmax.
  rewrite (wrap64_id connections) in Hloop
    by (unfold Int64.inRange; rewrite maxInt_value, minInt_value; lia).
  destruct (Z.eqb_spec connections 0); [lia |].
  rewrite Z.quot_div_nonneg in Hloop by lia.
  rewrite (wrap64_id (fsize / connections)) in Hloop
    by (unfold Int64.inRange; rewrite maxInt_value, minInt_value; lia).
  apply chunkLoop_length in Hloop; try rewrite maxInt_value; try lia.
  rewrite Hloop.
  replace (fsize - 0 + fsize / connections - 1)
    with ((fsize - 1) + 1 * (fsize / connections)) by lia.
  now rewrite Z.div_add by lia.
Qed.

Lemma Forall2_map_r {A B : Type} (R : A -> B -> Prop) (g : A -> B) l :
  Forall (fun a => R a (g a)) l -> Forall2 R l (map g l).
Proof. induction 1; simpl; constructor; assumption. Qed.

Lemma zip_with_map_r {A B C : Type} (h : A -> B -> C) (g : A -> B) l :
  zip_with h l (map g l) = map (fun a => h a (g a)) l.
Proof. induction l as [| a l IH]; simpl; [reflexivity | now rewrite IH]. Qed.

(** When the chunk download succeeds against sources that serve [content],
    the staging file holds [content]. *)
Lemma downloadFileContents_assembles w fuel opts urls fm path d content :
  urls <> [] ->
  planSafe (Connections opts) (size fm) -> (Z.to_nat (size fm) <= fuel)%nat ->
  Z.of_nat (length content) = size fm ->
  servesFile w content ->
  outcome (downloadFileContents w fuel opts urls fm path (<[path := []]> d))
  = Returns None ->
  files (downloadFileContents w fuel opts urls fm path (<[path := []]> d)) !! path
  = Some content.
Proof.
  intros Hne Hsafe Hfuel Hlen Hserve.
  assert (Hm : 0 < Z.of_nat (length urls)) by (destruct urls; [contradiction | simpl; lia]).
  destruct (planChunks_safe fuel _ _ _ Hsafe Hm Hfuel) as (chunks & Hplan & Hat).
  pose proof (planChunks_count _ _ _ _ _ Hsafe Hplan) as Hcount.
  unfold downloadFileContents. rewrite Hplan. cbn [outcome files].
  set (ts := inCompletionOrder (taskFinish w) chunks).
  set (g0 := {| gEvents := []; gDisk := <[path := []]> d; gErr := None; gPanic := None |}).
  set (base := size fm / Connections opts) in *.
  assert (Hbase : 1 <= base) by (destruct Hsafe; apply Z.div_le_lower_bound; lia).
  assert (Hts : forall t, t ∈ ts -> exists oe, taskOutcome w urls t = inr oe).
  { intros [p' c'] Ht. apply tasks_elem in Ht. simpl in Ht.
    destruct (primary_slot urls _ _ p' c' Hne (Hat p' c' Ht)) as (_ & u' & _ & Hidx').
    unfold taskOutcome. simpl. rewrite (fetchWithFailover_order w urls p' c' u' Hidx').
    destruct (tryInOrder w p' _ _ _) as [evs' [[u'' [| b data]] |]]; eauto. }
  destruct (group_first_error w urls path ts g0 Hts eq_refl) as [Hpanic Herr].
  rewrite Hpanic, Herr. simpl firstError. intros [= Hnone].
  pose proof (head_omap_None _ _ Hnone) as Hok.
  (* every goroutine wrote the byte range of its chunk *)
  set (piece := fun t : nat * chunk => byteRange content (offset (snd t)) (limit (snd t))).
  assert (Hrange : forall t, t ∈ ts ->
            0 <= offset (snd t) < size fm /\
            offset (snd t) = Z.of_nat (fst t) * base /\
            limit (snd t) = Z.min (offset (snd t) + base) (size fm)).
  { intros [p c] Ht. apply tasks_elem in Ht. simpl in *.
    destruct (Hat p c Ht) as (_ & Hoff & Hlim & _ & Hin). repeat split; try lia. }
  assert (Hpiece_len : forall t, t ∈ ts ->
            length (piece t)
            = Nat.min (Z.to_nat (limit (snd t) - offset (snd t) + 1))
                      (length content - Z.to_nat (offset (snd t)))).
  { intros t Ht. destruct (Hrange t Ht) as (Hoff & _ & Hlim).
    apply byteRange_length. lia. }
  assert (Hwrote : Forall (fun t => taskWrote w urls t (piece t)) ts).
  { apply Forall_forall. intros [p c] Ht.
    pose proof (Hok _ Ht) as Hnoerr.
    pose proof (Hrange _ Ht) as (Hoff & _ & Hlim).
    pose proof (Hpiece_len _ Ht) as Hpl. simpl in Hoff, Hlim, Hpl.
    unfold taskError, taskOutcome in Hnoerr. simpl in Hnoerr.
    destruct (fetchWithFailover w urls p c) as [q | [evs [[u data] |]]] eqn:Hf;
      try discriminate.
    - destruct (Hts _ Ht) as [oe Hoe]. unfold taskOutcome in Hoe. simpl in Hoe.
      rewrite Hf in Hoe. discriminate.
    - destruct (fetchWithFailover_delivered _ _ _ _ _ _ _ Hf) as [j Hj].
      apply fetchChunk_delivered in Hj as (resp & Hget & Hs & Hb).
      pose proof (Hserve _ _ _ _ _ _ _ Hget Hs Hb) as Hdata.
      assert (Hnonempty : data <> []).
      { intros ->. unfold piece in Hpl. simpl in Hpl. rewrite <- Hdata in Hpl.
        simpl in Hpl. lia. }
      unfold taskWrote, piece. simpl. rewrite <- Hdata.
      split; [eauto |]. split; [assumption |].
      destruct data; [contradiction | assumption]. }
  rewrite (fold_chunkTask_wrote w urls path ts g0 [] (map piece ts));
    [| reflexivity | apply lookup_insert_eq | now apply Forall2_map_r].
  f_equal. rewrite zip_with_map_r.
  apply assemble.
  - apply Forall_forall. intros t' Ht'.
    apply list_elem_of_In, in_map_iff in Ht' as (t & <- & Ht).
    apply list_elem_of_In in Ht.
    pose proof (Hrange t Ht) as (Hoff & _ & Hlim).
    pose proof (Hpiece_len t Ht) as Hpl. cbn [fst snd]. split.
    + rewrite Hpl. lia.
    + intros i Hi. unfold piece. now apply byteRange_lookup.
  - intros k Hk.
    set (p := Z.to_nat (Z.of_nat k / base)).
    assert (Hp : (p < length chunks)%nat).
    { apply Nat2Z.inj_lt. rewrite Hcount. unfold p.
      rewrite Z2Nat.id by (apply Z.div_pos; lia).
      assert (Z.of_nat k / base <= (size fm - 1) / base)
        by (apply Z.div_le_mono; lia).
      lia. }
    destruct (lookup_lt_is_Some_2 chunks p Hp) as [c Hc].
    assert (Ht : (p, c) ∈ ts) by (now apply tasks_elem).
    exists (Z.to_nat (offset c), piece (p, c)). split.
    + apply list_elem_of_In, in_map_iff. exists (p, c).
      split; [reflexivity | now apply list_elem_of_In].
    + pose proof (Hrange _ Ht) as (Hoff & Hoffp & Hlim).
      pose proof (Hpiece_len _ Ht) as Hpl. cbn [fst snd] in *.
      rewrite Hpl.
      assert (Hpk : Z.of_nat p = Z.of_nat k / base)
        by (unfold p; apply Z2Nat.id, Z.div_pos; lia).
      pose proof (Z.mul_div_le (Z.of_nat k) base ltac:(lia)) as Hlow.
      pose proof (Z.mul_succ_div_gt (Z.of_nat k) base ltac:(lia)) as Hhigh.
      rewrite Hpk in Hoffp.
      destruct (Z.min_spec (offset c + base) (size fm)) as [[_ Hmin] | [_ Hmin]];
        rewrite Hmin in Hlim; lia.
Qed.

(** X12.  Against sources that serve the same file of [S >= n] bytes, a
    successful call leaves exactly that file at the destination path:
    although neighbouring chunks ask for one byte in common and the
    goroutines end in any order, every byte of the file is written at its
    own offset. *)
Theorem download_assembles_file sortSlice w fuel opts sourceUrls d evs sfm0 rest content :
  sortSliceContract sortSlice ->
  staged w opts sourceUrls evs (sfm0 :: rest) ->
  planSafe (Connections opts) (size (meta sfm0)) ->
  (Z.to_nat (size (meta sfm0)) <= fuel)%nat ->
  Z.of_nat (length content) = size (meta sfm0) ->
  servesFile w content ->
  outcome (Download sortSlice w fuel opts sourceUrls d) = Returns None ->
  files (Download sortSlice w fuel opts sourceUrls d) !! DestFilePath opts = Some content.
Proof.
  intros Hc Hst Hsafe Hfuel Hlen Hserve.
  rewrite (Download_staged _ _ _ _ _ _ _ _ _ Hst), outcome_wrapped, files_wrapped.
  assert (Hne : sourceUrlsSortedByEstLatency sortSlice (sfm0 :: rest) <> []).
  { intros Hnil. apply (f_equal length) in Hnil.
    rewrite prioritized_length in Hnil by assumption. discriminate. }
  pose proof (downloadFileContents_assembles w fuel opts
                (sourceUrlsSortedByEstLatency sortSlice (sfm0 :: rest)) (meta sfm0)
                (stagingPath opts) d content Hne Hsafe Hfuel Hlen Hserve) as Hasm.
  destruct (downloadAndPublish_cases sortSlice w fuel opts (sfm0 :: rest) (meta sfm0)
              (stagingPath opts) (<[stagingPath opts := []]> d))
    as [[Hfail ->] | (Hok & digest & [e |] & _ & Hdap)].
  - intros Hout. contradiction.
  - rewrite Hdap. discriminate.
  - destruct Hdap as ([e |] & d' & Hren & ->); [discriminate |]. intros _.
    apply rename_spec in Hren as (_ & c & Hc' & ->).
    rewrite (Hasm Hok) in Hc'. injection Hc' as <-. apply lookup_insert_eq.
Qed.

Lemma sample_servesFile : servesFile Sample.world Sample.contents.
Proof.
  intros p j u first last resp data Hget Hs Hb. simpl in Hget.
  injection Hget as <-. simpl in Hb. now injection Hb as <-.
Qed.

Lemma download_assembles_file_witness :
  sortSliceContract sortSliceSmall /\
  staged Sample.world (Sample.options 3 false) ["a"; "b"]
    [EvHead "a"; EvHead "b"] [Sample.descriptor "a"; Sample.descriptor "b"] /\
  planSafe 3 10 /\ (Z.to_nat 10 <= 10)%nat /\
  Z.of_nat (length Sample.contents) = 10 /\
  servesFile Sample.world Sample.contents /\
  outcome (Download sortSliceSmall Sample.world 10 (Sample.options 3 false) ["a"; "b"] ∅)
  = Returns None /\
  files (Download sortSliceSmall Sample.world 10 (Sample.options 3 false) ["a"; "b"] ∅)
    !! "out" = Some Sample.contents.
Proof.
  assert (Hst : staged Sample.world (Sample.options 3 false) ["a"; "b"]
                  [EvHead "a"; EvHead "b"]
                  [Sample.descriptor "a"; Sample.descriptor "b"]).
  { repeat split; [discriminate | vm_compute; reflexivity ..]. }
  assert (Hsafe : planSafe 3 10) by (vm_compute; intuition discriminate).
  assert (Hfuel : (Z.to_nat 10 <= 10)%nat) by (vm_compute; lia).
  assert (Hlen : Z.of_nat (length Sample.contents) = 10) by reflexivity.
  assert (Hout : outcome (Download sortSliceSmall Sample.world 10 (Sample.options 3 false)
                            ["a"; "b"] ∅) = Returns None) by (vm_compute; reflexivity).
  split; [exact sortSliceSmall_contract |]. do 4 (split; [assumption |]).
  split; [exact sample_servesFile |]. split; [exact Hout |].
  exact (download_assembles_file sortSliceSmall Sample.world 10 (Sample.options 3 false)
           ["a"; "b"] ∅ _ _ _ Sample.contents sortSliceSmall_contract Hst Hsafe Hfuel
           Hlen sample_servesFile Hout).
Defined.

Lemma fetchWithFailover_gets w urls p c evs r :
  fetchWithFailover w urls p c = inr (evs, r) -> Forall notWrite evs.
Proof.
  intros Hf.
  destruct (index urls (srcIdxInitAttempt c)) as [u0 |] eqn:Hidx.
  2:{ unfold fetchWithFailover in Hf. rewrite Hidx in Hf. discriminate. }
  rewrite (fetchWithFailover_order w urls p c u0 Hidx) in Hf.
  destruct (tryInOrder_events w p (offset c) (limit c)
              ((Z.to_nat (srcIdxInitAttempt c), u0)
                 :: otherSources urls (Z.to_nat (srcIdxInitAttempt c)))) as [n Hn].
  assert (Htry : tryInOrder w p (offset c) (limit c)
                   ((Z.to_nat (srcIdxInitAttempt c), u0)
                      :: otherSources urls (Z.to_nat (srcIdxInitAttempt c)))
                 = (evs, r)) by congruence.
  rewrite Htry in Hn. simpl in Hn. rewrite Hn.
  apply Forall_forall. intros ev Hev.
  apply list_elem_of_In, in_map_iff in Hev as (ju & <- & _). exact I.
Qed.

(** A property of all events of [Download] that holds of every event other
    than a write and of the events of [downloadFileContents]. *)
Lemma Download_events_forall (Q : event -> Prop) sortSlice w fuel opts urls d :
  (forall ev, notWrite ev -> Q ev) ->
  (forall urls' fm d',
      Forall Q (events (downloadFileContents w fuel opts urls' fm (stagingPath opts) d'))) ->
  Forall Q (events (Download sortSlice w fuel opts urls d)).
Proof.
  intros Hquiet Hchunks.
  assert (Hheads : forall evs metas err,
            fetchFileMetadataFromSources w urls = (evs, metas, err) -> Forall Q evs).
  { intros evs metas err Hf.
    pose proof (fetchFileMetadataFromSources_events w urls) as H. rewrite Hf in H.
    eapply Forall_impl; [exact H |]. intros ev [v ->]. now apply Hquiet. }
  destruct (Download_cases sortSlice w fuel opts urls d)
    as [[_ ->] | [(evs & metas & e & Hf & ->) | [(evs & metas & Hf & _ & ->)
       | [(evs & metas & msg & Hf & _ & _ & ->) | (evs & sfm0 & rest & Hst & ->)]]]];
    try unfold returns; cbn [events].
  - constructor.
  - now apply (Hheads _ _ _ Hf).
  - now apply (Hheads _ _ _ Hf).
  - apply Forall_app. split; [now apply (Hheads _ _ _ Hf) |].
    constructor; [now apply Hquiet | constructor].
  - rewrite events_wrapped.
    destruct Hst as (_ & Hf & _).
    assert (Hdigest : forall digest err,
              checkETag w opts (meta sfm0) (stagingPath opts)
                (files (downloadFileContents w fuel opts
                          (sourceUrlsSortedByEstLatency sortSlice (sfm0 :: rest))
                          (meta sfm0) (stagingPath opts)
                          (<[stagingPath opts := []]> d))) = (digest, err) ->
              Forall Q digest).
    { intros digest err Hchk.
      apply checkETag_spec in Hchk as [[-> | [-> | ->]] _];
        repeat constructor; now apply Hquiet. }
    rewrite !Forall_app. split; [| split].
    + split; [now apply (Hheads _ _ _ Hf) |].
      constructor; [now apply Hquiet | constructor].
    + destruct (downloadAndPublish_cases sortSlice w fuel opts (sfm0 :: rest) (meta sfm0)
                  (stagingPath opts) (<[stagingPath opts := []]> d))
        as [[_ ->] | (_ & digest & [e |] & Hchk & Hdap)].
      * apply Hchunks.
      * rewrite Hdap. simpl. rewrite Forall_app. split; [apply Hchunks |].
        now apply (Hdigest _ _ Hchk).
      * destruct Hdap as ([e |] & d' & _ & ->); simpl; rewrite !Forall_app;
          (split; [apply Hchunks |]); (split; [now apply (Hdigest _ _ Hchk) |]);
          repeat constructor; now apply Hquiet.
    + destruct (outcome _); repeat constructor; now apply Hquiet.
Qed.

(** X13.  Nothing but the body of an answer with status 206 is ever written
    to the staging file, and it is written at the first byte of the range
    that the answered request asked for: a source that ignores the Range
    header and answers 200 with the whole file is treated as failed. *)
Theorem only_partial_content_written sortSlice w fuel opts sourceUrls d :
  Forall (writesPartialContent w) (events (Download sortSlice w fuel opts sourceUrls d)).
Proof.
  apply Download_events_forall.
  - intros ev Hev. destruct ev; simpl; auto; contradiction.
  - intros urls fm d'. unfold downloadFileContents.
    destruct (planChunks _ _ _ _) as [chunks | q |]; simpl; try constructor.
    apply (fold_left_invariant (fun g => Forall (writesPartialContent w) (gEvents g))
             (chunkTask w urls (stagingPath opts))); [| constructor].
    intros g [p c] Hg. unfold chunkTask.
    destruct (gPanic g); [assumption |].
    destruct (fetchWithFailover w urls p c) as [q | [evs [[u data] |]]] eqn:Hf;
      simpl; try assumption.
    + assert (Hgets : Forall (writesPartialContent w) evs).
      { apply fetchWithFailover_gets in Hf. eapply Forall_impl; [exact Hf |].
        intros ev Hev. destruct ev; simpl; auto; contradiction. }
      destruct (fetchWithFailover_delivered _ _ _ _ _ _ _ Hf) as [j Hj].
      apply fetchChunk_delivered in Hj as (resp & Hget & Hs & Hb).
      unfold copyAt. destruct data as [| b data].
      * simpl. rewrite !Forall_app. repeat split; try assumption; repeat constructor.
      * destruct (writeAtError w p (offset c)); simpl; rewrite !Forall_app;
          repeat split; try assumption; repeat constructor;
          now exists p, j, u, (limit c), resp.
    + apply fetchWithFailover_gets in Hf. rewrite Forall_app. split; [assumption |].
      eapply Forall_impl; [exact Hf |].
      intros ev Hev. destruct ev; simpl; auto; contradiction.
Qed.

(** ** The ETag of a descriptor *)

Lemma trimLeft_first c s : firstChar (trimLeft c s) <> Some c.
Proof.
  induction s as [| a s IH]; simpl; [discriminate |].
  destruct (Ascii.eqb_spec a c) as [-> | Hne]; [assumption |].
  simpl. congruence.
Qed.

Lemma trimLeft_id c s : firstChar s <> Some c -> trimLeft c s = s.
Proof.
  destruct s as [| a s]; simpl; [reflexivity |]. intros Hne.
  destruct (Ascii.eqb_spec a c) as [-> | _]; [now contradiction Hne | reflexivity].
Qed.

Lemma trimRight_last c s : lastChar (trimRight c s) <> Some c.
Proof.
  induction s as [| a s IH]; simpl; [discriminate |].
  destruct (trimRight c s) as [| b t] eqn:Ht.
  - destruct (Ascii.eqb_spec a c) as [-> | Hne]; simpl; congruence.
  - exact IH.
Qed.

Lemma trimRight_first c s : firstChar s <> Some c -> firstChar (trimRight c s) <> Some c.
Proof.
  destruct s as [| a s]; simpl; [discriminate |]. intros Hne.
  destruct (trimRight c s) as [| b t]; [| exact Hne].
  destruct (Ascii.eqb_spec a c) as [-> | _]; [discriminate | exact Hne].
Qed.

Lemma trimRight_id c s : lastChar s <> Some c -> trimRight c s = s.
Proof.
  induction s as [| a s IH]; [reflexivity |]. intros Hne.
  destruct s as [| b s].
  - simpl in *. destruct (Ascii.eqb_spec a c) as [-> | _]; [now contradiction Hne | reflexivity].
  - change (lastChar (String a (String b s))) with (lastChar (String b s)) in Hne.
    change (trimRight c (String a (String b s)))
      with (match trimRight c (String b s) with
            | EmptyString => if Ascii.eqb a c then EmptyString else String a EmptyString
            | t => String a t
            end).
    now rewrite (IH Hne).
Qed.

Lemma trimRight_snoc c s : trimRight c (s ++ String c EmptyString) = trimRight c s.
Proof.
  induction s as [| a s IH]; simpl.
  - now rewrite Ascii.eqb_refl.
  - now rewrite IH.
Qed.

Lemma stringsTrim_clean c t :
  firstChar t <> Some c -> lastChar t <> Some c -> stringsTrim t c = t.
Proof. intros Hf Hl. unfold stringsTrim. now rewrite trimLeft_id, trimRight_id. Qed.

Lemma stringsTrim_wrapped c t :
  firstChar t <> Some c -> lastChar t <> Some c ->
  stringsTrim (String c (t ++ String c EmptyString)) c = t.
Proof.
  intros Hf Hl. unfold stringsTrim. simpl. rewrite Ascii.eqb_refl.
  destruct t as [| a t].
  - simpl. now rewrite Ascii.eqb_refl.
  - rewrite trimLeft_id by (simpl; exact Hf).
    now rewrite trimRight_snoc, trimRight_id.
Qed.

(** X14.  The ETag of a descriptor is the ETag header without the double
    quotes around it: it neither begins nor ends with a double quote; a
    header value [t] in double quotes, or bare, gives [t]. *)
Theorem descriptor_etag_unquoted w k u sfm :
  probe w k u = inr sfm ->
  exists resp,
    httpHead w k u = inr resp /\
    eTag (meta sfm) = stringsTrim (Header resp "ETag") doubleQuote /\
    firstChar (eTag (meta sfm)) <> Some doubleQuote /\
    lastChar (eTag (meta sfm)) <> Some doubleQuote /\
    forall t, firstChar t <> Some doubleQuote -> lastChar t <> Some doubleQuote ->
              Header resp "ETag" = t \/
              Header resp "ETag" = String doubleQuote (t ++ String doubleQuote EmptyString) ->
              eTag (meta sfm) = t.
Proof.
  intros Hp. apply probe_descriptor in Hp as (_ & _ & _ & resp & Hh & _ & Htag).
  exists resp. split; [assumption |]. split; [assumption |]. rewrite Htag.
  split; [apply trimRight_first, trimLeft_first |].
  split; [apply trimRight_last |].
  intros t Hfirst Hlast [-> | ->].
  - now apply stringsTrim_clean.
  - now apply stringsTrim_wrapped.
Qed.

Lemma descriptor_etag_unquoted_witness :
  probe Sample.wrongTag 0 "a" = inr (Sample.tagged "a" "d41d8cd98f00b204e9800998ecf8427e") /\
  firstChar (eTag (meta (Sample.tagged "a" "d41d8cd98f00b204e9800998ecf8427e")))
  <> Some doubleQuote.
Proof.
  assert (Hp : probe Sample.wrongTag 0 "a"
               = inr (Sample.tagged "a" "d41d8cd98f00b204e9800998ecf8427e"))
    by (vm_compute; reflexivity).
  split; [exact Hp |].
  destruct (descriptor_etag_unquoted Sample.wrongTag 0 "a" _ Hp)
    as (resp & _ & _ & Hfirst & _).
  exact Hfirst.
Defined.

(** ** The fastest source and leftovers *)

(** X15.  The first URL of the prioritized list belongs to a source whose
    estimated latency is the least of all. *)
Theorem fastest_source_first sortSlice srcFileMetas :
  sortSliceContract sortSlice -> srcFileMetas <> [] ->
  exists fastest,
    fastest ∈ srcFileMetas /\
    head (sourceUrlsSortedByEstLatency sortSlice srcFileMetas) = Some (url fastest) /\
    forall sfm, sfm ∈ srcFileMetas -> estLatency fastest <= estLatency sfm.
Proof.
  intros Hc Hne. destruct (Hc srcFileMetas) as [Hperm Hsorted].
  unfold sourceUrlsSortedByEstLatency.
  destruct (sortSlice srcFileMetas) as [| x l] eqn:Hs.
  - apply Permutation_nil in Hperm. contradiction.
  - exists x. split; [rewrite <- Hperm; left |]. split; [reflexivity |].
    intros sfm Hin. rewrite <- Hperm in Hin.
    apply StronglySorted_cons in Hsorted as [Hx _].
    apply elem_of_cons in Hin as [-> | Hin]; [lia |].
    rewrite Forall_forall in Hx. specialize (Hx sfm Hin).
    unfold lessEstLatency in Hx. now apply Z.ltb_ge in Hx.
Qed.

Lemma fastest_source_first_witness :
  sortSliceContract sortSliceSmall /\
  [Sample.descriptor "a"; Sample.descriptor "b"] <> [] /\
  exists fastest,
    head (sourceUrlsSortedByEstLatency sortSliceSmall
            [Sample.descriptor "a"; Sample.descriptor "b"]) = Some (url fastest).
Proof.
  split; [exact sortSliceSmall_contract |]. split; [discriminate |].
  destruct (fastest_source_first sortSliceSmall
              [Sample.descriptor "a"; Sample.descriptor "b"]
              sortSliceSmall_contract ltac:(discriminate)) as (fastest & _ & Hhead & _).
  now exists fastest.
Defined.

(** X16.  A staging file left behind by an earlier call has no influence:
    [os.Create] truncates it, and a call that gets as far as creating the
    staging file ends, acts and leaves the files exactly as if the
    leftover had been empty or absent. *)
Theorem leftover_staging_file_ignored sortSlice w fuel opts sourceUrls d evs metas junk :
  staged w opts sourceUrls evs metas ->
  Download sortSlice w fuel opts sourceUrls (<[stagingPath opts := junk]> d)
  = Download sortSlice w fuel opts sourceUrls d.
Proof.
  intros Hst. destruct (staged_first _ _ _ _ _ Hst) as (sfm0 & rest & ->).
  rewrite !(Download_staged _ _ _ _ _ _ _ _ _ Hst).
  now rewrite insert_insert_eq.
Qed.

Lemma leftover_staging_file_ignored_witness :
  staged Sample.world (Sample.options 2 false) ["a"; "b"]
    [EvHead "a"; EvHead "b"] [Sample.descriptor "a"; Sample.descriptor "b"] /\
  Download sortSliceSmall Sample.world 10 (Sample.options 2 false) ["a"; "b"]
    (<[stagingPath (Sample.options 2 false) := [x00; x01]]> ∅)
  = Download sortSliceSmall Sample.world 10 (Sample.options 2 false) ["a"; "b"] ∅.
Proof.
  assert (Hst : staged Sample.world (Sample.options 2 false) ["a"; "b"]
                  [EvHead "a"; EvHead "b"]
                  [Sample.descriptor "a"; Sample.descriptor "b"]).
  { repeat split; [discriminate | vm_compute; reflexivity ..]. }
  split; [exact Hst |].
  exact (leftover_staging_file_ignored sortSliceSmall Sample.world 10
           (Sample.options 2 false) ["a"; "b"] ∅ _ _ [x00; x01] Hst).
Defined.

(** ** The later revision of the prober *)

Lemma revised_probe_content_type w k u sfm :
  Revised.probe w k u = inr sfm ->
  exists resp, httpHead w k u = inr resp /\
               contentType (meta sfm) = Header resp "Content-Type".
Proof.
  unfold Revised.probe. destruct (httpHead w k u) as [msg | resp]; [discriminate |].
  destruct (negb (StatusCode resp =? 200)); [discriminate |].
  destruct (ContentLength resp =? -1); [discriminate |].
  destruct (_ || _); [discriminate |].
  intros [= <-]. now exists resp.
Qed.

(** X17.  With the prober of the later revision, which copies the
    Content-Type header into the descriptor, the reconciler rejects
    sources that answer with different content types: when every probe
    succeeds and two sources differ in Content-Type,
    [allSourcesMatchFileMetadata] is false on the descriptors. *)
Theorem revised_prober_detects_content_type
    w sourceUrls evs metas checkETag k1 k2 u1 u2 resp1 resp2 :
  Revised.fetchFileMetadataFromSources w sourceUrls = (evs, metas, None) ->
  sourceUrls !! k1 = Some u1 -> sourceUrls !! k2 = Some u2 ->
  httpHead w k1 u1 = inr resp1 -> httpHead w k2 u2 = inr resp2 ->
  Header resp1 "Content-Type" <> Header resp2 "Content-Type" ->
  allSourcesMatchFileMetadata metas checkETag = false.
Proof.
  unfold Revised.fetchFileMetadataFromSources.
  set (ended := inCompletionOrder _ _). intros [= _ <- Herr] Hu1 Hu2 Hh1 Hh2 Hdiff.
  assert (Hsent : forall k u resp,
            sourceUrls !! k = Some u -> httpHead w k u = inr resp ->
            exists sfm, sfm ∈ omap sentDescriptor ended /\
                        contentType (meta sfm) = Header resp "Content-Type").
  { intros k u resp Hu Hh.
    assert (Hin : (k, (u, Revised.probe w k u)) ∈ ended).
    { apply tasks_elem. simpl. now rewrite list_lookup_imap, Hu. }
    pose proof (head_omap_None _ _ Herr _ Hin) as Hnone.
    unfold returnedError in Hnone. simpl in Hnone.
    destruct (Revised.probe w k u) as [e | sfm] eqn:Hp; [discriminate |].
    exists sfm. split.
    - apply list_elem_of_omap. exists (k, (u, inr sfm)). split; [assumption | reflexivity].
    - apply revised_probe_content_type in Hp as (resp' & Hh' & Hct). congruence. }
  destruct (Hsent _ _ _ Hu1 Hh1) as (s1 & Hs1 & Hc1).
  destruct (Hsent _ _ _ Hu2 Hh2) as (s2 & Hs2 & Hc2).
  destruct (allSourcesMatchFileMetadata (omap sentDescriptor ended) checkETag) eqn:Hall;
    [| reflexivity].
  exfalso.
  pose proof (proj1 (allSourcesMatchFileMetadata_pairwise _ _) Hall s1 s2 Hs1 Hs2)
    as (_ & Hct & _).
  congruence.
Qed.

Lemma revised_prober_detects_content_type_witness :
  Revised.fetchFileMetadataFromSources Sample.mixedTypes ["a"; "b"]
  = ([EvHead "a"; EvHead "b"],
     [{| meta := {| size := 10; contentType := "text/plain"; eTag := EmptyString |};
         url := "a"; estLatency := 5000000 |};
      {| meta := {| size := 10; contentType := "image/png"; eTag := EmptyString |};
         url := "b"; estLatency := 5000000 |}], None) /\
  allSourcesMatchFileMetadata
    [{| meta := {| size := 10; contentType := "text/plain"; eTag := EmptyString |};
        url := "a"; estLatency := 5000000 |};
     {| meta := {| size := 10; contentType := "image/png"; eTag := EmptyString |};
        url := "b"; estLatency := 5000000 |}] false = false.
Proof.
  assert (Hf : Revised.fetchFileMetadataFromSources Sample.mixedTypes ["a"; "b"]
               = ([EvHead "a"; EvHead "b"],
                  [{| meta := {| size := 10; contentType := "text/plain";
                                 eTag := EmptyString |};
                      url := "a"; estLatency := 5000000 |};
                   {| meta := {| size := 10; contentType := "image/png";
                                 eTag := EmptyString |};
                      url := "b"; estLatency := 5000000 |}], None))
    by (vm_compute; reflexivity).
  split; [exact Hf |].
  apply (revised_prober_detects_content_type Sample.mixedTypes ["a"; "b"] _ _ false
           0 1 "a" "b" _ _ Hf eq_refl eq_refl eq_refl eq_refl).
  vm_compute. discriminate.
Defined.
